(** * PNG to OTBM converter: the binary writer and the pixel pipeline

    A shallow embedding of [OTBMWriter] (the OTBM binary writer module) and
    of the colour analysis and tile planning of [PNGToOTBMApp], followed by
    the properties of the byte stream and of the pipeline.

    JavaScript numbers are modelled as [Z] (the code only handles integers
    here), arrays as lists, a [Map] as an association list in insertion
    order, and a string as the sequence of its UTF-8 bytes. *)

From Stdlib Require Import ZArith List String Ascii Bool Lia Permutation Sorted.
From Stdlib Require Import DecimalString HexadecimalString DecimalZ DecimalPos.
Import ListNotations.
Open Scope Z_scope.

(** ** JavaScript integer operators *)

Module JS.

(** [ToInt32]: the operand conversion of the bitwise operators. *)
Definition toInt32 (v : Z) : Z := (v + 2 ^ 31) mod 2 ^ 32 - 2 ^ 31.

(** [a & b] *)
Definition band (a b : Z) : Z := Z.land (toInt32 a) (toInt32 b).

(** [a >> n] *)
Definition sar (a n : Z) : Z := Z.shiftr (toInt32 a) (n mod 32).

(** [Math.max(lo, Math.min(hi, v))] *)
Definition clamp (lo hi v : Z) : Z := Z.max lo (Z.min hi v).

(** [String(v)] for an integer [v]. *)
Definition numberToString (v : Z) : string :=
  DecimalString.NilZero.string_of_int (Z.to_int v).

(** [new TextEncoder().encode(str)]: the UTF-8 bytes of the string. *)
Definition encode (str : string) : list Z :=
  map (fun c => Z.of_N (N_of_ascii c)) (list_ascii_of_string str).

(** [new Uint8Array(values)]: every element is reduced modulo 256. *)
Definition Uint8Array (values : list Z) : list Z :=
  map (fun v => v mod 256) values.

(** A [Map] with string keys, in insertion order. *)
Section StringMap.
Context {V : Type}.

Fixpoint get (k : string) (m : list (string * V)) : option V :=
  match m with
  | [] => None
  | (k', v) :: rest => if String.eqb k k' then Some v else get k rest
  end.

Definition has (k : string) (m : list (string * V)) : bool :=
  match get k m with Some _ => true | None => false end.

(** [m.set(k, v)]: an existing key keeps its position, a new one goes last. *)
Fixpoint set (k : string) (v : V) (m : list (string * V)) : list (string * V) :=
  match m with
  | [] => [(k, v)]
  | (k', v') :: rest =>
      if String.eqb k k' then (k', v) :: rest else (k', v') :: set k v rest
  end.

(** In-place update of the object stored under [k] ([m.get(k).f(...)]). *)
Fixpoint update (k : string) (f : V -> V) (m : list (string * V)) : list (string * V) :=
  match m with
  | [] => []
  | (k', v') :: rest =>
      if String.eqb k k' then (k', f v') :: rest else (k', v') :: update k f rest
  end.

Definition keys (m : list (string * V)) : list string := map fst m.
Definition values (m : list (string * V)) : list V := map snd m.
End StringMap.

(** [array.sort(cmp)]: a stable sort; [cmp a b > 0] puts [b] before [a]. *)
Section Sort.
Context {A : Type} (cmp : A -> A -> Z).

Fixpoint insert (a : A) (l : list A) : list A :=
  match l with
  | [] => [a]
  | b :: rest => if 0 <? cmp a b then b :: insert a rest else a :: b :: rest
  end.

Definition sort (l : list A) : list A := fold_right insert [] l.
End Sort.

End JS.

(** ** The OTBM writer *)

Module Writer.

(** OTBM control characters *)
Definition NODE_START : Z := 0xFE.
Definition NODE_END : Z := 0xFF.
Definition ESCAPE : Z := 0xFD.

(** OTBM node types *)
Definition OTBM_ROOTV1 : Z := 1.
Definition OTBM_MAP_DATA : Z := 2.
Definition OTBM_TILE_AREA : Z := 4.
Definition OTBM_TILE : Z := 5.
Definition OTBM_ITEM : Z := 6.
Definition OTBM_TOWNS : Z := 12.
Definition OTBM_WAYPOINTS : Z := 15.

(** OTBM attributes *)
Definition OTBM_ATTR_DESCRIPTION : Z := 1.
Definition OTBM_ATTR_ITEM : Z := 9.

Record Tile := mkTile {
  x : Z;
  y : Z;
  z : Z;
  groundId : Z;
  items : list Z
}.

Record OTBMWriter := mkWriter {
  width : Z;
  height : Z;
  description : string;
  tiles : list Tile;
  buffer : list Z;
  otbmVersion : Z;
  otbMajorVersion : Z;
  otbMinorVersion : Z
}.

(** [new OTBMWriter(width, height, description, otbmVersion, otbMajorVersion,
    otbMinorVersion)] *)
Definition new (width height : Z) (description : string)
    (otbmVersion otbMajorVersion otbMinorVersion : Z) : OTBMWriter :=
  mkWriter width height description [] [] otbmVersion otbMajorVersion otbMinorVersion.

Definition set_tiles (ts : list Tile) (w : OTBMWriter) : OTBMWriter :=
  mkWriter (width w) (height w) (description w) ts (buffer w)
           (otbmVersion w) (otbMajorVersion w) (otbMinorVersion w).

Definition set_buffer (b : list Z) (w : OTBMWriter) : OTBMWriter :=
  mkWriter (width w) (height w) (description w) (tiles w) b
           (otbmVersion w) (otbMajorVersion w) (otbMinorVersion w).

(** A method that only changes the writer. *)
Definition M := OTBMWriter -> OTBMWriter.

Definition andThen (f g : M) : M := fun w => g (f w).
Notation "f ;; g" := (andThen f g) (at level 61, right associativity).

(** [for (const a of l) body(a)] *)
Definition forOf {A : Type} (l : list A) (body : A -> M) : M :=
  fun w => fold_left (fun w a => body a w) l w.

(** [this.buffer.push(...bs)] *)
Definition push (bs : list Z) : M :=
  fun w => set_buffer (buffer w ++ bs) w.

Definition addTile (x y z groundId : Z) (items : list Z) : M :=
  fun w => set_tiles (tiles w ++ [mkTile x y z groundId items]) w.

Definition _writeByte (value : Z) : M :=
  push [JS.band value 0xFF].

Definition _writeEscapedByte (value : Z) : M :=
  let value := JS.band value 0xFF in
  (if (value =? NODE_START) || (value =? NODE_END) || (value =? ESCAPE)
   then push [ESCAPE] else (fun w => w)) ;;
  push [value].

Definition _writeEscapedBytes (bytes : list Z) : M :=
  forOf bytes _writeEscapedByte.

Definition _writeU16 (value : Z) : M :=
  _writeEscapedByte (JS.band value 0xFF) ;;
  _writeEscapedByte (JS.band (JS.sar value 8) 0xFF).

Definition _writeU32 (value : Z) : M :=
  _writeEscapedByte (JS.band value 0xFF) ;;
  _writeEscapedByte (JS.band (JS.sar value 8) 0xFF) ;;
  _writeEscapedByte (JS.band (JS.sar value 16) 0xFF) ;;
  _writeEscapedByte (JS.band (JS.sar value 24) 0xFF).

Definition _writeString (str : string) : M :=
  let encoded := JS.encode str in
  _writeU16 (Z.of_nat (List.length encoded)) ;;
  _writeEscapedBytes encoded.

Definition _startNode (nodeType : Z) : M :=
  push [NODE_START] ;; _writeByte nodeType.

Definition _endNode : M := push [NODE_END].

Definition _writeRootHeader : M := fun w =>
  (_writeU32 (otbmVersion w) ;;
   _writeU16 (width w) ;;
   _writeU16 (height w) ;;
   _writeU32 (otbMajorVersion w) ;;
   _writeU32 (otbMinorVersion w)) w.

Definition _writeTile (tile : Tile) (baseX baseY : Z) : M :=
  _startNode OTBM_TILE ;;
  (let xOffset := x tile - baseX in
   let yOffset := y tile - baseY in
   _writeEscapedByte xOffset ;;
   _writeEscapedByte yOffset) ;;
  _writeByte OTBM_ATTR_ITEM ;;
  _writeU16 (groundId tile) ;;
  forOf (items tile) (fun itemId =>
    _startNode OTBM_ITEM ;; _writeU16 itemId ;; _endNode) ;;
  _endNode.

Definition _writeTileArea (baseX baseY z : Z) (tiles : list Tile) : M :=
  _startNode OTBM_TILE_AREA ;;
  _writeU16 baseX ;;
  _writeU16 baseY ;;
  _writeEscapedByte z ;;
  forOf tiles (fun tile => _writeTile tile baseX baseY) ;;
  _endNode.

(** The objects stored in the [areas] map of [_writeMapData]. *)
Record Area := mkArea {
  areaX : Z;
  areaY : Z;
  area_z : Z;
  area_tiles : list Tile
}.

Definition area_push (tile : Tile) (a : Area) : Area :=
  mkArea (areaX a) (areaY a) (area_z a) (area_tiles a ++ [tile]).

(** [`${areaX},${areaY},${tile.z}`] *)
Definition areaKey (areaX areaY z : Z) : string :=
  (JS.numberToString areaX ++ "," ++ JS.numberToString areaY ++ ","
   ++ JS.numberToString z)%string.

(** One iteration of the grouping loop of [_writeMapData]. *)
Definition groupTile (areas : list (string * Area)) (tile : Tile) : list (string * Area) :=
  let areaX := JS.band (x tile) 0xFF00 in
  let areaY := JS.band (y tile) 0xFF00 in
  let areaKey := areaKey areaX areaY (z tile) in
  let areas :=
    if negb (JS.has areaKey areas)
    then JS.set areaKey (mkArea areaX areaY (z tile) []) areas
    else areas in
  JS.update areaKey (area_push tile) areas.

(** The grouping loop of [_writeMapData]: tiles by area (256x256 chunks). *)
Definition groupTiles (tiles : list Tile) : list (string * Area) :=
  fold_left groupTile tiles [].

Definition _writeMapData : M := fun w =>
  (_startNode OTBM_MAP_DATA ;;
   _writeByte OTBM_ATTR_DESCRIPTION ;;
   _writeString (description w) ;;
   (let areas := groupTiles (tiles w) in
    forOf (JS.values areas) (fun area =>
      _writeTileArea (areaX area) (areaY area) (area_z area) (area_tiles area))) ;;
   _startNode OTBM_TOWNS ;;
   _endNode ;;
   (if 2 <=? otbmVersion w
    then _startNode OTBM_WAYPOINTS ;; _endNode
    else (fun w => w)) ;;
   _endNode) w.

(** [generate()]: the returned [Uint8Array] and the writer afterwards. *)
Definition generate (w : OTBMWriter) : list Z * OTBMWriter :=
  let w :=
    ((fun w => set_buffer [] w) ;;
     push [0x4F; 0x54; 0x42; 0x4D] ;;
     _startNode OTBM_ROOTV1 ;;
     _writeRootHeader ;;
     _writeMapData ;;
     _endNode) w in
  (JS.Uint8Array (buffer w), w).

End Writer.

(** ** Client configuration data *)

Module ClientData.

Record OtbVersion := mkOtb { version : Z; id : Z }.

Record Client := mkClient {
  name : string;
  otb : string;
  otbmVersion : Z;
  default : bool
}.

(** [CLIENT_DATA.otbVersions] *)
Definition otbVersions : list (string * OtbVersion) :=
  map (fun e => (fst e, mkOtb (fst (snd e)) (snd (snd e))))
  [ ("7.40", (1, 1)); ("7.50", (1, 1)); ("7.55", (1, 2)); ("7.60", (1, 3));
    ("7.70", (1, 3)); ("7.80", (1, 4)); ("7.90", (1, 5)); ("7.92", (1, 6));
    ("8.00", (2, 7)); ("8.10", (2, 8)); ("8.11", (2, 9)); ("8.20", (3, 10));
    ("8.30", (3, 11)); ("8.40", (3, 12)); ("8.41", (3, 13)); ("8.42", (3, 14));
    ("8.50", (3, 15)); ("8.54 (bad)", (3, 16)); ("8.54", (3, 17));
    ("8.55", (3, 18)); ("8.60 (old)", (3, 19)); ("8.60", (3, 20));
    ("8.61", (3, 21)); ("8.62", (3, 22)); ("8.70", (3, 23)); ("8.71", (3, 24));
    ("8.72", (3, 25)); ("8.73", (3, 26)); ("8.74", (3, 26)); ("9.00", (3, 27));
    ("9.10", (3, 28)); ("9.20", (3, 29)); ("9.40", (3, 30)); ("9.44", (3, 31));
    ("9.44.v2", (3, 32)); ("9.44.v3", (3, 33)); ("9.44.v4", (3, 34));
    ("9.46", (3, 35)); ("9.50", (3, 36)); ("9.52", (3, 37)); ("9.53", (3, 38));
    ("9.54", (3, 39)); ("9.60", (3, 40)); ("9.61", (3, 41)); ("9.63", (3, 42));
    ("9.70", (3, 43)); ("9.80", (3, 44)); ("9.81", (3, 45)); ("9.82", (3, 46));
    ("9.83", (3, 47)); ("9.85", (3, 48)); ("9.86", (3, 49)); ("10.10", (3, 50));
    ("10.20", (3, 51)); ("10.21", (3, 52)); ("10.30", (3, 53));
    ("10.31", (3, 54)); ("10.41", (3, 55)); ("10.77", (3, 56));
    ("10.98", (3, 57)); ("10.100", (3, 58)); ("12.71", (3, 59));
    ("12.81", (3, 60)); ("12.85", (3, 61)); ("12.86", (3, 62));
    ("12.87", (3, 63)); ("12.90", (3, 64)); ("13.10", (3, 65)) ]%string.

(** [CLIENT_DATA.clients] *)
Definition clients : list Client :=
  map (fun e => mkClient (fst (fst e)) (snd (fst e)) (snd e) (String.eqb (fst (fst e)) "8.00"))
  [ ("7.4", "7.40", 1); ("7.6", "7.60", 1); ("8.00", "8.00", 2);
    ("8.10", "8.10", 2); ("8.20 - 8.31", "8.20", 2); ("8.40", "8.40", 3);
    ("8.50", "8.50", 3); ("8.54", "8.54", 3); ("8.60", "8.60", 3);
    ("8.70", "8.70", 3); ("9.10", "9.10", 3); ("9.20 - 9.31", "9.20", 3);
    ("9.46", "9.46", 3); ("9.54", "9.54", 3); ("9.60", "9.60", 3);
    ("9.70", "9.70", 3); ("9.86", "9.86", 3); ("10.10", "10.10", 3);
    ("10.20", "10.20", 3); ("10.21", "10.21", 3); ("10.30", "10.30", 3);
    ("10.31", "10.31", 3); ("10.41", "10.41", 3); ("10.77", "10.77", 3);
    ("10.98", "10.98", 3); ("10.100", "10.100", 3);
    ("12.71 - 12.72", "12.71", 3); ("12.81", "12.81", 3);
    ("12.85", "12.85", 3); ("12.86", "12.86", 3); ("12.87", "12.87", 3);
    ("12.90", "12.90", 3); ("13.10", "13.10", 3) ]%string.

Definition getClientConfig (clientName : string) : option Client :=
  find (fun c => String.eqb (name c) clientName) clients.

Definition getOTBVersion (otbName : string) : option OtbVersion :=
  JS.get otbName otbVersions.

End ClientData.

(** ** The application: colour analysis and tile planning

    The repository holds two revisions of [PNGToOTBMApp]: the current one
    (favourites, zoom, persisted settings; module [App]) and the first one
    (src/app.js; module [App0]).  What the two share word for word is
    defined once, in [App]. *)

Module App.

(** One RGBA quadruple of [ImageData.data] (a [Uint8ClampedArray]: every
    component is a byte). *)
Record Pixel := mkPixel { r : Z; g : Z; b : Z; a : Z }.

(** A decoded image: [data] is what [getImageData(0, 0, width, height).data]
    holds, four bytes per pixel, row-major. *)
Record Image := mkImage { width : Z; height : Z; data : list Pixel }.

Record Rgb := mkRgb { red : Z; green : Z; blue : Z }.

Record Mapping := mkMapping {
  hex : string;
  rgb : Rgb;
  tileId : Z;
  count : Z
}.

Inductive Status :=
| StatusIdle
| StatusImageTooLarge
| StatusImageTooComplex
| StatusTooManyColors (size : Z)
| StatusLoaded
| StatusNoImage
| StatusGenerating
| StatusOffsetOverflow
| StatusInvalidClient
| StatusOtbNotFound
| StatusDownloaded (fileSize tileCount transparentTileCount : Z)
| StatusError.

(** The fields of the application object and of the page that the analysis
    and the generation read or write.  A numeric input holds what [parseInt]
    makes of its text ([None] for [NaN]). *)
Record PNGToOTBMApp := mkApp {
  image : option Image;
  imageData : option Image;
  colorMappings : list (string * Mapping);
  transparentPixelCount : Z;
  filteredColors : option (list (string * Mapping));
  generateBtn_disabled : bool;
  status : Status;
  clientVersion : string;
  transparentTileId : option Z;
  zLevel : option Z;
  offsetX : option Z;
  offsetY : option Z;
  (** [localStorage.pngToOtbmColorMappings], parsed *)
  storedColorMappings : option (list (string * Z))
}.

Definition set_status (s : Status) (app : PNGToOTBMApp) : PNGToOTBMApp :=
  mkApp (image app) (imageData app) (colorMappings app) (transparentPixelCount app)
        (filteredColors app) (generateBtn_disabled app) s (clientVersion app)
        (transparentTileId app) (zLevel app) (offsetX app) (offsetY app)
        (storedColorMappings app).

Definition set_image (i : option Image) (app : PNGToOTBMApp) : PNGToOTBMApp :=
  mkApp i (imageData app) (colorMappings app) (transparentPixelCount app)
        (filteredColors app) (generateBtn_disabled app) (status app) (clientVersion app)
        (transparentTileId app) (zLevel app) (offsetX app) (offsetY app)
        (storedColorMappings app).

Definition set_imageData (i : option Image) (app : PNGToOTBMApp) : PNGToOTBMApp :=
  mkApp (image app) i (colorMappings app) (transparentPixelCount app)
        (filteredColors app) (generateBtn_disabled app) (status app) (clientVersion app)
        (transparentTileId app) (zLevel app) (offsetX app) (offsetY app)
        (storedColorMappings app).

Definition set_colorMappings (m : list (string * Mapping)) (app : PNGToOTBMApp) : PNGToOTBMApp :=
  mkApp (image app) (imageData app) m (transparentPixelCount app)
        (filteredColors app) (generateBtn_disabled app) (status app) (clientVersion app)
        (transparentTileId app) (zLevel app) (offsetX app) (offsetY app)
        (storedColorMappings app).

Definition set_transparentPixelCount (n : Z) (app : PNGToOTBMApp) : PNGToOTBMApp :=
  mkApp (image app) (imageData app) (colorMappings app) n
        (filteredColors app) (generateBtn_disabled app) (status app) (clientVersion app)
        (transparentTileId app) (zLevel app) (offsetX app) (offsetY app)
        (storedColorMappings app).

Definition set_filteredColors (f : option (list (string * Mapping))) (app : PNGToOTBMApp) : PNGToOTBMApp :=
  mkApp (image app) (imageData app) (colorMappings app) (transparentPixelCount app)
        f (generateBtn_disabled app) (status app) (clientVersion app)
        (transparentTileId app) (zLevel app) (offsetX app) (offsetY app)
        (storedColorMappings app).

Definition set_generateBtn_disabled (d : bool) (app : PNGToOTBMApp) : PNGToOTBMApp :=
  mkApp (image app) (imageData app) (colorMappings app) (transparentPixelCount app)
        (filteredColors app) d (status app) (clientVersion app)
        (transparentTileId app) (zLevel app) (offsetX app) (offsetY app)
        (storedColorMappings app).

(** [v || d] for a number [v]: [0] and [NaN] are falsy. *)
Definition orElse (v : option Z) (d : Z) : Z :=
  match v with
  | Some n => if n =? 0 then d else n
  | None => d
  end.

(** [x.toString(16).padStart(2, '0')] *)
Definition hex2 (x : Z) : string :=
  let s := HexadecimalString.NilZero.string_of_int (Z.to_hex_int x) in
  match String.length s with
  | 0%nat => "00"
  | 1%nat => "0" ++ s
  | _ => s
  end%string.

Definition _rgbToHex (r g b : Z) : string :=
  ("#" ++ hex2 r ++ hex2 g ++ hex2 b)%string.

Definition hexDigit (c : ascii) : option Z :=
  let n := Z.of_N (N_of_ascii c) in
  if (48 <=? n) && (n <=? 57) then Some (n - 48)
  else if (97 <=? n) && (n <=? 102) then Some (n - 87)
  else if (65 <=? n) && (n <=? 70) then Some (n - 55)
  else None.

(** [parseInt(cc, 16)] on a group of the pattern. *)
Definition hexPair (c1 c2 : ascii) : option Z :=
  match hexDigit c1, hexDigit c2 with
  | Some h, Some l => Some (16 * h + l)
  | _, _ => None
  end.

(** The pattern is [^#?([a-f\d]{2})([a-f\d]{2})([a-f\d]{2})$], ignoring case. *)
Definition _hexToRgb (hex : string) : Rgb :=
  let digits :=
    match hex with
    | String "#" rest => rest
    | _ => hex
    end in
  match list_ascii_of_string digits with
  | [c1; c2; c3; c4; c5; c6] =>
      match hexPair c1 c2, hexPair c3 c4, hexPair c5 c6 with
      | Some r, Some g, Some b => mkRgb r g b
      | _, _, _ => mkRgb 0 0 0
      end
  | _ => mkRgb 0 0 0
  end.

Definition _checkImageComplexity (width height : Z) : option Status :=
  let MAX_DIMENSION := 4500 in
  let MAX_TOTAL_PIXELS := 13500000 in
  let totalPixels := width * height in
  if (MAX_DIMENSION <? width) || (MAX_DIMENSION <? height)
  then Some StatusImageTooLarge
  else if MAX_TOTAL_PIXELS <? totalPixels
  then Some StatusImageTooComplex
  else None.

Definition MAX_COLORS : Z := 256.

Inductive Scan :=
| ScanDone (colorCounts : list (string * Z)) (transparentCount : Z)
| ScanTooManyColors (size : Z) (index : nat).

Definition size {V : Type} (m : list (string * V)) : Z := Z.of_nat (List.length m).

(** The counting loop of [_analyzeColors], from pixel [index] on; it leaves
    at the pixel that makes the map larger than [MAX_COLORS]. *)
Fixpoint scanColors (pixels : list Pixel) (index : nat)
    (colorCounts : list (string * Z)) (transparentCount : Z) : Scan :=
  match pixels with
  | [] => ScanDone colorCounts transparentCount
  | p :: rest =>
      if a p <? 128
      then scanColors rest (S index) colorCounts (transparentCount + 1)
      else
        let hex := _rgbToHex (r p) (g p) (b p) in
        let colorCounts :=
          JS.set hex (orElse (JS.get hex colorCounts) 0 + 1) colorCounts in
        if MAX_COLORS <? size colorCounts
        then ScanTooManyColors (size colorCounts) index
        else scanColors rest (S index) colorCounts transparentCount
  end.

Definition _loadColorMappings (app : PNGToOTBMApp) : list (string * Z) :=
  match storedColorMappings app with
  | Some parsed => fold_left (fun m e => JS.set (fst e) (snd e) m) parsed []
  | None => []
  end.

(** What the too-many-colours branch of [_analyzeColors] does to the object. *)
Definition rejectImage (n : Z) (app : PNGToOTBMApp) : PNGToOTBMApp :=
  set_generateBtn_disabled true
    (set_filteredColors None
      (set_colorMappings []
        (set_imageData None
          (set_image None
            (set_status (StatusTooManyColors n) app))))).

(** [_analyzeColors()]: [None] for [null], [Some success] otherwise. *)
Definition _analyzeColors (app : PNGToOTBMApp) : option bool * PNGToOTBMApp :=
  match image app with
  | None => (None, app)
  | Some img =>
      let app := set_imageData (Some img) app in
      match scanColors (data img) 0 [] 0 with
      | ScanTooManyColors n _ => (Some false, rejectImage n app)
      | ScanDone colorCounts transparentCount =>
          let sortedColors := JS.sort (fun a b => snd b - snd a) colorCounts in
          let app := set_filteredColors None (set_colorMappings [] app) in
          let savedMappings := _loadColorMappings app in
          let colorMappings :=
            fold_left (fun m e =>
              let hex := fst e in
              let count := snd e in
              let rgb := _hexToRgb hex in
              let savedTileId := JS.get hex savedMappings in
              JS.set hex
                (mkMapping hex rgb
                   (match savedTileId with Some t => t | None => 0 end) count) m)
              sortedColors (colorMappings app) in
          let app := set_colorMappings colorMappings app in
          let app := set_transparentPixelCount transparentCount app in
          let app :=
            if (0 <? size (App.colorMappings app)) || (0 <? transparentCount)
            then set_generateBtn_disabled false app else app in
          (Some true, app)
      end
  end.

(** The [img.onload] handler of [_loadImage]. *)
Definition _loadImage (img : Image) (app : PNGToOTBMApp) : PNGToOTBMApp :=
  match _checkImageComplexity (width img) (height img) with
  | Some error =>
      set_generateBtn_disabled true
        (set_filteredColors None
          (set_colorMappings []
            (set_imageData None
              (set_image None (set_status error app)))))
  | None =>
      let app := set_image (Some img) app in
      match _analyzeColors app with
      | (Some true, app) => set_status StatusLoaded app
      | (_, app) => app
      end
  end.

(** The state of the pixel loop of [_generateOTBM]. *)
Record Plan := mkPlan {
  writer : Writer.OTBMWriter;
  tileCount : Z;
  transparentTileCount : Z
}.

(** [for (let i = 0; i < n; i++) body(i)]; [None] when the body throws. *)
Definition forRange {S : Type} (n : Z) (body : Z -> S -> option S) (s : S) : option S :=
  fold_left (fun acc i =>
               match acc with
               | Some s => body (Z.of_nat i) s
               | None => None
               end)
            (seq 0 (Z.to_nat n)) (Some s).

(** The lookup map [colorToTile] of [_generateOTBM]. *)
Definition colorToTile (colorMappings : list (string * Mapping)) : list (string * Z) :=
  fold_left (fun m e =>
               if 0 <? tileId (snd e) then JS.set (fst e) (tileId (snd e)) m else m)
            colorMappings [].

(** The body of the pixel loop.  A pixel outside [pixels] reads as
    [undefined], which [_rgbToHex] cannot format: it throws. *)
Definition planPixel (pixels : list Pixel) (width : Z)
    (colorToTile : list (string * Z)) (transparentId z offX offY : Z)
    (y x : Z) (p : Plan) : option Plan :=
  let i := y * width + x in
  match nth_error pixels (Z.to_nat i) with
  | None => None
  | Some px =>
      if a px <? 128 then
        if 0 <? transparentId
        then Some (mkPlan (Writer.addTile (x + offX) (y + offY) z transparentId [] (writer p))
                          (tileCount p + 1) (transparentTileCount p + 1))
        else Some p
      else
        let hex := _rgbToHex (r px) (g px) (b px) in
        match JS.get hex colorToTile with
        | Some tileId =>
            if negb (tileId =? 0)
            then Some (mkPlan (Writer.addTile (x + offX) (y + offY) z tileId [] (writer p))
                              (tileCount p + 1) (transparentTileCount p))
            else Some p
        | None => Some p
        end
  end.

Definition planTiles (pixels : list Pixel) (width height : Z)
    (colorToTile : list (string * Z)) (transparentId z offX offY : Z)
    (p : Plan) : option Plan :=
  forRange height (fun y =>
    forRange width (fun x =>
      planPixel pixels width colorToTile transparentId z offX offY y x)) p.

(** ["PNG to OTBM Converted Map (" + name + ")"] *)
Definition mapDescription (name : string) : string :=
  ("PNG to OTBM Converted Map (" ++ name ++ ")")%string.

(** [_generateOTBM()]: the bytes handed to the download, if any, and the
    application afterwards.  [proceed] is the answer to the [confirm] dialog. *)
Definition _generateOTBM (proceed : bool) (app : PNGToOTBMApp)
    : option (list Z) * PNGToOTBMApp :=
  match image app, imageData app with
  | Some img, Some imgData =>
      let width := width img in
      let height := height img in
      let zeroIds := filter (fun m => tileId m =? 0) (JS.values (colorMappings app)) in
      let transparentId := JS.clamp 0 65535 (orElse (transparentTileId app) 0) in
      let hasTransparentPixels := 0 <? transparentPixelCount app in
      if ((0 <? Z.of_nat (List.length zeroIds))
          || (hasTransparentPixels && (transparentId =? 0))) && negb proceed
      then (None, app)
      else
        let app := set_status StatusGenerating app in
        let z := JS.clamp 0 15 (orElse (zLevel app) 7) in
        let offX := Z.max 0 (orElse (offsetX app) 0) in
        let offY := Z.max 0 (orElse (offsetY app) 0) in
        if (65535 <? offX + width) || (65535 <? offY + height)
        then (None, set_status StatusOffsetOverflow app)
        else
          match ClientData.getClientConfig (clientVersion app) with
          | None => (None, set_status StatusInvalidClient app)
          | Some clientConfig =>
              match ClientData.getOTBVersion (ClientData.otb clientConfig) with
              | None => (None, set_status StatusOtbNotFound app)
              | Some otbVersion =>
                  let colorToTile := colorToTile (colorMappings app) in
                  let writer :=
                    Writer.new (width + offX) (height + offY)
                      (mapDescription (ClientData.name clientConfig))
                      (ClientData.otbmVersion clientConfig)
                      (ClientData.version otbVersion)
                      (ClientData.id otbVersion) in
                  match planTiles (data imgData) width height colorToTile
                          transparentId z offX offY (mkPlan writer 0 0) with
                  | None => (None, set_status StatusError app)
                  | Some p =>
                      let bytes := fst (Writer.generate (App.writer p)) in
                      (Some bytes,
                       set_status (StatusDownloaded (Z.of_nat (List.length bytes))
                                     (tileCount p) (transparentTileCount p)) app)
                  end
              end
          end
  | _, _ => (None, set_status StatusNoImage app)
  end.

End App.

(** The first revision (src/app.js).  [_rgbToHex], [_hexToRgb] and the
    counting loop are those of [App]. *)
Module App0.

Import App.

Definition _checkImageComplexity (width height : Z) : option Status :=
  let MAX_DIMENSION := 2048 in
  let MAX_TOTAL_PIXELS := 4194304 in
  let totalPixels := width * height in
  if (MAX_DIMENSION <? width) || (MAX_DIMENSION <? height)
  then Some StatusImageTooLarge
  else if MAX_TOTAL_PIXELS <? totalPixels
  then Some StatusImageTooComplex
  else None.

Definition rejectImage (n : Z) (app : PNGToOTBMApp) : PNGToOTBMApp :=
  set_generateBtn_disabled true
    (set_colorMappings []
      (set_imageData None
        (set_image None
          (set_status (StatusTooManyColors n) app)))).

Definition _analyzeColors (app : PNGToOTBMApp) : option bool * PNGToOTBMApp :=
  match image app with
  | None => (None, app)
  | Some img =>
      let app := set_imageData (Some img) app in
      match scanColors (data img) 0 [] 0 with
      | ScanTooManyColors n _ => (Some false, rejectImage n app)
      | ScanDone colorCounts transparentCount =>
          let sortedColors := JS.sort (fun a b => snd b - snd a) colorCounts in
          let app := set_colorMappings [] app in
          let colorMappings :=
            fold_left (fun m e =>
              let hex := fst e in
              let count := snd e in
              let rgb := _hexToRgb hex in
              JS.set hex (mkMapping hex rgb 0 count) m)
              sortedColors (colorMappings app) in
          let app := set_colorMappings colorMappings app in
          let app := set_transparentPixelCount transparentCount app in
          let app :=
            if (0 <? size (App.colorMappings app)) || (0 <? transparentCount)
            then set_generateBtn_disabled false app else app in
          (Some true, app)
      end
  end.

(** The body of the pixel loop, with its [continue] after a transparent pixel. *)
Definition planPixel (pixels : list Pixel) (width : Z)
    (colorToTile : list (string * Z)) (transparentId z offX offY : Z)
    (y x : Z) (p : Plan) : option Plan :=
  let i := y * width + x in
  match nth_error pixels (Z.to_nat i) with
  | None => None
  | Some px =>
      if a px <? 128 then
        if 0 <? transparentId
        then Some (mkPlan (Writer.addTile (x + offX) (y + offY) z transparentId [] (writer p))
                          (tileCount p + 1) (transparentTileCount p + 1))
        else Some p
      else
        let hex := _rgbToHex (r px) (g px) (b px) in
        match JS.get hex colorToTile with
        | Some tileId =>
            if negb (tileId =? 0)
            then Some (mkPlan (Writer.addTile (x + offX) (y + offY) z tileId [] (writer p))
                              (tileCount p + 1) (transparentTileCount p))
            else Some p
        | None => Some p
        end
  end.

(** [_generateOTBM()]; the outer [None] is an exception that leaves the
    method (the pixel loop is outside its [try]). *)
Definition _generateOTBM (proceed : bool) (app : PNGToOTBMApp)
    : option (option (list Z) * PNGToOTBMApp) :=
  match image app, imageData app with
  | Some img, Some imgData =>
      let zeroIds := filter (fun m => tileId m =? 0) (JS.values (colorMappings app)) in
      let transparentId := orElse (transparentTileId app) 0 in
      let hasTransparentPixels := 0 <? transparentPixelCount app in
      if ((0 <? Z.of_nat (List.length zeroIds))
          || (hasTransparentPixels && (transparentId =? 0))) && negb proceed
      then Some (None, app)
      else
        let app := set_status StatusGenerating app in
        let z := JS.clamp 0 15 (orElse (zLevel app) 7) in
        let offX := orElse (offsetX app) 0 in
        let offY := orElse (offsetY app) 0 in
        match ClientData.getClientConfig (clientVersion app) with
        | None => Some (None, set_status StatusInvalidClient app)
        | Some clientConfig =>
            match ClientData.getOTBVersion (ClientData.otb clientConfig) with
            | None => Some (None, set_status StatusOtbNotFound app)
            | Some otbVersion =>
                let colorToTile := colorToTile (colorMappings app) in
                let width := width img in
                let height := height img in
                let writer :=
                  Writer.new (width + offX) (height + offY)
                    (mapDescription (ClientData.name clientConfig))
                    (ClientData.otbmVersion clientConfig)
                    (ClientData.version otbVersion)
                    (ClientData.id otbVersion) in
                match forRange height (fun y =>
                        forRange width (fun x =>
                          planPixel (data imgData) width colorToTile
                            transparentId z offX offY y x)) (mkPlan writer 0 0) with
                | None => None
                | Some p =>
                    let bytes := fst (Writer.generate (App.writer p)) in
                    Some (Some bytes,
                          set_status (StatusDownloaded (Z.of_nat (List.length bytes))
                                        (tileCount p) (transparentTileCount p)) app)
                end
            end
        end
  | _, _ => Some (None, set_status StatusNoImage app)
  end.

End App0.

(** ** The OTBM layout, as pure functions

    The byte format as a specification reads it: escaping as a map over the
    data bytes, little-endian integers by division, a node as its two
    markers around a type byte and a body.  The writer is compared with
    these below. *)

Module Format.

Definition byte (v : Z) : Z := v mod 256.

(** The three bytes that never appear bare in a payload. *)
Definition special (b : Z) : bool :=
  (b =? 0xFE) || (b =? 0xFF) || (b =? 0xFD).

Definition escape1 (b : Z) : list Z :=
  if special b then [0xFD; b] else [b].

Definition escape (data : list Z) : list Z := flat_map escape1 data.

(** Stripping the escape prefixes: the byte after a [0xFD] is data. *)
Fixpoint unescape (out : list Z) : list Z :=
  match out with
  | [] => []
  | b :: rest =>
      if b =? 0xFD
      then match rest with
           | [] => []
           | d :: rest' => d :: unescape rest'
           end
      else b :: unescape rest
  end.

(** The [n] low bytes of [v], least significant first. *)
Fixpoint le (n : nat) (v : Z) : list Z :=
  match n with
  | O => []
  | S n' => v mod 256 :: le n' (v / 256)
  end.

(** The number a little-endian byte sequence stands for. *)
Fixpoint le_value (bs : list Z) : Z :=
  match bs with
  | [] => 0
  | b :: rest => b + 256 * le_value rest
  end.

Definition node (type : Z) (body : list Z) : list Z :=
  [0xFE; type] ++ body ++ [0xFF].

Definition item (itemId : Z) : list Z := node 6 (escape (le 2 itemId)).

Definition tile (baseX baseY : Z) (t : Writer.Tile) : list Z :=
  node 5 (escape [byte (Writer.x t - baseX); byte (Writer.y t - baseY)]
          ++ [9] ++ escape (le 2 (Writer.groundId t))
          ++ flat_map item (Writer.items t)).

Definition tileArea (a : Writer.Area) : list Z :=
  node 4 (escape (le 2 (Writer.areaX a)) ++ escape (le 2 (Writer.areaY a))
          ++ escape [byte (Writer.area_z a)]
          ++ flat_map (tile (Writer.areaX a) (Writer.areaY a)) (Writer.area_tiles a)).

Definition lpstring (s : string) : list Z :=
  escape (le 2 (Z.of_nat (List.length (JS.encode s)))) ++ escape (JS.encode s).

Definition rootHeader (w : Writer.OTBMWriter) : list Z :=
  escape (le 4 (Writer.otbmVersion w))
  ++ escape (le 2 (Writer.width w))
  ++ escape (le 2 (Writer.height w))
  ++ escape (le 4 (Writer.otbMajorVersion w))
  ++ escape (le 4 (Writer.otbMinorVersion w)).

Definition mapData (w : Writer.OTBMWriter) : list Z :=
  node 2 ([1] ++ lpstring (Writer.description w)
          ++ flat_map tileArea (JS.values (Writer.groupTiles (Writer.tiles w)))
          ++ node 12 []
          ++ (if 2 <=? Writer.otbmVersion w then node 15 [] else [])).

Definition magic : list Z := [0x4F; 0x54; 0x42; 0x4D].

Definition bytes (l : list Z) : Prop := Forall (fun b => 0 <= b < 256) l.

Definition document (w : Writer.OTBMWriter) : list Z :=
  magic ++ node 1 (rootHeader w ++ mapData w).

(** The markers of a stream: the number of bytes equal to [m] that are not
    the data byte of an escape pair. *)
Fixpoint countUnescaped (m : Z) (s : list Z) : nat :=
  match s with
  | [] => O
  | b :: rest =>
      if b =? 0xFD
      then match rest with
           | [] => O
           | _ :: rest' => countUnescaped m rest'
           end
      else (if b =? m then S (countUnescaped m rest) else countUnescaped m rest)
  end.

(** Streams built from plain bytes, escape pairs and closed nodes. *)
Inductive Nested : list Z -> Prop :=
| Nested_nil : Nested []
| Nested_plain b s : special b = false -> Nested s -> Nested (b :: s)
| Nested_pair b s : Nested s -> Nested (0xFD :: b :: s)
| Nested_node body s : Nested body -> Nested s -> Nested (0xFE :: body ++ 0xFF :: s).

End Format.

(** ** Order of first appearance, cells of the map grid *)

Module Spec.

Section FirstSeen.
Context {A : Type} (eqb : A -> A -> bool).

(** The distinct elements of [l], each at the place of its first
    occurrence. *)
Fixpoint firstSeen (l : list A) : list A :=
  match l with
  | [] => []
  | a :: rest => a :: filter (fun b => negb (eqb b a)) (firstSeen rest)
  end.
End FirstSeen.

(** A 256 x 256 cell of one floor: its base coordinates and the floor. *)
Definition Cell : Type := Z * Z * Z.

Definition cell_eqb (c d : Cell) : bool :=
  match c, d with
  | (cx, cy, cz), (dx, dy, dz) => (cx =? dx) && (cy =? dy) && (cz =? dz)
  end.

(** [(x & ~0xFF, y & ~0xFF, z)] *)
Definition tileCell (t : Writer.Tile) : Cell :=
  (Z.land (Writer.x t) (Z.lnot 0xFF), Z.land (Writer.y t) (Z.lnot 0xFF), Writer.z t).

Definition areaCell (a : Writer.Area) : Cell :=
  (Writer.areaX a, Writer.areaY a, Writer.area_z a).

(** The coordinates of a tile are unsigned 16-bit numbers. *)
Definition inRange (t : Writer.Tile) : Prop :=
  0 <= Writer.x t <= 65535 /\ 0 <= Writer.y t <= 65535.

End Spec.

(** Helpers of the proofs about grouping. *)

Module Grouping.

(** The key that the grouping loop computes for a tile. *)
Definition tileKey (t : Writer.Tile) : string :=
  Writer.areaKey (JS.band (Writer.x t) 0xFF00) (JS.band (Writer.y t) 0xFF00)
                 (Writer.z t).

Definition cellKey (c : Spec.Cell) : string :=
  match c with (cx, cy, cz) => Writer.areaKey cx cy cz end.

Definition noComma (s : string) : Prop :=
  Forall (fun c => c <> ","%char) (list_ascii_of_string s).

(** All the tiles of the areas, area by area. *)
Definition allTiles (areas : list (string * Writer.Area)) : list Writer.Tile :=
  flat_map Writer.area_tiles (JS.values areas).

(** What the grouping loop has established after the tiles [l]. *)
Definition grouped (l : list Writer.Tile) (areas : list (string * Writer.Area)) : Prop :=
  JS.keys areas = Spec.firstSeen String.eqb (map tileKey l)
  /\ forall k a, In (k, a) areas ->
       Writer.area_tiles a = filter (fun t => String.eqb (tileKey t) k) l
       /\ exists t, In t l /\ tileKey t = k
            /\ Writer.areaX a = JS.band (Writer.x t) 0xFF00
            /\ Writer.areaY a = JS.band (Writer.y t) 0xFF00
            /\ Writer.area_z a = Writer.z t.

End Grouping.

Module Palette.

(** The values of a byte. *)
Definition byteValues : list Z := map Z.of_nat (seq 0 256).

(** A pixel is opaque when its alpha is at least 128. *)
Definition opaque (p : App.Pixel) : bool := negb (App.a p <? 128).

(** The colour key of a pixel. *)
Definition pixelKey (p : App.Pixel) : string :=
  App._rgbToHex (App.r p) (App.g p) (App.b p).

Definition opaqueKeys (pixels : list App.Pixel) : list string :=
  map pixelKey (filter opaque pixels).

(** The distinct opaque colours, in the order of their first pixel. *)
Definition distinctColors (pixels : list App.Pixel) : list string :=
  Spec.firstSeen String.eqb (opaqueKeys pixels).

(** The number of opaque pixels of colour [k]. *)
Definition occurrences (k : string) (pixels : list App.Pixel) : Z :=
  Z.of_nat (count_occ string_dec (opaqueKeys pixels) k).

Definition transparentPixels (pixels : list App.Pixel) : Z :=
  Z.of_nat (List.length (filter (fun p => negb (opaque p)) pixels)).

Definition total (l : list Z) : Z := fold_right Z.add 0 l.

(** What the counting loop has established after the pixels [done]. *)
Definition counted (done : list App.Pixel) (colorCounts : list (string * Z))
    (transparentCount : Z) : Prop :=
  JS.keys colorCounts = distinctColors done
  /\ (forall e, In e colorCounts -> snd e = occurrences (fst e) done)
  /\ transparentCount = transparentPixels done
  /\ total (JS.values colorCounts) + transparentCount = Z.of_nat (List.length done).

(** The entry that [_analyzeColors] stores for a counted colour. *)
Definition entry (saved : list (string * Z)) (e : string * Z) : string * App.Mapping :=
  (fst e,
   App.mkMapping (fst e) (App._hexToRgb (fst e))
     (match JS.get (fst e) saved with Some t => t | None => 0 end) (snd e)).

(** The comparison function of the sort in [_analyzeColors]. *)
Definition byCount (a b : string * Z) : Z := snd b - snd a.

End Palette.

(** ** The rule of the tile planner, pixel by pixel *)

Module Planner.

(** The ground id that a pixel gets, if it gets a tile. *)
Definition groundFor (palette : list (string * App.Mapping)) (transparentTileId : Z)
    (px : App.Pixel) : option Z :=
  if App.a px <? 128
  then if 0 <? transparentTileId then Some transparentTileId else None
  else match JS.get (Palette.pixelKey px) palette with
       | Some m => if 0 <? App.tileId m then Some (App.tileId m) else None
       | None => None
       end.

(** The tiles placed for the pixel at column [x] of row [y]. *)
Definition placed (palette : list (string * App.Mapping)) (transparentTileId z offX offY : Z)
    (x y : Z) (px : option App.Pixel) : list Writer.Tile :=
  match px with
  | Some px =>
      match groundFor palette transparentTileId px with
      | Some g => [Writer.mkTile (x + offX) (y + offY) z g []]
      | None => []
      end
  | None => []
  end.

Definition range (n : Z) : list Z := map Z.of_nat (seq 0 (Z.to_nat n)).

(** The tiles of a whole buffer, row by row. *)
Definition plan (pixels : list App.Pixel) (width height : Z)
    (palette : list (string * App.Mapping)) (transparentTileId z offX offY : Z)
    : list Writer.Tile :=
  flat_map (fun y =>
    flat_map (fun x =>
      placed palette transparentTileId z offX offY x y
             (nth_error pixels (Z.to_nat (y * width + x))))
      (range width))
    (range height).

End Planner.

(** ** Sample data *)

Module Examples.

Definition blank : App.PNGToOTBMApp :=
  App.mkApp None None [] 0 None true App.StatusIdle "8.00"
            (Some 0) (Some 7) (Some 0) (Some 0) None.

(** A 2 x 2 image: red, green, green again (less opaque), transparent. *)
Definition small : App.Image :=
  App.mkImage 2 2
    [App.mkPixel 255 0 0 255; App.mkPixel 0 255 0 255;
     App.mkPixel 0 255 0 200; App.mkPixel 0 0 0 0].

(** A 300 x 1 image with a colour of its own at every pixel. *)
Definition manyColors : App.Image :=
  App.mkImage 300 1
    (map (fun i => App.mkPixel (Z.of_nat i mod 256) (Z.of_nat i / 256) 0 255)
         (seq 0 300)).

(** One opaque pixel, mapped to tile 100, to be placed at [offsetX = 65535]. *)
Definition onePixel : App.Image := App.mkImage 1 1 [App.mkPixel 255 0 0 255].

Definition atTheEdge : App.PNGToOTBMApp :=
  App.mkApp (Some onePixel) (Some onePixel)
            [("#ff0000"%string,
              App.mkMapping "#ff0000" (App.mkRgb 255 0 0) 100 1)]
            0 None false App.StatusLoaded "8.00"
            (Some 0) (Some 7) (Some 65535) (Some 0) None.

Definition threeTiles : list Writer.Tile :=
  [Writer.mkTile 1 2 7 100 []; Writer.mkTile 300 5 7 254 [];
   Writer.mkTile 3 2 7 100 []].

Definition smallPalette : list (string * App.Mapping) :=
  [("#00ff00"%string, App.mkMapping "#00ff00" (App.mkRgb 0 255 0) 200 2);
   ("#ff0000"%string, App.mkMapping "#ff0000" (App.mkRgb 255 0 0) 0 1)].

End Examples.

(** ** Reading a stream back

    The node grammar of the format, as a reader would apply it: a node is a
    start marker, a type byte, data bytes (an escape byte makes the next byte
    data), child nodes and an end marker. *)

Module Decode.

#[warnings="-register-all"] Inductive Node := mkNode (type : Z) (data : list Z) (children : list Node).

Definition type (n : Node) : Z := match n with mkNode t _ _ => t end.
Definition data (n : Node) : list Z := match n with mkNode _ d _ => d end.
Definition children (n : Node) : list Node := match n with mkNode _ _ c => c end.

(** The bytes of a node. *)
Fixpoint encode (n : Node) : list Z :=
  match n with
  | mkNode t d cs => Format.node t (Format.escape d ++ flat_map encode cs)
  end.

(** The data bytes up to the next bare marker, and what follows them. *)
Fixpoint readData (s : list Z) : list Z * list Z :=
  match s with
  | [] => ([], [])
  | b :: rest =>
      if b =? 0xFD
      then match rest with
           | [] => ([], s)
           | d :: rest' => let (ds, r) := readData rest' in (d :: ds, r)
           end
      else if (b =? 0xFE) || (b =? 0xFF) then ([], s)
      else let (ds, r) := readData rest in (b :: ds, r)
  end.

(** One node, and a run of sibling nodes, with the rest of the stream. *)
Fixpoint parseNode (fuel : nat) (s : list Z) : option (Node * list Z) :=
  match fuel with
  | O => None
  | S fuel' =>
      match s with
      | b :: t :: rest =>
          if b =? 0xFE
          then let (d, r) := readData rest in
               match parseNodes fuel' r with
               | Some (cs, e :: r') =>
                   if e =? 0xFF then Some (mkNode t d cs, r') else None
               | _ => None
               end
          else None
      | _ => None
      end
  end
with parseNodes (fuel : nat) (s : list Z) : option (list Node * list Z) :=
  match fuel with
  | O => None
  | S fuel' =>
      match s with
      | [] => Some ([], [])
      | b :: _ =>
          if b =? 0xFE
          then match parseNode fuel' s with
               | Some (n, r) =>
                   match parseNodes fuel' r with
                   | Some (ns, r') => Some (n :: ns, r')
                   | None => None
                   end
               | None => None
               end
          else Some ([], s)
      end
  end.

(** A whole file: the magic bytes, then one node and nothing else. *)
Definition decode (s : list Z) : option Node :=
  match s with
  | m1 :: m2 :: m3 :: m4 :: rest =>
      if (m1 =? 0x4F) && (m2 =? 0x54) && (m3 =? 0x42) && (m4 =? 0x4D)
      then match parseNode (List.length rest) rest with
           | Some (n, []) => Some n
           | _ => None
           end
      else None
  | _ => None
  end.

(** The fuel that reading a node takes. *)
Fixpoint cost (n : Node) : nat :=
  match n with
  | mkNode _ _ cs => S (fold_right (fun c acc => S (cost c + acc)) 1%nat cs)
  end.

Definition costs (cs : list Node) : nat :=
  fold_right (fun c acc => S (cost c + acc)) 1%nat cs.

(** The tree of the document that the writer generates. *)
Definition itemNode (itemId : Z) : Node := mkNode 6 (Format.le 2 itemId) [].

Definition tileNode (baseX baseY : Z) (t : Writer.Tile) : Node :=
  mkNode 5
    ([Format.byte (Writer.x t - baseX); Format.byte (Writer.y t - baseY); 9]
     ++ Format.le 2 (Writer.groundId t))
    (map itemNode (Writer.items t)).

Definition areaNode (a : Writer.Area) : Node :=
  mkNode 4
    (Format.le 2 (Writer.areaX a) ++ Format.le 2 (Writer.areaY a)
     ++ [Format.byte (Writer.area_z a)])
    (map (tileNode (Writer.areaX a) (Writer.areaY a)) (Writer.area_tiles a)).

Definition mapDataNode (w : Writer.OTBMWriter) : Node :=
  mkNode 2
    ([1] ++ Format.le 2 (Z.of_nat (List.length (JS.encode (Writer.description w))))
     ++ JS.encode (Writer.description w))
    (map areaNode (JS.values (Writer.groupTiles (Writer.tiles w)))
     ++ [mkNode 12 [] []]
     ++ (if 2 <=? Writer.otbmVersion w then [mkNode 15 [] []] else [])).

Definition rootNode (w : Writer.OTBMWriter) : Node :=
  mkNode 1
    (Format.le 4 (Writer.otbmVersion w) ++ Format.le 2 (Writer.width w)
     ++ Format.le 2 (Writer.height w) ++ Format.le 4 (Writer.otbMajorVersion w)
     ++ Format.le 4 (Writer.otbMinorVersion w))
    [mapDataNode w].

(** A stream at which data stops: its end, or a bare marker. *)
Definition stops (s : list Z) : Prop :=
  match s with
  | [] => True
  | b :: _ => (b =? 0xFE) || (b =? 0xFF) = true
  end.

(** Reading the tiles of a document tree: the absolute coordinates are the
    base of the area plus the offsets of the tile. *)
Definition readItem (n : Node) : Z := Format.le_value (data n).

Definition readTile (baseX baseY z : Z) (n : Node) : option Writer.Tile :=
  match data n with
  | [xOffset; yOffset; attr; g0; g1] =>
      if attr =? 9
      then Some (Writer.mkTile (baseX + xOffset) (baseY + yOffset) z
                   (Format.le_value [g0; g1]) (map readItem (children n)))
      else None
  | _ => None
  end.

Definition readArea (n : Node) : list (option Writer.Tile) :=
  match data n with
  | [x0; x1; y0; y1; z] =>
      map (readTile (Format.le_value [x0; x1]) (Format.le_value [y0; y1]) z)
          (children n)
  | _ => [None]
  end.

Definition readTiles (root : Node) : list (option Writer.Tile) :=
  match children root with
  | [mapData] =>
      flat_map readArea (filter (fun n => type n =? 4) (children mapData))
  | _ => [None]
  end.

(** The five numbers of the root node. *)
Definition readHeader (root : Node) : option (Z * Z * Z * Z * Z) :=
  match data root with
  | [v0; v1; v2; v3; w0; w1; h0; h1; a0; a1; a2; a3; b0; b1; b2; b3] =>
      Some (Format.le_value [v0; v1; v2; v3], Format.le_value [w0; w1],
            Format.le_value [h0; h1], Format.le_value [a0; a1; a2; a3],
            Format.le_value [b0; b1; b2; b3])
  | _ => None
  end.

(** The description of the map data node: the attribute byte 1, a two-byte
    length, and the bytes of the text. *)
Definition readDescription (root : Node) : option (list Z) :=
  match children root with
  | [mapData] =>
      match data mapData with
      | attr :: l0 :: l1 :: text =>
          if (attr =? 1) && (Format.le_value [l0; l1] =? Z.of_nat (List.length text))
          then Some text else None
      | _ => None
      end
  | _ => None
  end.

(** A tile that the two-byte and one-byte fields of the format can hold. *)
Definition fits (t : Writer.Tile) : Prop :=
  0 <= Writer.x t <= 65535 /\ 0 <= Writer.y t <= 65535
  /\ 0 <= Writer.z t <= 255 /\ 0 <= Writer.groundId t <= 65535
  /\ Forall (fun i => 0 <= i <= 65535) (Writer.items t).

End Decode.

(** ** The run of the planner as a whole *)

Module Pipeline.

(** The loop state after tiles [ts] are added, [transparent] of them for
    transparent pixels. *)
Definition emit (ts : list Writer.Tile) (transparent : Z) (p : App.Plan) : App.Plan :=
  App.mkPlan (Writer.set_tiles (Writer.tiles (App.writer p) ++ ts) (App.writer p))
             (App.tileCount p + Z.of_nat (List.length ts))
             (App.transparentTileCount p + transparent).

(** Whether a pixel gets a tile for being transparent. *)
Definition transparentPlaced (transparentTileId : Z) (px : option App.Pixel) : Z :=
  match px with
  | Some px => if (App.a px <? 128) && (0 <? transparentTileId) then 1 else 0
  | None => 0
  end.

(** The transparent tile id, the floor and the offsets that [_generateOTBM]
    works with. *)
Definition transparentId (app : App.PNGToOTBMApp) : Z :=
  JS.clamp 0 65535 (App.orElse (App.transparentTileId app) 0).

Definition floor (app : App.PNGToOTBMApp) : Z :=
  JS.clamp 0 15 (App.orElse (App.zLevel app) 7).

Definition offX (app : App.PNGToOTBMApp) : Z :=
  Z.max 0 (App.orElse (App.offsetX app) 0).

Definition offY (app : App.PNGToOTBMApp) : Z :=
  Z.max 0 (App.orElse (App.offsetY app) 0).

(** The tiles that a run places. *)
Definition tilesOf (app : App.PNGToOTBMApp) (img imgData : App.Image)
    : list Writer.Tile :=
  Planner.plan (App.data imgData) (App.width img) (App.height img)
    (App.colorMappings app) (transparentId app) (floor app) (offX app) (offY app).

(** The writer at the end of a run. *)
Definition writerOf (app : App.PNGToOTBMApp) (img imgData : App.Image)
    (client : ClientData.Client) (otb : ClientData.OtbVersion) : Writer.OTBMWriter :=
  Writer.mkWriter (App.width img + offX app) (App.height img + offY app)
    (App.mapDescription (ClientData.name client))
    (tilesOf app img imgData) []
    (ClientData.otbmVersion client) (ClientData.version otb) (ClientData.id otb).

(** Whether [_generateOTBM] asks for confirmation. *)
Definition warns (app : App.PNGToOTBMApp) : bool :=
  (0 <? Z.of_nat (List.length
          (filter (fun m => App.tileId m =? 0) (JS.values (App.colorMappings app)))))
  || ((0 <? App.transparentPixelCount app) && (transparentId app =? 0)).

(** The ground id of the tile of a pixel, as a list of none or one. *)
Definition groundOf (palette : list (string * App.Mapping)) (transparentTileId : Z)
    (px : App.Pixel) : list Z :=
  match Planner.groundFor palette transparentTileId px with
  | Some g => [g]
  | None => []
  end.

(** Whether a pixel gets a tile. *)
Definition getsTile (palette : list (string * App.Mapping)) (transparentTileId : Z)
    (px : App.Pixel) : bool :=
  match Planner.groundFor palette transparentTileId px with
  | Some _ => true
  | None => false
  end.

(** The palette entries that have a tile id. *)
Definition mapped (palette : list (string * App.Mapping)) : list App.Mapping :=
  filter (fun m => 0 <? App.tileId m) (JS.values palette).

(** The palette and the count of transparent pixels are those of the
    buffer [pixels]: one entry for each colour of the buffer, holding the
    number of its pixels. *)
Definition analysed (palette : list (string * App.Mapping)) (transparentCount : Z)
    (pixels : list App.Pixel) : Prop :=
  Permutation (JS.keys palette) (Palette.distinctColors pixels)
  /\ (forall k m, In (k, m) palette -> App.count m = Palette.occurrences k pixels)
  /\ transparentCount = Palette.transparentPixels pixels.

End Pipeline.

(** ** Editing the tile ids: the colour rows, the favourites, the files of
    mappings, the storage *)

Module Editing.

(** An entry of [this.favorites]. *)
Record Favorite := mkFavorite { id : string; name : string; tileId : Z }.

(** A number of a parsed JSON text: an integer, or a number that is not
    one, lying strictly between [below] and [below + 1]. *)
Inductive Number :=
| Integer (z : Z)
| Fraction (below : Z).

(** [Math.max(0, Math.min(65535, n))] *)
Definition clampNumber (n : Number) : Number :=
  match n with
  | Integer z => Integer (JS.clamp 0 65535 z)
  | Fraction below =>
      if below <? 0 then Integer 0
      else if 65535 <=? below then Integer 65535
      else Fraction below
  end.

(** [parseInt(String(n))], which is also what [parseInt(field.value)] reads
    after [field.value = n].  An integer below 10^21 in absolute value is
    written with all its digits, and read as it is; a fraction of absolute
    value above 1 is written with its integer part first, which is what is
    read.  From 10^21 on, and for the small fractions that are written with an
    exponent, [parseInt] reads the digits before the point or the exponent:
    [parseIntElsewhere] stands for that. *)
Definition parseIntOfNumber (parseIntElsewhere : Number -> Z) (n : Number) : Z :=
  match n with
  | Integer z =>
      if Z.abs z <? 10 ^ 21 then z else parseIntElsewhere n
  | Fraction below =>
      if 1 <=? below then below
      else if below <=? -2 then below + 1
      else parseIntElsewhere n
  end.

(** The settings object that [_saveSettings] stores and [_exportMappings]
    writes; [None] is a property that is not there. *)
Record Settings := mkSettings {
  s_clientVersion : option string;
  s_transparentTileId : option Number;
  s_zLevel : option Number;
  s_offsetX : option Number;
  s_offsetY : option Number
}.

(** An entry of the [colors] array of a file of mappings. *)
Record ColorData := mkColorData {
  c_hex : string;
  c_rgb : App.Rgb;
  c_tileId : option Number;
  c_count : Z
}.

(** A file of mappings, parsed: the files considered are those whose colour
    entries are objects with a string [hex] and a number (or nothing) as
    [tileId], and whose settings are numbers. *)
Record ExportData := mkExportData {
  version : Z;
  colors : option (list ColorData);
  settings : option Settings
}.

(** The application with its favourites and, parsed, the items
    [pngToOtbmFavorites] and [pngToOtbmSettings] of [localStorage]. *)
Record Session := mkSession {
  application : App.PNGToOTBMApp;
  favorites : list Favorite;
  storedFavorites : option (list Favorite);
  storedSettings : option Settings
}.

(** The messages that the handlers below write into the status line; they
    are returned beside the session, as [App.Status] has no place for them. *)
Inductive Notice :=
| Assigned (name : string) (tileId : Z)
| InvalidTileId
| AddedFavorite (name : string) (tileId : Z)
| DeletedFavorite (name : string)
| NoMappingsToExport
| Exported
| Imported (imported : Z)
| ImportFailed.

Definition set_application (a : App.PNGToOTBMApp) (s : Session) : Session :=
  mkSession a (favorites s) (storedFavorites s) (storedSettings s).

Definition set_favorites (f : list Favorite) (s : Session) : Session :=
  mkSession (application s) f (storedFavorites s) (storedSettings s).

Definition set_storedFavorites (f : option (list Favorite)) (s : Session) : Session :=
  mkSession (application s) (favorites s) f (storedSettings s).

Definition set_storedSettings (f : option Settings) (s : Session) : Session :=
  mkSession (application s) (favorites s) (storedFavorites s) f.

Definition set_storedColorMappings (stored : option (list (string * Z)))
    (app : App.PNGToOTBMApp) : App.PNGToOTBMApp :=
  App.mkApp (App.image app) (App.imageData app) (App.colorMappings app)
            (App.transparentPixelCount app) (App.filteredColors app)
            (App.generateBtn_disabled app) (App.status app) (App.clientVersion app)
            (App.transparentTileId app) (App.zLevel app) (App.offsetX app)
            (App.offsetY app) stored.

Definition set_clientVersion (v : string) (app : App.PNGToOTBMApp) : App.PNGToOTBMApp :=
  App.mkApp (App.image app) (App.imageData app) (App.colorMappings app)
            (App.transparentPixelCount app) (App.filteredColors app)
            (App.generateBtn_disabled app) (App.status app) v
            (App.transparentTileId app) (App.zLevel app) (App.offsetX app)
            (App.offsetY app) (App.storedColorMappings app).

Definition set_transparentTileId (v : option Z) (app : App.PNGToOTBMApp)
    : App.PNGToOTBMApp :=
  App.mkApp (App.image app) (App.imageData app) (App.colorMappings app)
            (App.transparentPixelCount app) (App.filteredColors app)
            (App.generateBtn_disabled app) (App.status app) (App.clientVersion app)
            v (App.zLevel app) (App.offsetX app)
            (App.offsetY app) (App.storedColorMappings app).

Definition set_zLevel (v : option Z) (app : App.PNGToOTBMApp) : App.PNGToOTBMApp :=
  App.mkApp (App.image app) (App.imageData app) (App.colorMappings app)
            (App.transparentPixelCount app) (App.filteredColors app)
            (App.generateBtn_disabled app) (App.status app) (App.clientVersion app)
            (App.transparentTileId app) v (App.offsetX app)
            (App.offsetY app) (App.storedColorMappings app).

Definition set_offsetX (v : option Z) (app : App.PNGToOTBMApp) : App.PNGToOTBMApp :=
  App.mkApp (App.image app) (App.imageData app) (App.colorMappings app)
            (App.transparentPixelCount app) (App.filteredColors app)
            (App.generateBtn_disabled app) (App.status app) (App.clientVersion app)
            (App.transparentTileId app) (App.zLevel app) v
            (App.offsetY app) (App.storedColorMappings app).

Definition set_offsetY (v : option Z) (app : App.PNGToOTBMApp) : App.PNGToOTBMApp :=
  App.mkApp (App.image app) (App.imageData app) (App.colorMappings app)
            (App.transparentPixelCount app) (App.filteredColors app)
            (App.generateBtn_disabled app) (App.status app) (App.clientVersion app)
            (App.transparentTileId app) (App.zLevel app) (App.offsetX app)
            v (App.storedColorMappings app).

(** [_saveColorMappings()]: the object of the tile ids above 0 goes to
    [localStorage].  [ok] is false when [setItem] throws, which the method
    catches. *)
Definition _saveColorMappings (ok : bool) (app : App.PNGToOTBMApp) : App.PNGToOTBMApp :=
  let mappings :=
    fold_left (fun mappings e =>
                 if 0 <? App.tileId (snd e)
                 then JS.set (fst e) (App.tileId (snd e)) mappings
                 else mappings)
              (App.colorMappings app) [] in
  if ok then set_storedColorMappings (Some mappings) app else app.

(** [_saveFavorites()] *)
Definition _saveFavorites (ok : bool) (s : Session) : Session :=
  if ok then set_storedFavorites (Some (favorites s)) s else s.

(** [_loadFavorites()], for stored favourites that parse *)
Definition _loadFavorites (s : Session) : Session :=
  match storedFavorites s with
  | Some f => set_favorites f s
  | None => s
  end.

(** The settings object of [_saveSettings] and [_exportMappings]. *)
Definition currentSettings (app : App.PNGToOTBMApp) : Settings :=
  mkSettings (Some (App.clientVersion app))
             (Some (Integer (App.orElse (App.transparentTileId app) 0)))
             (Some (Integer (App.orElse (App.zLevel app) 7)))
             (Some (Integer (App.orElse (App.offsetX app) 0)))
             (Some (Integer (App.orElse (App.offsetY app) 0))).

(** [_saveSettings()] *)
Definition _saveSettings (ok : bool) (s : Session) : Session :=
  if ok then set_storedSettings (Some (currentSettings (application s))) s else s.

(** [select.value = v]: a value that is none of the options leaves the list
    without a selection, and its value empty. *)
Definition selectValue (options : list string) (v : string) : string :=
  if existsb (String.eqb v) options then v else EmptyString.

(** [_loadSettings()], for stored settings that parse.  A number written
    into a field is read later by [parseInt(field.value)]. *)
Definition _loadSettings (parseIntElsewhere : Number -> Z) (s : Session) : Session :=
  match storedSettings s with
  | None => s
  | Some parsed =>
      let app := application s in
      let app :=
        match s_clientVersion parsed with
        | Some v =>
            if String.eqb v EmptyString then app
            else set_clientVersion
                   (selectValue (map ClientData.name ClientData.clients) v) app
        | None => app
        end in
      let app :=
        match s_transparentTileId parsed with
        | Some v =>
            let validatedId :=
              JS.clamp 0 65535
                (App.orElse (Some (parseIntOfNumber parseIntElsewhere v)) 0) in
            set_transparentTileId (Some validatedId) app
        | None => app
        end in
      let app :=
        match s_zLevel parsed with
        | Some v => set_zLevel (Some (parseIntOfNumber parseIntElsewhere v)) app
        | None => app
        end in
      let app :=
        match s_offsetX parsed with
        | Some v => set_offsetX (Some (parseIntOfNumber parseIntElsewhere v)) app
        | None => app
        end in
      let app :=
        match s_offsetY parsed with
        | Some v => set_offsetY (Some (parseIntOfNumber parseIntElsewhere v)) app
        | None => app
        end in
      set_application app s
  end.

(** The rows that [_buildColorList] shows. *)
Definition colorsToDisplay (app : App.PNGToOTBMApp) : list (string * App.Mapping) :=
  match App.filteredColors app with
  | Some f => f
  | None => App.colorMappings app
  end.

Definition withTileId (v : Z) (m : App.Mapping) : App.Mapping :=
  App.mkMapping (App.hex m) (App.rgb m) v (App.count m).

(** [mapping.tileId = v] on the mapping stored under [hex].  The mapping
    object of a row is the one stored under [hex] in [colorMappings], and in
    [filteredColors] when a filter is set: both see the assignment. *)
Definition assign (hex : string) (v : Z) (app : App.PNGToOTBMApp) : App.PNGToOTBMApp :=
  App.set_filteredColors
    (option_map (JS.update hex (withTileId v)) (App.filteredColors app))
    (App.set_colorMappings (JS.update hex (withTileId v) (App.colorMappings app)) app).

(** The [change] handler of the input of the row of [hex]; [value] is
    [parseInt(e.target.value)]. *)
Definition onChange (ok : bool) (hex : string) (value : option Z) (s : Session)
    : Session * option Notice :=
  let value := App.orElse value 0 in
  (set_application
     (_saveColorMappings ok (assign hex (JS.clamp 0 65535 value) (application s))) s,
   None).

(** The [input] handler of the same input; the save it schedules is
    [onInputTimer]. *)
Definition onInput (hex : string) (value : option Z) (s : Session)
    : Session * option Notice :=
  match value with
  | Some value =>
      (set_application (assign hex (JS.clamp 0 65535 value) (application s)) s, None)
  | None => (s, None)
  end.

Definition onInputTimer (ok : bool) (s : Session) : Session * option Notice :=
  (set_application (_saveColorMappings ok (application s)) s, None).

(** The [drop] handler of the row of [hex]; [favoriteId] is what the drag
    carries under ['favorite/id']. *)
Definition onDrop (ok : bool) (hex : string) (favoriteId : string) (s : Session)
    : Session * option Notice :=
  if String.eqb favoriteId EmptyString then (s, None)
  else
    match find (fun f => String.eqb (id f) favoriteId) (favorites s) with
    | Some favorite =>
        (set_application
           (_saveColorMappings ok (assign hex (tileId favorite) (application s))) s,
         Some (Assigned (name favorite) (tileId favorite)))
    | None => (s, None)
    end.

Section Dialogs.
(** [String.prototype.trim] *)
Variable trim : string -> string.

(** [_showAddFavoriteDialog()]: [name] and [idStr] are the answers to the
    two prompts ([None] for a cancelled prompt; of [idStr], whether it is
    empty and what [parseInt] reads in it), [newId] the identifier made from
    the clock and [Math.random]. *)
Definition _showAddFavoriteDialog (name : option string)
    (idStr : option (bool * option Z)) (newId : string) (ok : bool) (s : Session)
    : Session * option Notice :=
  match name with
  | None => (s, None)
  | Some name =>
      if String.eqb name EmptyString || String.eqb (trim name) EmptyString
      then (s, None)
      else
        match idStr with
        | None => (s, None)
        | Some (true, _) => (s, None)
        | Some (false, None) => (s, Some InvalidTileId)
        | Some (false, Some tileId) =>
            if (tileId <? 0) || (65535 <? tileId)
            then (s, Some InvalidTileId)
            else
              let favorite := mkFavorite newId (trim name) tileId in
              (_saveFavorites ok (set_favorites (favorites s ++ [favorite]) s),
               Some (AddedFavorite name tileId))
        end
  end.
End Dialogs.

(** The [click] handler of the delete button of [favorite]; [confirmed] is
    the answer to the [confirm] dialog. *)
Definition onDeleteFavorite (ok : bool) (favorite : Favorite) (confirmed : bool)
    (s : Session) : Session * option Notice :=
  if confirmed
  then (_saveFavorites ok
          (set_favorites
             (filter (fun f => negb (String.eqb (id f) (id favorite))) (favorites s)) s),
        Some (DeletedFavorite (name favorite)))
  else (s, None).

(** [_exportMappings()]: the object that is written to the file, if any. *)
Definition _exportMappings (app : App.PNGToOTBMApp) : option ExportData * Notice :=
  if App.size (App.colorMappings app) =? 0
  then (None, NoMappingsToExport)
  else
    (Some (mkExportData 1
             (Some (map (fun e => mkColorData (fst e) (App.rgb (snd e))
                                    (Some (Integer (App.tileId (snd e))))
                                    (App.count (snd e)))
                        (App.colorMappings app)))
             (Some (currentSettings app))),
     Exported).

(** The body of the loop over [importData.colors].  The id is cut to the
    range from 0 to 65535 and stored as it is, not rounded: a fraction inside
    the range would be the tile id of the mapping, which [App.Mapping] cannot
    hold; the result is [None] there. *)
Definition importColor (st : App.PNGToOTBMApp * Z) (colorData : ColorData)
    : option (App.PNGToOTBMApp * Z) :=
  let (app, imported) := st in
  if JS.has (c_hex colorData) (App.colorMappings app)
  then
    let tileId := match c_tileId colorData with Some t => t | None => Integer 0 end in
    match clampNumber tileId with
    | Integer v => Some (assign (c_hex colorData) v app, imported + 1)
    | Fraction _ => None
    end
  else Some (app, imported).

(** The loop over [importData.colors]. *)
Definition importColors (cs : list ColorData) (st : App.PNGToOTBMApp * Z)
    : option (App.PNGToOTBMApp * Z) :=
  fold_left (fun acc colorData =>
               match acc with
               | Some st => importColor st colorData
               | None => None
               end)
            cs (Some st).

(** The settings part of [_importMappings]. *)
Definition importSettings (parseIntElsewhere : Number -> Z) (ok : bool) (st : Settings)
    (s : Session) : Session :=
  let app := application s in
  let app :=
    match s_clientVersion st with
    | Some v =>
        if String.eqb v EmptyString then app
        else
          match find (fun c => String.eqb (ClientData.name c) v) ClientData.clients with
          | Some validClient => set_clientVersion v app
          | None => app
          end
    | None => app
    end in
  let app :=
    match s_transparentTileId st with
    | Some v =>
        let validatedId :=
          JS.clamp 0 65535
            (App.orElse (Some (parseIntOfNumber parseIntElsewhere v)) 0) in
        set_transparentTileId (Some validatedId) app
    | None => app
    end in
  let app :=
    match s_zLevel st with
    | Some v => set_zLevel (Some (parseIntOfNumber parseIntElsewhere v)) app
    | None => app
    end in
  let app :=
    match s_offsetX st with
    | Some v => set_offsetX (Some (parseIntOfNumber parseIntElsewhere v)) app
    | None => app
    end in
  let app :=
    match s_offsetY st with
    | Some v => set_offsetY (Some (parseIntOfNumber parseIntElsewhere v)) app
    | None => app
    end in
  _saveSettings ok (set_application app s).

(** [_importMappings()], from the moment the file is read: [importData] is
    the parsed text ([None] when it does not parse); [okSettings] and
    [okMappings] tell whether the two writes to [localStorage] succeed.  The
    result is [None] when a fraction becomes a tile id (see [importColor]). *)
Definition _importMappings (parseIntElsewhere : Number -> Z)
    (okSettings okMappings : bool) (importData : option ExportData) (s : Session)
    : option (Session * option Notice) :=
  match importData with
  | None => Some (s, Some ImportFailed)
  | Some importData =>
      match colors importData with
      | None => Some (s, Some ImportFailed)
      | Some cs =>
          match importColors cs (application s, 0) with
          | None => None
          | Some (app, imported) =>
              let s := set_application app s in
              let s :=
                match settings importData with
                | Some st => importSettings parseIntElsewhere okSettings st s
                | None => s
                end in
              Some (set_application (_saveColorMappings okMappings (application s)) s,
                    Some (Imported imported))
          end
      end
  end.

(** What can happen to a session.  An event of a row takes place only when
    the row is shown, one of a favourite only when it is listed, a click on
    the generate button only when the button is enabled. *)
Inductive Event :=
| Change (ok : bool) (hex : string) (value : option Z)
| Input (hex : string) (value : option Z)
| InputTimer (ok : bool)
| Drop (ok : bool) (hex : string) (favoriteId : string)
| AddFavorite (name : option string) (idStr : option (bool * option Z))
              (newId : string) (ok : bool)
| DeleteFavorite (ok : bool) (favorite : Favorite) (confirmed : bool)
| LoadFavorites
| SaveSettings (ok : bool)
| LoadSettings
| Import (okSettings okMappings : bool) (importData : option ExportData)
| LoadImage (img : App.Image)
| Generate (proceed : bool).

Definition shown (hex : string) (s : Session) : bool :=
  JS.has hex (colorsToDisplay (application s)).

(** The session after an event; [None] when an import makes a fraction a
    tile id. *)
Definition handle (trim : string -> string) (parseIntElsewhere : Number -> Z)
    (e : Event) (s : Session) : option Session :=
  match e with
  | Change ok hex value =>
      Some (if shown hex s then fst (onChange ok hex value s) else s)
  | Input hex value => Some (if shown hex s then fst (onInput hex value s) else s)
  | InputTimer ok => Some (fst (onInputTimer ok s))
  | Drop ok hex favoriteId =>
      Some (if shown hex s then fst (onDrop ok hex favoriteId s) else s)
  | AddFavorite name idStr newId ok =>
      Some (fst (_showAddFavoriteDialog trim name idStr newId ok s))
  | DeleteFavorite ok favorite confirmed =>
      Some (if existsb (fun f => String.eqb (id f) (id favorite)) (favorites s)
            then fst (onDeleteFavorite ok favorite confirmed s) else s)
  | LoadFavorites => Some (_loadFavorites s)
  | SaveSettings ok => Some (_saveSettings ok s)
  | LoadSettings => Some (_loadSettings parseIntElsewhere s)
  | Import okSettings okMappings importData =>
      option_map fst (_importMappings parseIntElsewhere okSettings okMappings importData s)
  | LoadImage img => Some (set_application (App._loadImage img (application s)) s)
  | Generate proceed =>
      Some (if App.generateBtn_disabled (application s) then s
            else set_application (snd (App._generateOTBM proceed (application s))) s)
  end.

Definition run (trim : string -> string) (parseIntElsewhere : Number -> Z)
    (events : list Event) (s : Session) : option Session :=
  fold_left (fun acc e =>
               match acc with
               | Some s => handle trim parseIntElsewhere e s
               | None => None
               end)
            events (Some s).

(** The tile ids of a file of mappings are integers. *)
Definition wholeIds (importData : ExportData) : Prop :=
  match colors importData with
  | Some cs =>
      Forall (fun colorData =>
                match c_tileId colorData with
                | Some (Fraction _) => False
                | _ => True
                end) cs
  | None => True
  end.

(** The files that the events import have integers as tile ids. *)
Definition importsWholeIds (e : Event) : Prop :=
  match e with
  | Import _ _ (Some importData) => wholeIds importData
  | _ => True
  end.

(** A number that is written with all its digits. *)
Definition plain (v : Z) : Prop := Z.abs v < 10 ^ 21.

(** The numbers of the settings of the application are written with all
    their digits. *)
Definition plainSettings (app : App.PNGToOTBMApp) : Prop :=
  plain (App.orElse (App.transparentTileId app) 0)
  /\ plain (App.orElse (App.zLevel app) 7)
  /\ plain (App.orElse (App.offsetX app) 0)
  /\ plain (App.orElse (App.offsetY app) 0).

(** A tile id that the file can hold. *)
Definition idOk (v : Z) : Prop := 0 <= v <= 65535.

(** Every tile id that the application holds is one that the file can hold:
    those of the palette, of the filtered list and of the stored mappings. *)
Definition appIdsOk (app : App.PNGToOTBMApp) : Prop :=
  Forall (fun m => idOk (App.tileId m)) (JS.values (App.colorMappings app))
  /\ Forall (fun m => idOk (App.tileId m))
            (JS.values (match App.filteredColors app with
                        | Some f => f
                        | None => []
                        end))
  /\ Forall idOk (JS.values (match App.storedColorMappings app with
                             | Some stored => stored
                             | None => []
                             end)).

(** The same of a session, with the favourites and the stored favourites. *)
Definition idsOk (s : Session) : Prop :=
  appIdsOk (application s)
  /\ Forall (fun f => idOk (tileId f)) (favorites s)
  /\ Forall (fun f => idOk (tileId f))
            (match storedFavorites s with Some f => f | None => [] end).

End Editing.

(** ** The client table *)

Module Clients.

(** [getDefaultClient()] *)
Definition getDefaultClient : string :=
  match find (fun c => Bool.eqb (ClientData.default c) true) ClientData.clients with
  | Some defaultClient => ClientData.name defaultClient
  | None => ClientData.name (last ClientData.clients
                               (ClientData.mkClient EmptyString EmptyString 0 false))
  end.

(** The values of the options that [_populateClientVersions] puts into the
    client list. *)
Definition options : list string := map ClientData.name ClientData.clients.

End Clients.

(** ** More sample data *)

Module Samples.

(** The image [Examples.small] loaded, its two colours mapped to tiles 200
    and 100, transparent pixels to tile 50, to be placed at (10, 20). *)
Definition mapped : App.PNGToOTBMApp :=
  App.mkApp (Some Examples.small) (Some Examples.small)
            [("#00ff00"%string, App.mkMapping "#00ff00" (App.mkRgb 0 255 0) 200 2);
             ("#ff0000"%string, App.mkMapping "#ff0000" (App.mkRgb 255 0 0) 100 1)]
            1 None false App.StatusLoaded "8.00"
            (Some 50) (Some 7) (Some 10) (Some 20) None.

Definition client800 : ClientData.Client := ClientData.mkClient "8.00" "8.00" 2 true.

Definition otb800 : ClientData.OtbVersion := ClientData.mkOtb 2 7.

Definition threeTilesWriter : Writer.OTBMWriter :=
  Writer.set_tiles Examples.threeTiles (Writer.new 512 16 "three tiles" 2 2 7).

Definition fresh : Editing.Session := Editing.mkSession Examples.blank [] None None.

(** A session: an image is loaded, an id beyond the range is typed into
    the row of red, a favourite is added and dropped on the row of green,
    and the file is generated. *)
Definition events : list Editing.Event :=
  [Editing.LoadImage Examples.small;
   Editing.Change true "#ff0000" (Some 70000);
   Editing.AddFavorite (Some "grass"%string) (Some (false, Some 4526)) "f1" true;
   Editing.Drop true "#00ff00" "f1";
   Editing.Import true true (fst (Editing._exportMappings mapped));
   Editing.Generate true].

(** The image mapped, with 0 in the floor field, and with -3 in it. *)
Definition mappedAtZero : App.PNGToOTBMApp := Editing.set_zLevel (Some 0) mapped.

Definition mappedBelow : App.PNGToOTBMApp := Editing.set_zLevel (Some (-3)) mapped.

(** [parseInt] of the numbers written with an exponent is of no account in
    the sample runs. *)
Definition noExponent (n : Editing.Number) : Z := 1.

(** The same image loaded afresh, with no tile id yet. *)
Definition loaded : App.PNGToOTBMApp := App._loadImage Examples.small Examples.blank.

Definition unmapped : Editing.Session := Editing.mkSession loaded [] None None.

End Samples.

(** ** Properties of the byte stream *)

Section ByteStream.

Lemma band_byte v : JS.band v 0xFF = v mod 256.
Proof.
  unfold JS.band. change (JS.toInt32 0xFF) with (Z.ones 8).
  rewrite Z.land_ones by lia. unfold JS.toInt32.
  change (2 ^ 8) with 256. change (2 ^ 31) with 2147483648. change (2 ^ 32) with 4294967296.
  Z.div_mod_to_equations. lia.
Qed.

Lemma band_sar_byte v n : n = 8 \/ n = 16 \/ n = 24 ->
  JS.band (JS.sar v n) 0xFF = (v / 2 ^ n) mod 256.
Proof.
  intros Hn. rewrite band_byte. unfold JS.sar.
  assert (n mod 32 = n) as -> by (destruct Hn as [->|[->| ->]]; reflexivity).
  rewrite Z.shiftr_div_pow2 by lia. unfold JS.toInt32.
  destruct Hn as [->|[->| ->]];
  change (2 ^ 8) with 256; change (2 ^ 16) with 65536; change (2 ^ 24) with 16777216;
  change (2 ^ 31) with 2147483648; change (2 ^ 32) with 4294967296;
  Z.div_mod_to_equations; lia.
Qed.

Import Writer Format.

Lemma byte_byte v : byte (byte v) = byte v.
Proof. unfold byte. apply Z.mod_mod. lia. Qed.

Lemma byte_range v : 0 <= byte v < 256.
Proof. unfold byte. apply Z.mod_pos_bound. lia. Qed.

Lemma byte_id v : 0 <= v < 256 -> byte v = v.
Proof. intros. unfold byte. apply Z.mod_small. lia. Qed.

(** *** The writer only appends *)

Lemma push_nil w : push [] w = w.
Proof. destruct w. unfold push, set_buffer. simpl. rewrite app_nil_r. reflexivity. Qed.

Lemma push_push a b w : push b (push a w) = push (a ++ b) w.
Proof. unfold push, set_buffer. simpl. rewrite app_assoc. reflexivity. Qed.

Lemma andThen_push (f g : M) a b w :
  f w = push a w -> (forall w', g w' = push b w') -> (f ;; g) w = push (a ++ b) w.
Proof. intros Hf Hg. unfold andThen. rewrite Hf, Hg. apply push_push. Qed.

Lemma forOf_push {A : Type} (body : A -> M) (enc : A -> list Z) (l : list A) :
  (forall a w, body a w = push (enc a) w) ->
  forall w, forOf l body w = push (flat_map enc l) w.
Proof.
  intros Hbody. unfold forOf. induction l as [|a l IH]; intros w; simpl.
  - symmetry. apply push_nil.
  - rewrite IH, Hbody. apply push_push.
Qed.

Lemma writeByte_push v w : _writeByte v w = push [byte v] w.
Proof. unfold _writeByte. rewrite band_byte. reflexivity. Qed.

Lemma writeEscapedByte_push v w : _writeEscapedByte v w = push (escape1 (byte v)) w.
Proof.
  unfold _writeEscapedByte, andThen, escape1, special. rewrite band_byte.
  fold (byte v). change NODE_START with 0xFE. change NODE_END with 0xFF.
  change ESCAPE with 0xFD.
  destruct ((byte v =? 0xFE) || (byte v =? 0xFF) || (byte v =? 0xFD)).
  - apply push_push.
  - reflexivity.
Qed.

Lemma escape_app a b : escape (a ++ b) = escape a ++ escape b.
Proof. unfold escape. apply flat_map_app. Qed.

Lemma writeEscapedBytes_push bs w :
  _writeEscapedBytes bs w = push (escape (map byte bs)) w.
Proof.
  unfold _writeEscapedBytes. rewrite (forOf_push _ (fun b => escape1 (byte b))).
  - f_equal. unfold escape. induction bs as [|b bs IH]; simpl; congruence.
  - intros. apply writeEscapedByte_push.
Qed.

Lemma writeU16_push v w : _writeU16 v w = push (escape (le 2 v)) w.
Proof.
  unfold _writeU16, andThen. rewrite !writeEscapedByte_push, push_push.
  rewrite band_byte, (band_sar_byte v 8) by auto. fold (byte v).
  fold (byte (v / 2 ^ 8)). rewrite !byte_byte. simpl. rewrite app_nil_r. reflexivity.
Qed.

Lemma le4_unfold v :
  le 4 v = [byte v; byte (v / 2 ^ 8); byte (v / 2 ^ 16); byte (v / 2 ^ 24)].
Proof.
  simpl. unfold byte. rewrite !Z.div_div by lia. reflexivity.
Qed.

Lemma writeU32_push v w : _writeU32 v w = push (escape (le 4 v)) w.
Proof.
  unfold _writeU32, andThen. rewrite !writeEscapedByte_push, !push_push.
  rewrite band_byte, (band_sar_byte v 8), (band_sar_byte v 16), (band_sar_byte v 24) by auto.
  rewrite le4_unfold. fold (byte v) (byte (v / 2 ^ 8)) (byte (v / 2 ^ 16)) (byte (v / 2 ^ 24)).
  rewrite !byte_byte. unfold escape. simpl. rewrite app_nil_r, <- ?app_assoc. reflexivity.
Qed.

Lemma encode_bytes s : map byte (JS.encode s) = JS.encode s.
Proof.
  unfold JS.encode. rewrite map_map. apply map_ext. intros c.
  apply byte_id. pose proof (N_ascii_bounded c). lia.
Qed.

Lemma writeString_push s w : _writeString s w = push (lpstring s) w.
Proof.
  unfold _writeString, andThen, lpstring.
  rewrite writeU16_push, writeEscapedBytes_push, push_push, encode_bytes. reflexivity.
Qed.

Lemma startNode_push t w : _startNode t w = push [0xFE; byte t] w.
Proof. unfold _startNode, andThen. rewrite writeByte_push. apply push_push. Qed.

Lemma endNode_push w : _endNode w = push [0xFF] w.
Proof. reflexivity. Qed.

Lemma escape_two a b : escape [a; b] = escape1 a ++ escape1 b.
Proof. unfold escape. simpl. rewrite app_nil_r. reflexivity. Qed.

Lemma escape_one a : escape [a] = escape1 a.
Proof. unfold escape. simpl. apply app_nil_r. Qed.

Ltac same_bytes :=
  try (f_equal; []);
  repeat first [ rewrite escape_two | rewrite escape_one
               | rewrite <- app_assoc | progress cbn [app] ];
  reflexivity.

Lemma writeItem_push itemId w :
  (_startNode OTBM_ITEM ;; _writeU16 itemId ;; _endNode) w = push (item itemId) w.
Proof.
  unfold andThen. unfold _endNode. rewrite startNode_push, writeU16_push, !push_push.
  unfold item, node. same_bytes.
Qed.

Lemma writeTile_push t baseX baseY w :
  _writeTile t baseX baseY w = push (tile baseX baseY t) w.
Proof.
  unfold _writeTile, andThen.
  rewrite startNode_push, !writeEscapedByte_push, writeByte_push, writeU16_push.
  rewrite (forOf_push _ item) by (intros; apply writeItem_push).
  unfold _endNode. rewrite !push_push. unfold tile, node. same_bytes.
Qed.

Lemma writeTileArea_push baseX baseY z ts w :
  _writeTileArea baseX baseY z ts w = push (tileArea (mkArea baseX baseY z ts)) w.
Proof.
  unfold _writeTileArea, andThen.
  rewrite startNode_push, !writeU16_push, writeEscapedByte_push.
  rewrite (forOf_push _ (tile baseX baseY)) by (intros; apply writeTile_push).
  unfold _endNode. rewrite !push_push. unfold tileArea, node. same_bytes.
Qed.

Lemma writeRootHeader_push w : _writeRootHeader w = push (rootHeader w) w.
Proof.
  unfold _writeRootHeader, andThen.
  rewrite !writeU32_push, !writeU16_push, !push_push. unfold rootHeader. same_bytes.
Qed.

Lemma writeMapData_push w : _writeMapData w = push (mapData w) w.
Proof.
  unfold _writeMapData, andThen.
  rewrite startNode_push, writeByte_push, writeString_push.
  rewrite (forOf_push _ tileArea)
    by (intros [ax ay az ats] w'; apply writeTileArea_push).
  unfold _endNode. rewrite startNode_push.
  assert (Hway : forall w',
    (if 2 <=? otbmVersion w then _startNode OTBM_WAYPOINTS ;; push [NODE_END] else fun w0 => w0) w'
    = push (if 2 <=? otbmVersion w then node 15 [] else []) w').
  { intros w'. destruct (2 <=? otbmVersion w).
    - unfold andThen. rewrite startNode_push. apply push_push.
    - symmetry. apply push_nil. }
  rewrite Hway, !push_push. unfold mapData, node. same_bytes.
Qed.

(** The buffer after [generate] is the document of the layout. *)
Lemma generate_buffer w : buffer (snd (generate w)) = document w.
Proof.
  unfold generate, andThen. simpl snd.
  unfold _endNode. rewrite startNode_push, writeRootHeader_push, writeMapData_push.
  rewrite !push_push. unfold push, set_buffer. cbn [buffer].
  unfold document, node, magic. same_bytes.
Qed.

(** *** Every written value is a byte *)

Lemma bytes_app a b : bytes a -> bytes b -> bytes (a ++ b).
Proof. intros. apply Forall_app. split; assumption. Qed.

Lemma bytes_flat_map {A : Type} (f : A -> list Z) l :
  (forall a, bytes (f a)) -> bytes (flat_map f l).
Proof.
  intros Hf. induction l as [|a l IH]; simpl.
  - constructor.
  - apply bytes_app; auto.
Qed.

Lemma bytes_escape1 b : 0 <= b < 256 -> bytes (escape1 b).
Proof. intros Hb. unfold escape1. destruct (special b); repeat constructor; lia. Qed.

Lemma bytes_escape data : bytes data -> bytes (escape data).
Proof.
  unfold escape. induction 1 as [|b l Hb _ IH]; simpl.
  - constructor.
  - apply bytes_app; [|exact IH]. apply bytes_escape1, Hb.
Qed.

Lemma bytes_le n v : bytes (le n v).
Proof.
  revert v. induction n as [|n IH]; intros v; simpl; constructor.
  - apply Z.mod_pos_bound. lia.
  - apply IH.
Qed.

Lemma bytes_encode s : bytes (JS.encode s).
Proof.
  unfold JS.encode, bytes. apply Forall_map, Forall_forall. intros c _.
  pose proof (N_ascii_bounded c). lia.
Qed.

Lemma bytes_node t body : 0 <= t < 256 -> bytes body -> bytes (node t body).
Proof.
  intros Ht Hb. unfold node. repeat constructor; try lia.
  apply bytes_app; [exact Hb|]. repeat constructor; lia.
Qed.

Lemma bytes_cons b l : 0 <= b < 256 -> bytes l -> bytes (b :: l).
Proof. intros. constructor; assumption. Qed.

Lemma bytes_nil : bytes [].
Proof. constructor. Qed.

Create HintDb otbm_bytes.
#[local] Hint Resolve bytes_app bytes_flat_map bytes_escape bytes_escape1 bytes_le bytes_encode
  bytes_node bytes_cons bytes_nil byte_range : otbm_bytes.
#[local] Hint Extern 1 (_ <= _ < _) => first [apply byte_range | apply Z.mod_pos_bound; lia | lia] : otbm_bytes.

Lemma bytes_item i : bytes (item i).
Proof. unfold item. auto with otbm_bytes. Qed.

Lemma bytes_tile bx by_ t : bytes (tile bx by_ t).
Proof.
  unfold tile. apply bytes_node; [lia|].
  repeat apply bytes_app; auto 6 using bytes_item with otbm_bytes.
Qed.

Lemma bytes_tileArea a : bytes (tileArea a).
Proof.
  unfold tileArea. apply bytes_node; [lia|].
  repeat apply bytes_app; auto 6 using bytes_tile with otbm_bytes.
Qed.

Lemma bytes_mapData w : bytes (mapData w).
Proof.
  unfold mapData, lpstring. apply bytes_node; [lia|].
  repeat apply bytes_app; auto 6 using bytes_tileArea with otbm_bytes.
  destruct (2 <=? otbmVersion w); auto with otbm_bytes.
Qed.

Lemma bytes_document w : bytes (document w).
Proof.
  unfold document, magic, rootHeader. apply bytes_app.
  - repeat apply bytes_cons; auto with otbm_bytes.
  - apply bytes_node; [lia|].
    auto 12 using bytes_mapData with otbm_bytes.
Qed.

Lemma Uint8Array_bytes l : bytes l -> JS.Uint8Array l = l.
Proof.
  unfold JS.Uint8Array. induction 1 as [|b l Hb _ IH]; simpl.
  - reflexivity.
  - rewrite IH, Z.mod_small by lia. reflexivity.
Qed.

(** [generate] returns the document of the layout. *)
Lemma generate_document w : fst (generate w) = document w.
Proof.
  pose proof (generate_buffer w) as Hb. unfold generate in *. cbn [fst snd] in *.
  rewrite Hb. apply Uint8Array_bytes, bytes_document.
Qed.

Lemma le_value_le n v : le_value (le n v) = v mod 256 ^ Z.of_nat n.
Proof.
  revert v. induction n as [|n IH]; intros v.
  - simpl. rewrite Z.mod_1_r. reflexivity.
  - cbn [le le_value]. rewrite IH, Nat2Z.inj_succ, Z.pow_succ_r by lia.
    rewrite Z.rem_mul_r by lia. reflexivity.
Qed.

Lemma special_false b :
  special b = false -> (b =? 0xFE) = false /\ (b =? 0xFF) = false /\ (b =? 0xFD) = false.
Proof.
  unfold special. intros H. apply orb_false_elim in H as [H H3].
  apply orb_false_elim in H as [H1 H2]. auto.
Qed.

Lemma unescape_escape data : unescape (escape data) = data.
Proof.
  unfold escape, escape1. induction data as [|b data IH]; [reflexivity|].
  cbn [flat_map]. destruct (special b) eqn:Hs; cbn [app unescape].
  - change (0xFD =? 0xFD) with true. cbv iota. rewrite IH. reflexivity.
  - apply special_false in Hs as (_ & _ & Hs). rewrite Hs, IH. reflexivity.
Qed.

(** *** Nesting of the document *)

Lemma Nested_app a b : Nested a -> Nested b -> Nested (a ++ b).
Proof.
  induction 1 as [|c s Hc Hs IH|c s Hs IH|body s Hb IHb Hs IHs]; intros Hb'; cbn [app].
  - exact Hb'.
  - apply Nested_plain; auto.
  - apply Nested_pair; auto.
  - rewrite <- app_assoc. cbn [app]. apply Nested_node; auto.
Qed.

Lemma Nested_escape data : Nested (escape data).
Proof.
  unfold escape. induction data as [|b data IH]; cbn [flat_map].
  - constructor.
  - unfold escape1 at 1. destruct (special b) eqn:Hs; cbn [app].
    + apply Nested_pair, IH.
    + apply Nested_plain; assumption.
Qed.

Lemma Nested_node_of t body : special t = false -> Nested body -> Nested (node t body).
Proof.
  intros Ht Hb. unfold node. cbn [app].
  change (0xFE :: t :: body ++ [0xFF]) with (0xFE :: (t :: body) ++ 0xFF :: []).
  apply Nested_node; [apply Nested_plain; assumption | constructor].
Qed.

Lemma Nested_flat_map {A : Type} (f : A -> list Z) l :
  (forall a, Nested (f a)) -> Nested (flat_map f l).
Proof.
  intros Hf. induction l as [|a l IH]; cbn [flat_map].
  - constructor.
  - apply Nested_app; auto.
Qed.

Lemma Nested_item i : Nested (item i).
Proof. unfold item. apply Nested_node_of; [reflexivity | apply Nested_escape]. Qed.

Lemma Nested_tile bx by_ t : Nested (tile bx by_ t).
Proof.
  unfold tile. apply Nested_node_of; [reflexivity|].
  apply Nested_app; [apply Nested_escape|].
  apply Nested_app; [apply Nested_plain; [reflexivity | constructor]|].
  apply Nested_app; [apply Nested_escape|].
  apply Nested_flat_map, Nested_item.
Qed.

Lemma Nested_tileArea a : Nested (tileArea a).
Proof.
  unfold tileArea. apply Nested_node_of; [reflexivity|].
  repeat (apply Nested_app; [apply Nested_escape|]).
  apply Nested_flat_map, Nested_tile.
Qed.

Lemma Nested_mapData w : Nested (mapData w).
Proof.
  unfold mapData, lpstring. apply Nested_node_of; [reflexivity|].
  apply Nested_app; [apply Nested_plain; [reflexivity | constructor]|].
  apply Nested_app; [apply Nested_app; apply Nested_escape|].
  apply Nested_app; [apply Nested_flat_map, Nested_tileArea|].
  apply Nested_app; [apply Nested_node_of; [reflexivity | constructor]|].
  destruct (2 <=? otbmVersion w).
  - apply Nested_node_of; [reflexivity | constructor].
  - constructor.
Qed.

Lemma Nested_document w : Nested (document w).
Proof.
  unfold document, magic, rootHeader. cbn [app].
  repeat (apply Nested_plain; [reflexivity|]).
  apply Nested_node_of; [reflexivity|].
  apply Nested_app; [|apply Nested_mapData].
  repeat (apply Nested_app; [apply Nested_escape|]). apply Nested_escape.
Qed.

Lemma count_plain m b s :
  (b =? 0xFD) = false ->
  countUnescaped m (b :: s)
  = if b =? m then S (countUnescaped m s) else countUnescaped m s.
Proof. intros Hb. cbn [countUnescaped]. rewrite Hb. reflexivity. Qed.

Lemma count_pair m b s : countUnescaped m (0xFD :: b :: s) = countUnescaped m s.
Proof. reflexivity. Qed.

Lemma Nested_count_app m s :
  Nested s -> forall rest,
  countUnescaped m (s ++ rest) = (countUnescaped m s + countUnescaped m rest)%nat.
Proof.
  induction 1 as [|c s Hc Hs IH|c s Hs IH|body s Hb IHb Hs IHs]; intros rest.
  - reflexivity.
  - apply special_false in Hc as (_ & _ & Hc). cbn [app].
    rewrite !count_plain, IH by assumption. destruct (c =? m); reflexivity.
  - cbn [app]. rewrite !count_pair. apply IH.
  - cbn [app]. rewrite <- app_assoc. cbn [app].
    rewrite !(count_plain m 0xFE), !IHb, !(count_plain m 0xFF), IHs by reflexivity.
    destruct (0xFE =? m), (0xFF =? m); lia.
Qed.

Lemma Nested_balanced s :
  Nested s -> countUnescaped 0xFE s = countUnescaped 0xFF s.
Proof.
  induction 1 as [|c s Hc Hs IH|c s Hs IH|body s Hb IHb Hs IHs].
  - reflexivity.
  - apply special_false in Hc as (H1 & H2 & H3).
    rewrite !count_plain, H1, H2 by assumption. exact IH.
  - rewrite !count_pair. exact IH.
  - rewrite !(count_plain _ 0xFE), !Nested_count_app, !(count_plain _ 0xFF)
      by (assumption || reflexivity).
    change (0xFE =? 0xFE) with true. change (0xFE =? 0xFF) with false.
    change (0xFF =? 0xFE) with false. change (0xFF =? 0xFF) with true.
    cbv iota. lia.
Qed.

Lemma Nested_prefix s :
  Nested s -> forall n,
  (countUnescaped 0xFF (firstn n s) <= countUnescaped 0xFE (firstn n s))%nat.
Proof.
  induction 1 as [|c s Hc Hs IH|c s Hs IH|body s Hb IHb Hs IHs]; intros n.
  - rewrite firstn_nil. apply Nat.le_refl.
  - destruct n as [|n]; [apply Nat.le_refl|]. cbn [firstn].
    apply special_false in Hc as (H1 & H2 & H3).
    rewrite !count_plain, H1, H2 by assumption. apply IH.
  - destruct n as [|[|n]]; [apply Nat.le_refl | apply Nat.le_refl |].
    cbn [firstn]. rewrite !count_pair. apply IH.
  - destruct n as [|n]; [apply Nat.le_refl|]. cbn [firstn].
    rewrite !(count_plain _ 0xFE) by reflexivity.
    change (0xFE =? 0xFF) with false. change (0xFE =? 0xFE) with true. cbv iota.
    rewrite firstn_app.
    destruct (Nat.le_gt_cases n (List.length body)) as [Hn|Hn].
    + replace (n - List.length body)%nat with 0%nat by lia.
      cbn [firstn]. rewrite app_nil_r. specialize (IHb n). lia.
    + rewrite firstn_all2 by lia.
      destruct (n - List.length body)%nat as [|k] eqn:Hk; [lia|].
      cbn [firstn]. rewrite !Nested_count_app, !(count_plain _ 0xFF) by (assumption || reflexivity).
      change (0xFF =? 0xFF) with true. change (0xFF =? 0xFE) with false. cbv iota.
      pose proof (Nested_balanced body Hb). specialize (IHs k). lia.
Qed.

(** *** The stream that [generate] returns *)

(** C1. Whatever the writer holds, the generated bytes are the four bare
    magic bytes 'O','T','B','M', then the start marker and type 1 of the
    root node, then the escaped little-endian encodings of otbmVersion (four
    bytes), width and height (two bytes each), otbMajorVersion and
    otbMinorVersion (four bytes each); the map data node and the end marker
    of the root follow.  The [n] bytes of [le n v] stand for [v] modulo
    [256 ^ n]. *)
Theorem generate_magic_and_root_header (w : OTBMWriter) :
  fst (generate w)
  = [0x4F; 0x54; 0x42; 0x4D] ++ [0xFE; 1]
    ++ escape (le 4 (otbmVersion w))
    ++ escape (le 2 (width w))
    ++ escape (le 2 (height w))
    ++ escape (le 4 (otbMajorVersion w))
    ++ escape (le 4 (otbMinorVersion w))
    ++ mapData w ++ [0xFF]
  /\ (forall n v, le_value (le n v) = v mod 256 ^ Z.of_nat n).
Proof.
  split.
  - rewrite generate_document. unfold document, magic, node, rootHeader.
    rewrite <- ?app_assoc. reflexivity.
  - apply le_value_le.
Qed.

(** C2. A payload byte is written as itself, or as the escape byte [0xFD]
    followed by itself when it is one of [0xFE], [0xFF], [0xFD]: one prefix,
    never escaped again.  Byte sequences, integers and strings are written
    byte by byte through that rule; the markers and the type byte of a node
    are written bare.  Stripping the prefixes gives the data back. *)
Theorem payload_bytes_are_escaped_once :
  (forall v w,
     buffer (_writeEscapedByte v w)
     = buffer w ++ (if special (byte v) then [0xFD; byte v] else [byte v]))
  /\ (forall data w,
        buffer (_writeEscapedBytes data w) = buffer w ++ escape (map byte data))
  /\ (forall v w, buffer (_writeU16 v w) = buffer w ++ escape (le 2 v))
  /\ (forall v w, buffer (_writeU32 v w) = buffer w ++ escape (le 4 v))
  /\ (forall str w,
        buffer (_writeString str w)
        = buffer w ++ escape (le 2 (Z.of_nat (List.length (JS.encode str))))
          ++ escape (JS.encode str))
  /\ (forall nodeType w,
        buffer (_startNode nodeType w) = buffer w ++ [0xFE; byte nodeType])
  /\ (forall w, buffer (_endNode w) = buffer w ++ [0xFF])
  /\ (forall data, unescape (escape data) = data).
Proof.
  repeat apply conj; intros.
  - rewrite writeEscapedByte_push. reflexivity.
  - rewrite writeEscapedBytes_push. reflexivity.
  - rewrite writeU16_push. reflexivity.
  - rewrite writeU32_push. reflexivity.
  - rewrite writeString_push. reflexivity.
  - rewrite startNode_push. reflexivity.
  - reflexivity.
  - apply unescape_escape.
Qed.

(** C3. In the generated stream the unescaped start markers [0xFE] are as
    many as the unescaped end markers [0xFF], and no prefix of the stream
    has more end markers than start markers. *)
Theorem generate_markers_well_nested (w : OTBMWriter) :
  countUnescaped 0xFE (fst (generate w)) = countUnescaped 0xFF (fst (generate w))
  /\ forall n,
       (countUnescaped 0xFF (firstn n (fst (generate w)))
        <= countUnescaped 0xFE (firstn n (fst (generate w))))%nat.
Proof.
  rewrite generate_document. pose proof (Nested_document w) as Hn. split.
  - apply Nested_balanced, Hn.
  - apply Nested_prefix, Hn.
Qed.

(** C10, as the code has it.  The writer checks no tile id: [addTile] stores
    whatever it is given, and a tile node is written with the id reduced
    modulo 65536 (its two low bytes). *)
Theorem tile_id_is_written_modulo_65536 :
  (forall x y z groundId items w,
     tiles (addTile x y z groundId items w)
     = tiles w ++ [mkTile x y z groundId items])
  /\ (forall x y z groundId items baseX baseY w,
        _writeTile (mkTile x y z groundId items) baseX baseY w
        = _writeTile (mkTile x y z (groundId mod 65536) items) baseX baseY w)
  /\ (forall groundId w,
        buffer (_writeU16 groundId w) = buffer w ++ escape (le 2 groundId))
  /\ (forall groundId, le_value (le 2 groundId) = groundId mod 65536).
Proof.
  repeat apply conj.
  - reflexivity.
  - intros tx ty tz g its bx by_ w.
    rewrite !writeTile_push. unfold tile. cbn [Writer.x Writer.y Writer.groundId Writer.items].
    replace (le 2 (g mod 65536)) with (le 2 g); [reflexivity|].
    cbn [le]. f_equal; [|f_equal]; Z.div_mod_to_equations; lia.
  - intros g w. rewrite writeU16_push. reflexivity.
  - intros g. apply (le_value_le 2).
Qed.

(** C10, as stated, fails: the id 65636 is taken, and the bytes are those of
    the id 100. *)
Lemma out_of_range_tile_id_wraps :
  tiles (addTile 0 0 7 65636 [] (new 1 1 "" 2 2 7)) = [mkTile 0 0 7 65636 []]
  /\ fst (generate (addTile 0 0 7 65636 [] (new 1 1 "" 2 2 7)))
     = fst (generate (addTile 0 0 7 100 [] (new 1 1 "" 2 2 7))).
Proof. split; vm_compute; reflexivity. Qed.

End ByteStream.

(** ** Properties of the grouping into areas *)

Section AreaGrouping.

(** *** Decimal rendering and the area key *)

Import Grouping.

Lemma noComma_uint d : noComma (DecimalString.NilEmpty.string_of_uint d).
Proof.
  unfold noComma. induction d; simpl; constructor; (discriminate || assumption).
Qed.

Lemma noComma_uint0 d : noComma (DecimalString.NilZero.string_of_uint d).
Proof.
  destruct d;
    lazymatch goal with
    | |- noComma (_ Decimal.Nil) => repeat constructor; discriminate
    | |- noComma (_ ?x) => exact (noComma_uint x)
    end.
Qed.

Lemma noComma_number v : noComma (JS.numberToString v).
Proof.
  unfold JS.numberToString. destruct (Z.to_int v) as [d|d];
    cbn [DecimalString.NilZero.string_of_int].
  - apply noComma_uint0.
  - constructor; [discriminate | apply noComma_uint0].
Qed.

Lemma numberToString_inj v v' :
  JS.numberToString v = JS.numberToString v' -> v = v'.
Proof.
  unfold JS.numberToString. intros H.
  assert (Hnz : forall n, Z.to_int n <> Decimal.Pos Decimal.Nil
                          /\ Z.to_int n <> Decimal.Neg Decimal.Nil).
  { intros [|p|p]; cbn; split; try discriminate;
      intros [= E]; exact (DecimalPos.Unsigned.to_uint_nonnil p E). }
  apply DecimalZ.to_int_inj.
  assert (E : Some (Z.to_int v) = Some (Z.to_int v')).
  { rewrite <- (DecimalString.NilZero.isi (Z.to_int v)) by apply Hnz.
    rewrite <- (DecimalString.NilZero.isi (Z.to_int v')) by apply Hnz.
    rewrite H. reflexivity. }
  congruence.
Qed.

Lemma comma_split s1 r1 s2 r2 :
  noComma s1 -> noComma s2 ->
  (s1 ++ "," ++ r1 = s2 ++ "," ++ r2)%string -> s1 = s2 /\ r1 = r2.
Proof.
  unfold noComma. revert s2.
  induction s1 as [|c s1 IH]; intros [|d s2] H1 H2 E; cbn in *.
  - injection E as E. auto.
  - injection E as Ec E. inversion H2; subst. congruence.
  - injection E as Ec E. inversion H1; subst. congruence.
  - injection E as Ec E. inversion H1; inversion H2; subst.
    destruct (IH s2) as [-> ->]; auto.
Qed.

Lemma areaKey_inj x y z x' y' z' :
  Writer.areaKey x y z = Writer.areaKey x' y' z' -> x = x' /\ y = y' /\ z = z'.
Proof.
  unfold Writer.areaKey. intros E.
  apply comma_split in E as [Ex E]; try apply noComma_number.
  apply comma_split in E as [Ey Ez]; try apply noComma_number.
  auto using numberToString_inj.
Qed.

(** *** The area base of a coordinate *)

Lemma land_lnot_FF x : Z.land x (Z.lnot 0xFF) = 256 * (x / 256).
Proof.
  rewrite <- Z.ldiff_land. change 0xFF with (Z.ones 8).
  rewrite Z.ldiff_ones_r, Z.shiftl_mul_pow2, Z.shiftr_div_pow2 by lia.
  change (2 ^ 8) with 256. lia.
Qed.

Lemma band_FF00 x : 0 <= x <= 65535 -> JS.band x 0xFF00 = Z.land x (Z.lnot 0xFF).
Proof.
  intros Hx. unfold JS.band.
  assert (JS.toInt32 x = x) as ->.
  { unfold JS.toInt32. rewrite Z.mod_small; lia. }
  change (JS.toInt32 0xFF00) with (Z.land (Z.ones 16) (Z.lnot 0xFF)).
  rewrite Z.land_assoc, Z.land_ones, Z.mod_small by lia. reflexivity.
Qed.

(** *** Maps in insertion order *)

Section MapFacts.
Context {V : Type}.
Implicit Types (m : list (string * V)) (k : string).

Lemma get_None_keys k m : JS.get k m = None <-> ~ In k (JS.keys m).
Proof.
  induction m as [|[k' v'] m IH]; cbn.
  - tauto.
  - destruct (String.eqb_spec k k') as [->|Hne].
    + split; [discriminate | intros H; exfalso; apply H; auto].
    + rewrite IH. intuition congruence.
Qed.

Lemma has_true k m : JS.has k m = true <-> In k (JS.keys m).
Proof.
  unfold JS.has. pose proof (get_None_keys k m) as H.
  destruct (JS.get k m).
  - split; [intros _|reflexivity].
    destruct (in_dec string_dec k (JS.keys m)) as [Hin|Hin]; [exact Hin|].
    apply H in Hin. discriminate.
  - split; [discriminate|]. intros Hin. exfalso. apply (proj1 H); auto.
Qed.

Lemma has_false k m : JS.has k m = false <-> ~ In k (JS.keys m).
Proof.
  rewrite <- has_true. destruct (JS.has k m); split; congruence.
Qed.

Lemma get_In k v m : JS.get k m = Some v -> In (k, v) m.
Proof.
  induction m as [|[k' v'] m IH]; cbn; [discriminate|].
  destruct (String.eqb_spec k k') as [->|Hne].
  - intros [= ->]. auto.
  - auto.
Qed.

Lemma In_get k v m : NoDup (JS.keys m) -> In (k, v) m -> JS.get k m = Some v.
Proof.
  induction m as [|[k' v'] m IH]; cbn; [tauto|].
  intros Hnd [E|Hin]; inversion Hnd as [|? ? Hk Hnd']; subst.
  - injection E as -> ->. rewrite String.eqb_refl. reflexivity.
  - destruct (String.eqb_spec k k') as [->|Hne]; [|auto].
    exfalso. apply Hk. change k' with (fst (k', v)). apply in_map, Hin.
Qed.

Lemma set_new k v m : ~ In k (JS.keys m) -> JS.set k v m = m ++ [(k, v)].
Proof.
  induction m as [|[k' v'] m IH]; cbn; intros Hk; [reflexivity|].
  destruct (String.eqb_spec k k') as [->|Hne]; [tauto|].
  rewrite IH by tauto. reflexivity.
Qed.

Lemma keys_set_old k v m : In k (JS.keys m) -> JS.keys (JS.set k v m) = JS.keys m.
Proof.
  induction m as [|[k' v'] m IH]; cbn; [tauto|]. intros Hk.
  destruct (String.eqb_spec k k') as [->|Hne]; [reflexivity|].
  cbn. f_equal. apply IH. destruct Hk; [congruence | assumption].
Qed.

Lemma keys_update k f m : JS.keys (JS.update k f m) = JS.keys m.
Proof.
  unfold JS.keys. induction m as [|[k' v'] m IH]; cbn; [reflexivity|].
  destruct (String.eqb k k'); cbn; congruence.
Qed.

Lemma update_absent k f m : ~ In k (JS.keys m) -> JS.update k f m = m.
Proof.
  induction m as [|[k' v'] m IH]; cbn; intros Hk; [reflexivity|].
  destruct (String.eqb_spec k k') as [->|Hne]; [tauto|].
  rewrite IH by tauto. reflexivity.
Qed.

Lemma update_app_l k f m m' :
  In k (JS.keys m) -> JS.update k f (m ++ m') = JS.update k f m ++ m'.
Proof.
  induction m as [|[k' v'] m IH]; cbn; [tauto|]. intros Hk.
  destruct (String.eqb_spec k k') as [->|Hne]; [reflexivity|].
  rewrite IH; [reflexivity | destruct Hk; [congruence | assumption]].
Qed.

Lemma update_app_r k f m m' :
  ~ In k (JS.keys m) -> JS.update k f (m ++ m') = m ++ JS.update k f m'.
Proof.
  induction m as [|[k' v'] m IH]; cbn; intros Hk; [reflexivity|].
  destruct (String.eqb_spec k k') as [->|Hne]; [tauto|].
  rewrite IH by tauto. reflexivity.
Qed.

Lemma In_update k f m k' v' :
  NoDup (JS.keys m) -> In (k', v') (JS.update k f m) ->
  (k' <> k /\ In (k', v') m) \/ (k' = k /\ exists v, In (k, v) m /\ v' = f v).
Proof.
  induction m as [|[k0 v0] m IH]; cbn; [tauto|].
  intros Hnd Hin. inversion Hnd as [|? ? Hk Hnd']; subst.
  destruct (String.eqb_spec k k0) as [->|Hne].
  - destruct Hin as [E|Hin].
    + injection E as <- <-. right. split; [reflexivity|]. exists v0. auto.
    + left. split; [|auto]. intros ->. apply Hk.
      change k0 with (fst (k0, v')). apply in_map, Hin.
  - destruct Hin as [E|Hin].
    + injection E as <- <-. left. split; [congruence | auto].
    + destruct (IH Hnd' Hin) as [[H1 H2]|[H1 (v & H2 & H3)]].
      * left. auto.
      * right. split; [exact H1|]. exists v. auto.
Qed.
End MapFacts.

(** *** Order of first appearance *)

Section FirstSeenFacts.
Context {A : Type} (eqb : A -> A -> bool).
Hypothesis eqb_spec : forall a b, eqb a b = true <-> a = b.

Lemma In_firstSeen a l : In a (Spec.firstSeen eqb l) <-> In a l.
Proof.
  induction l as [|b l IH]; cbn; [tauto|].
  rewrite filter_In, IH, negb_true_iff.
  destruct (eqb a b) eqn:E.
  - apply eqb_spec in E. subst. split; auto.
  - split; [tauto|]. intros [->|H]; auto.
Qed.

Lemma NoDup_firstSeen l : NoDup (Spec.firstSeen eqb l).
Proof.
  induction l as [|b l IH]; cbn; constructor.
  - rewrite filter_In, negb_true_iff. intros [_ E].
    assert (eqb b b = true) by (apply eqb_spec; reflexivity). congruence.
  - apply NoDup_filter, IH.
Qed.

Lemma firstSeen_snoc l a :
  Spec.firstSeen eqb (l ++ [a])
  = if existsb (fun b => eqb b a) l then Spec.firstSeen eqb l
    else Spec.firstSeen eqb l ++ [a].
Proof.
  induction l as [|b l IH]; cbn; [reflexivity|].
  rewrite IH. destruct (eqb b a) eqn:E; cbn.
  - apply eqb_spec in E. subst b.
    destruct (existsb (fun b => eqb b a) l); [reflexivity|].
    rewrite filter_app. cbn.
    assert (eqb a a = true) as -> by (apply eqb_spec; reflexivity).
    cbn. rewrite app_nil_r. reflexivity.
  - destruct (existsb (fun b => eqb b a) l); [reflexivity|].
    rewrite filter_app. cbn.
    assert (eqb a b = false) as ->.
    { destruct (eqb a b) eqn:E'; [|reflexivity].
      apply eqb_spec in E'. subst.
      assert (eqb b b = true) by (apply eqb_spec; reflexivity). congruence. }
    reflexivity.
Qed.

Lemma existsb_eqb_In l a : existsb (fun b => eqb b a) l = true <-> In a l.
Proof.
  rewrite existsb_exists. split.
  - intros (b & Hb & E). apply eqb_spec in E. subst. exact Hb.
  - intros H. exists a. split; [exact H | apply eqb_spec; reflexivity].
Qed.
End FirstSeenFacts.

Lemma filter_map_comm {A B : Type} (f : A -> B) (p : B -> bool) l :
  filter p (map f l) = map f (filter (fun a => p (f a)) l).
Proof.
  induction l as [|a l IH]; cbn; [reflexivity|].
  destruct (p (f a)); cbn; congruence.
Qed.

Lemma firstSeen_map {A B : Type} (eqA : A -> A -> bool) (eqB : B -> B -> bool)
    (f : A -> B) l :
  (forall a b, eqB (f a) (f b) = eqA a b) ->
  Spec.firstSeen eqB (map f l) = map f (Spec.firstSeen eqA l).
Proof.
  intros Hf. induction l as [|a l IH]; cbn; [reflexivity|].
  rewrite IH, filter_map_comm. do 2 f_equal.
  apply filter_ext. intros b. rewrite Hf. reflexivity.
Qed.

Lemma map_inj {A B : Type} (f : A -> B) l l' :
  (forall a b, f a = f b -> a = b) -> map f l = map f l' -> l = l'.
Proof.
  intros Hf. revert l'. induction l as [|a l IH]; intros [|a' l'] E; cbn in E;
    try discriminate; [reflexivity|].
  injection E as E1 E2. f_equal; auto.
Qed.

Lemma string_eqb_iff a b : String.eqb a b = true <-> a = b.
Proof. apply String.eqb_eq. Qed.

Lemma cell_eqb_iff c d : Spec.cell_eqb c d = true <-> c = d.
Proof.
  destruct c as [[cx cy] cz], d as [[dx dy] dz]. cbn.
  rewrite !andb_true_iff, !Z.eqb_eq. split.
  - intros [[-> ->] ->]. reflexivity.
  - intros [= -> -> ->]. auto.
Qed.

Lemma cellKey_inj c d : cellKey c = cellKey d -> c = d.
Proof.
  destruct c as [[cx cy] cz], d as [[dx dy] dz]. cbn. intros E.
  apply areaKey_inj in E as (-> & -> & ->). reflexivity.
Qed.

Lemma cellKey_eqb c d : String.eqb (cellKey c) (cellKey d) = Spec.cell_eqb c d.
Proof.
  destruct (Spec.cell_eqb c d) eqn:E.
  - apply cell_eqb_iff in E. subst. apply String.eqb_refl.
  - apply String.eqb_neq. intros H. apply cellKey_inj in H.
    apply cell_eqb_iff in H. congruence.
Qed.

Lemma tileKey_cell t : Spec.inRange t -> tileKey t = cellKey (Spec.tileCell t).
Proof.
  intros [Hx Hy]. unfold tileKey, Spec.tileCell, cellKey.
  rewrite !band_FF00 by assumption. reflexivity.
Qed.

(** *** The grouping loop *)

Lemma groupTiles_snoc l t :
  Writer.groupTiles (l ++ [t]) = Writer.groupTile (Writer.groupTiles l) t.
Proof. unfold Writer.groupTiles. rewrite fold_left_app. reflexivity. Qed.

Lemma filter_snoc {A : Type} (p : A -> bool) l a :
  filter p (l ++ [a]) = if p a then filter p l ++ [a] else filter p l.
Proof.
  rewrite filter_app. cbn. destruct (p a); [reflexivity | apply app_nil_r].
Qed.

Lemma filter_none {A : Type} (p : A -> bool) l :
  (forall a, In a l -> p a = false) -> filter p l = [].
Proof.
  induction l as [|a l IH]; cbn; intros H; [reflexivity|].
  rewrite (H a) by auto. apply IH. auto.
Qed.

Lemma grouped_step l areas t :
  grouped l areas -> grouped (l ++ [t]) (Writer.groupTile areas t).
Proof.
  intros [Hkeys Hareas].
  assert (Hnd : NoDup (JS.keys areas)).
  { rewrite Hkeys. apply NoDup_firstSeen, string_eqb_iff. }
  unfold Writer.groupTile. fold (tileKey t). set (k0 := tileKey t).
  set (a0 := Writer.mkArea _ _ _ []).
  destruct (JS.has k0 areas) eqn:Hhas; cbn [negb].
  - (* the area exists *)
    apply has_true in Hhas. split.
    + rewrite keys_update, Hkeys, map_app. cbn [map]. fold k0.
      rewrite (firstSeen_snoc _ string_eqb_iff).
      assert (existsb (fun b => String.eqb b k0) (map tileKey l) = true) as ->; [|reflexivity].
      apply (existsb_eqb_In _ string_eqb_iff).
      apply (In_firstSeen _ string_eqb_iff). rewrite <- Hkeys. exact Hhas.
    + intros k a Hin. apply In_update in Hin; [|exact Hnd].
      destruct Hin as [[Hne Hin]|[-> (a1 & Hin & ->)]].
      * destruct (Hareas k a Hin) as [Ht (t' & Ht' & Hk & Hx)]. split.
        -- rewrite filter_snoc. fold k0.
           assert (String.eqb k0 k = false) as -> by (apply String.eqb_neq; congruence).
           exact Ht.
        -- exists t'. rewrite in_app_iff. auto.
      * destruct (Hareas k0 a1 Hin) as [Ht (t' & Ht' & Hk & Hx)]. split.
        -- rewrite filter_snoc. fold k0. rewrite String.eqb_refl.
           cbn. rewrite Ht. reflexivity.
        -- exists t'. rewrite in_app_iff. cbn. auto.
  - (* a new area *)
    apply has_false in Hhas.
    rewrite (set_new k0 a0 areas Hhas), update_app_r by exact Hhas.
    cbn [JS.update]. rewrite String.eqb_refl.
    assert (Hnone : forall t', In t' l -> String.eqb (tileKey t') k0 = false).
    { intros t' Ht'. apply String.eqb_neq. intros E. apply Hhas.
      rewrite Hkeys. apply (In_firstSeen _ string_eqb_iff).
      rewrite <- E. apply in_map, Ht'. }
    split.
    + unfold JS.keys. rewrite map_app. cbn [map fst]. fold (JS.keys areas).
      rewrite Hkeys, map_app. cbn [map]. fold k0.
      rewrite (firstSeen_snoc _ string_eqb_iff).
      assert (existsb (fun b => String.eqb b k0) (map tileKey l) = false) as ->; [|reflexivity].
      destruct (existsb _ _) eqn:E; [|reflexivity].
      apply (existsb_eqb_In _ string_eqb_iff) in E.
      apply in_map_iff in E as (t' & E & Ht'). apply Hnone in Ht'.
      apply String.eqb_neq in Ht'. congruence.
    + intros k a Hin. apply in_app_iff in Hin as [Hin|[E|[]]].
      * destruct (Hareas k a Hin) as [Ht (t' & Ht' & Hk & Hx)]. split.
        -- rewrite filter_snoc. fold k0.
           assert (String.eqb k0 k = false) as ->; [|exact Ht].
           apply String.eqb_neq. intros ->. apply Hhas.
           change k with (fst (k, a)). apply in_map, Hin.
        -- exists t'. rewrite in_app_iff. auto.
      * injection E as <- <-. split.
        -- rewrite filter_snoc. fold k0. rewrite String.eqb_refl.
           rewrite (filter_none _ l Hnone). reflexivity.
        -- exists t. rewrite in_app_iff. cbn. auto 10.
Qed.

Lemma groupTiles_grouped l : grouped l (Writer.groupTiles l).
Proof.
  induction l as [|t l IH] using rev_ind.
  - split; [reflexivity | intros k a []].
  - rewrite groupTiles_snoc. apply grouped_step, IH.
Qed.

Lemma update_push_perm k t m :
  In k (JS.keys m) ->
  Permutation (allTiles (JS.update k (Writer.area_push t) m)) (t :: allTiles m).
Proof.
  unfold allTiles, JS.values, JS.keys.
  induction m as [|[k' a'] m IH]; cbn; [tauto|]. intros Hk.
  destruct (String.eqb_spec k k') as [->|Hne]; cbn.
  - rewrite <- app_assoc. cbn. symmetry. apply Permutation_middle.
  - rewrite IH by (destruct Hk; [congruence | assumption]).
    symmetry. apply Permutation_middle.
Qed.

Lemma groupTile_perm areas t :
  Permutation (allTiles (Writer.groupTile areas t)) (t :: allTiles areas).
Proof.
  unfold Writer.groupTile.
  destruct (JS.has _ areas) eqn:Hhas; cbn [negb].
  - apply update_push_perm, has_true, Hhas.
  - apply has_false in Hhas. rewrite set_new, update_app_r by exact Hhas.
    cbn [JS.update]. rewrite String.eqb_refl.
    unfold allTiles, JS.values. rewrite map_app, flat_map_app. cbn.
    symmetry. apply Permutation_cons_append.
Qed.

Lemma groupTiles_perm l : Permutation (allTiles (Writer.groupTiles l)) l.
Proof.
  induction l as [|t l IH] using rev_ind.
  - reflexivity.
  - rewrite groupTiles_snoc, groupTile_perm, IH. apply Permutation_cons_append.
Qed.

Import Writer Format.

Lemma In_values {V : Type} (a : V) (m : list (string * V)) :
  In a (JS.values m) <-> exists k, In (k, a) m.
Proof.
  unfold JS.values. rewrite in_map_iff. split.
  - intros ([k a'] & E & Hin). cbn in E. subst. exists k. exact Hin.
  - intros (k & Hin). exists (k, a). auto.
Qed.

Lemma grouped_key l areas k a :
  grouped l areas -> In (k, a) areas -> k = cellKey (Spec.areaCell a).
Proof.
  intros [_ H] Hin. destruct (H k a Hin) as [_ (t & _ & Hk & Hx & Hy & Hz)].
  unfold Spec.areaCell, cellKey. rewrite Hx, Hy, Hz. symmetry. exact Hk.
Qed.

Lemma grouped_cells l areas :
  Forall Spec.inRange l -> grouped l areas ->
  map Spec.areaCell (JS.values areas)
  = Spec.firstSeen Spec.cell_eqb (map Spec.tileCell l).
Proof.
  intros Hr Hg. apply (map_inj cellKey); [apply cellKey_inj|].
  rewrite <- (firstSeen_map Spec.cell_eqb String.eqb cellKey) by apply cellKey_eqb.
  unfold JS.values. rewrite !map_map.
  transitivity (JS.keys areas).
  - unfold JS.keys. apply map_ext_in. intros [k a] Hin. cbn.
    symmetry. eapply grouped_key; eassumption.
  - destruct Hg as [-> _]. f_equal. apply map_ext_in. intros t Ht.
    apply tileKey_cell. rewrite Forall_forall in Hr. auto.
Qed.

Lemma grouped_area_tiles l areas k a :
  Forall Spec.inRange l -> grouped l areas -> In (k, a) areas ->
  area_tiles a
  = filter (fun t => Spec.cell_eqb (Spec.tileCell t) (Spec.areaCell a)) l.
Proof.
  intros Hr Hg Hin. pose proof (grouped_key _ _ _ _ Hg Hin) as Hk.
  destruct Hg as [_ H]. destruct (H k a Hin) as [-> _].
  apply filter_ext_in. intros t Ht. rewrite Forall_forall in Hr.
  rewrite Hk, tileKey_cell by auto. apply cellKey_eqb.
Qed.

Lemma grouped_base l areas k a :
  Forall Spec.inRange l -> grouped l areas -> In (k, a) areas ->
  areaX a mod 256 = 0 /\ areaY a mod 256 = 0.
Proof.
  intros Hr [_ H] Hin. destruct (H k a Hin) as [_ (t & Ht & _ & Hx & Hy & _)].
  rewrite Forall_forall in Hr. destruct (Hr t Ht) as [Rx Ry].
  rewrite Hx, Hy, !band_FF00, !land_lnot_FF by assumption.
  rewrite !(Z.mul_comm 256), !Z.mod_mul by lia. auto.
Qed.

Lemma offset_range v : 0 <= v - Z.land v (Z.lnot 0xFF) <= 255.
Proof. rewrite land_lnot_FF. Z.div_mod_to_equations. lia. Qed.

(** C8. For tiles whose coordinates are unsigned 16-bit numbers, the
    grouping loop of [_writeMapData] yields one area per cell
    [(x & ~0xFF, y & ~0xFF, z)], the cells in the order of their first tile;
    an area holds exactly the tiles of its cell, in their order in the tile
    list, so that every tile is in one area and in no other; the base of an
    area is a multiple of 256 on both axes; and a tile is written with its
    two offsets from the base, which lie between 0 and 255. *)
Theorem groupTiles_partitions_by_cell (ts : list Tile) :
  Forall Spec.inRange ts ->
  let areas := JS.values (groupTiles ts) in
  map Spec.areaCell areas = Spec.firstSeen Spec.cell_eqb (map Spec.tileCell ts)
  /\ (forall a, In a areas ->
        area_tiles a
        = filter (fun t => Spec.cell_eqb (Spec.tileCell t) (Spec.areaCell a)) ts
        /\ areaX a mod 256 = 0 /\ areaY a mod 256 = 0)
  /\ (forall t, In t ts ->
        exists a, In a areas /\ In t (area_tiles a)
                  /\ forall a', In a' areas -> In t (area_tiles a') -> a' = a)
  /\ Permutation (flat_map area_tiles areas) ts
  /\ (forall a t, In a areas -> In t (area_tiles a) ->
        0 <= x t - areaX a <= 255 /\ 0 <= y t - areaY a <= 255
        /\ forall w,
             buffer (_writeTile t (areaX a) (areaY a) w)
             = buffer w
               ++ node 5 (escape [x t - areaX a; y t - areaY a] ++ [9]
                          ++ escape (le 2 (groundId t))
                          ++ flat_map item (items t))).
Proof.
  intros Hr areas. pose proof (groupTiles_grouped ts) as Hg.
  pose proof (grouped_cells ts _ Hr Hg) as Hcells. fold areas in Hcells.
  assert (Htiles : forall a, In a areas ->
            area_tiles a
            = filter (fun t => Spec.cell_eqb (Spec.tileCell t) (Spec.areaCell a)) ts).
  { intros a Ha. apply In_values in Ha as (k & Hin).
    eapply grouped_area_tiles; eassumption. }
  assert (Hoff : forall a t, In a areas -> In t (area_tiles a) ->
            areaX a = Z.land (x t) (Z.lnot 0xFF) /\ areaY a = Z.land (y t) (Z.lnot 0xFF)).
  { intros a t Ha Ht. rewrite (Htiles a Ha) in Ht. apply filter_In in Ht as [_ Hc].
    apply cell_eqb_iff in Hc. unfold Spec.tileCell, Spec.areaCell in Hc.
    injection Hc as Hx Hy _. auto. }
  split; [exact Hcells|]. split; [|split; [|split]].
  - intros a Ha. split; [apply Htiles, Ha|].
    apply In_values in Ha as (k & Hin). eapply grouped_base; eassumption.
  - intros t Ht.
    assert (Hc : In (Spec.tileCell t) (map Spec.areaCell areas)).
    { rewrite Hcells. apply (In_firstSeen _ cell_eqb_iff). apply in_map, Ht. }
    apply in_map_iff in Hc as (a & Hc & Ha). exists a. split; [exact Ha|]. split.
    + rewrite (Htiles a Ha). apply filter_In. split; [exact Ht|].
      apply cell_eqb_iff. congruence.
    + intros a' Ha' Ht'. pose proof (Htiles a' Ha') as E'.
      pose proof (Htiles a Ha) as E. rewrite E' in Ht'.
      apply filter_In in Ht' as [_ Hc']. apply cell_eqb_iff in Hc'.
      assert (Hsame : Spec.areaCell a' = Spec.areaCell a) by congruence.
      rewrite Hsame in E'. rewrite <- E in E'.
      destruct a, a'. unfold Spec.areaCell in Hsame. cbn in *.
      injection Hsame as -> -> ->. subst. reflexivity.
  - apply groupTiles_perm.
  - intros a t Ha Ht. destruct (Hoff a t Ha Ht) as [Hx Hy].
    pose proof (offset_range (x t)) as Rx. pose proof (offset_range (y t)) as Ry.
    rewrite <- Hx in Rx. rewrite <- Hy in Ry.
    split; [exact Rx|]. split; [exact Ry|].
    intros w. rewrite writeTile_push. unfold tile.
    rewrite !byte_id by lia. reflexivity.
Qed.

End AreaGrouping.

(** ** Properties of the colour analysis *)

Section ColourAnalysis.

Import App Palette.

(** *** Colour keys

    On bytes the key of a colour determines its three components: distinct
    keys are distinct colours. *)

Lemma In_byteValues v : 0 <= v <= 255 -> In v byteValues.
Proof.
  intros Hv. unfold byteValues. apply in_map_iff. exists (Z.to_nat v).
  split; [lia | apply in_seq; lia].
Qed.

Lemma hex2_length v : 0 <= v <= 255 -> String.length (hex2 v) = 2%nat.
Proof.
  intros Hv.
  assert (H : forallb (fun v => Nat.eqb (String.length (hex2 v)) 2) byteValues = true)
    by (vm_compute; reflexivity).
  rewrite forallb_forall in H. apply Nat.eqb_eq, H, In_byteValues, Hv.
Qed.

Lemma hex2_inj v v' :
  0 <= v <= 255 -> 0 <= v' <= 255 -> hex2 v = hex2 v' -> v = v'.
Proof.
  intros Hv Hv' E.
  assert (H : forallb (fun a => forallb (fun b =>
                 implb (String.eqb (hex2 a) (hex2 b)) (a =? b)) byteValues)
                byteValues = true)
    by (vm_compute; reflexivity).
  rewrite forallb_forall in H. specialize (H v (In_byteValues v Hv)).
  rewrite forallb_forall in H. specialize (H v' (In_byteValues v' Hv')).
  rewrite E, String.eqb_refl in H. cbn in H. apply Z.eqb_eq, H.
Qed.

Lemma append_inj_length (s s' t t' : string) :
  String.length s = String.length s' ->
  (s ++ t = s' ++ t')%string -> s = s' /\ t = t'.
Proof.
  revert s'. induction s as [|c s IH]; intros [|c' s'] Hl E; cbn in *;
    try discriminate; [auto|].
  injection E as -> E. injection Hl as Hl.
  destruct (IH s' Hl E) as [-> ->]. auto.
Qed.

Lemma rgbToHex_inj r g b r' g' b' :
  0 <= r <= 255 -> 0 <= g <= 255 -> 0 <= b <= 255 ->
  0 <= r' <= 255 -> 0 <= g' <= 255 -> 0 <= b' <= 255 ->
  _rgbToHex r g b = _rgbToHex r' g' b' -> r = r' /\ g = g' /\ b = b'.
Proof.
  intros Hr Hg Hb Hr' Hg' Hb' E. unfold _rgbToHex in E. cbn in E.
  injection E as E.
  apply append_inj_length in E as [Er E]; [|rewrite !hex2_length; auto].
  apply append_inj_length in E as [Eg Eb]; [|rewrite !hex2_length; auto].
  auto using hex2_inj.
Qed.

(** *** The counting loop *)

Lemma orElse_zero v : orElse v 0 = match v with Some n => n | None => 0 end.
Proof.
  unfold orElse. destruct v as [n|]; [|reflexivity].
  destruct (Z.eqb_spec n 0); congruence.
Qed.

Lemma In_set {V : Type} (k : string) (v : V) m e :
  NoDup (JS.keys m) -> In e (JS.set k v m) ->
  (fst e <> k /\ In e m) \/ e = (k, v).
Proof.
  unfold JS.keys. induction m as [|[k0 v0] m IH]; cbn.
  - intros _ [<-|[]]. auto.
  - intros Hnd Hin. inversion Hnd as [|? ? Hk Hnd']; subst.
    destruct (String.eqb_spec k k0) as [->|Hne].
    + destruct Hin as [<-|Hin]; [auto|]. left. split; [|auto].
      intros E. apply Hk. rewrite <- E. apply in_map, Hin.
    + destruct Hin as [<-|Hin]; [left; cbn; split; [congruence | auto]|].
      destruct (IH Hnd' Hin) as [[H1 H2]|H]; auto.
Qed.

Lemma total_set k m :
  total (JS.values (JS.set k (orElse (JS.get k m) 0 + 1) m))
  = total (JS.values m) + 1.
Proof.
  unfold JS.values, total. rewrite orElse_zero.
  induction m as [|[k0 v0] m IH]; cbn; [lia|].
  destruct (String.eqb_spec k k0) as [->|Hne]; cbn; lia.
Qed.

Lemma keys_set k (v : Z) m :
  JS.keys (JS.set k v m) = if JS.has k m then JS.keys m else JS.keys m ++ [k].
Proof.
  destruct (JS.has k m) eqn:H.
  - apply keys_set_old, has_true, H.
  - apply has_false in H. rewrite set_new by exact H.
    unfold JS.keys. rewrite map_app. reflexivity.
Qed.

Lemma opaqueKeys_snoc done p :
  opaqueKeys (done ++ [p])
  = if opaque p then opaqueKeys done ++ [pixelKey p] else opaqueKeys done.
Proof.
  unfold opaqueKeys. rewrite filter_snoc.
  destruct (opaque p); [rewrite map_app|]; reflexivity.
Qed.

Lemma occurrences_snoc k done p :
  occurrences k (done ++ [p])
  = occurrences k done + (if opaque p && String.eqb (pixelKey p) k then 1 else 0).
Proof.
  unfold occurrences. rewrite opaqueKeys_snoc.
  destruct (opaque p); cbn [andb]; [|lia].
  rewrite count_occ_app. cbn [count_occ].
  destruct (string_dec (pixelKey p) k) as [->|Hne].
  - rewrite String.eqb_refl. lia.
  - apply String.eqb_neq in Hne. rewrite Hne. lia.
Qed.

Lemma transparentPixels_snoc done p :
  transparentPixels (done ++ [p])
  = transparentPixels done + (if opaque p then 0 else 1).
Proof.
  unfold transparentPixels. rewrite filter_snoc.
  destruct (opaque p); cbn [negb]; [lia|]. rewrite length_app. cbn. lia.
Qed.

Lemma distinctColors_snoc done p :
  distinctColors (done ++ [p])
  = if opaque p && negb (existsb (fun k => String.eqb k (pixelKey p)) (opaqueKeys done))
    then distinctColors done ++ [pixelKey p] else distinctColors done.
Proof.
  unfold distinctColors. rewrite opaqueKeys_snoc.
  destruct (opaque p); cbn [andb]; [|reflexivity].
  rewrite (firstSeen_snoc _ string_eqb_iff).
  destruct (existsb _ _); reflexivity.
Qed.

Lemma In_distinctColors k pixels : In k (distinctColors pixels) <-> In k (opaqueKeys pixels).
Proof. apply In_firstSeen, string_eqb_iff. Qed.

Lemma occurrences_absent k pixels : ~ In k (opaqueKeys pixels) -> occurrences k pixels = 0.
Proof.
  intros H. unfold occurrences. apply (count_occ_not_In string_dec) in H.
  rewrite H. reflexivity.
Qed.

Lemma counted_nil : counted [] [] 0.
Proof. repeat split. intros e []. Qed.

Lemma counted_transparent done cc tc p :
  opaque p = false -> counted done cc tc -> counted (done ++ [p]) cc (tc + 1).
Proof.
  intros Hp (Hk & Hc & Ht & Hs). repeat split.
  - rewrite distinctColors_snoc, Hp. exact Hk.
  - intros e He. rewrite occurrences_snoc, Hp. cbn. rewrite (Hc e He). lia.
  - rewrite transparentPixels_snoc, Hp. lia.
  - rewrite length_app. cbn. lia.
Qed.

Lemma counted_opaque done cc tc p :
  opaque p = true -> counted done cc tc ->
  counted (done ++ [p])
    (JS.set (pixelKey p) (orElse (JS.get (pixelKey p) cc) 0 + 1) cc) tc.
Proof.
  intros Hp (Hk & Hc & Ht & Hs).
  assert (Hnd : NoDup (JS.keys cc)).
  { rewrite Hk. apply NoDup_firstSeen, string_eqb_iff. }
  set (k := pixelKey p). repeat split.
  - rewrite keys_set, distinctColors_snoc, Hp. fold k. cbn [andb].
    destruct (JS.has k cc) eqn:Hhas.
    + apply has_true in Hhas. rewrite Hk in Hhas. apply In_distinctColors in Hhas.
      apply (existsb_eqb_In _ string_eqb_iff) in Hhas. rewrite Hhas. exact Hk.
    + apply has_false in Hhas. rewrite Hk in Hhas.
      destruct (existsb _ _) eqn:E.
      * apply (existsb_eqb_In _ string_eqb_iff) in E.
        apply In_distinctColors in E. contradiction.
      * cbn. rewrite Hk. reflexivity.
  - intros e He. rewrite occurrences_snoc, Hp. cbn [andb]. fold k.
    apply In_set in He; [|exact Hnd]. destruct He as [[Hne He]| ->].
    + assert (String.eqb k (fst e) = false) as ->
        by (apply String.eqb_neq; congruence).
      rewrite (Hc e He). lia.
    + cbn [fst snd]. rewrite String.eqb_refl, orElse_zero.
      destruct (JS.get k cc) as [v|] eqn:Hg.
      * apply get_In in Hg. pose proof (Hc _ Hg) as E. cbn [fst snd] in E. lia.
      * apply get_None_keys in Hg. rewrite Hk in Hg.
        rewrite occurrences_absent; [reflexivity|].
        intros Hin. apply Hg, In_distinctColors, Hin.
  - rewrite transparentPixels_snoc, Hp. lia.
  - rewrite total_set, length_app. cbn. lia.
Qed.

Lemma size_keys {V : Type} (m : list (string * V)) :
  size m = Z.of_nat (List.length (JS.keys m)).
Proof. unfold size, JS.keys. rewrite length_map. reflexivity. Qed.

(** The loop, from any point it can reach. *)
Lemma scanColors_spec todo : forall done cc tc,
  counted done cc tc ->
  match scanColors todo (List.length done) cc tc with
  | ScanDone cc' tc' =>
      counted (done ++ todo) cc' tc'
      /\ (size cc <= MAX_COLORS -> size cc' <= MAX_COLORS)
  | ScanTooManyColors n j =>
      exists pre px post,
        todo = pre ++ px :: post
        /\ j = List.length (done ++ pre)
        /\ n = Z.of_nat (List.length (distinctColors (done ++ pre ++ [px])))
        /\ MAX_COLORS < n
        /\ (size cc <= MAX_COLORS ->
            Z.of_nat (List.length (distinctColors (done ++ pre))) <= MAX_COLORS)
        /\ (forall post',
              scanColors (pre ++ px :: post') (List.length done) cc tc
              = ScanTooManyColors n j)
  end.
Proof.
  induction todo as [|p todo IH]; intros done cc tc Hinv.
  - cbn. rewrite app_nil_r. auto.
  - cbn [scanColors]. destruct (a p <? 128) eqn:Ha.
    + assert (Hp : opaque p = false) by (unfold opaque; rewrite Ha; reflexivity).
      pose proof (counted_transparent _ _ _ _ Hp Hinv) as Hinv'.
      specialize (IH (done ++ [p]) cc (tc + 1) Hinv').
      rewrite length_app, Nat.add_1_r in IH. cbn [List.length] in IH.
      destruct (scanColors todo (S (List.length done)) cc (tc + 1)) as [cc' tc'|n j].
      * rewrite <- app_assoc in IH. exact IH.
      * destruct IH as (pre & px & post & -> & -> & -> & Hn & Hsz & Hpost).
        exists (p :: pre), px, post. rewrite <- !app_assoc in *. cbn [app] in *.
        repeat split; auto.
        intros post'. cbn [scanColors]. rewrite Ha. apply Hpost.
    + assert (Hp : opaque p = true) by (unfold opaque; rewrite Ha; reflexivity).
      pose proof (counted_opaque _ _ _ _ Hp Hinv) as Hinv'.
      fold (pixelKey p). set (cc1 := JS.set _ _ cc) in *.
      destruct (MAX_COLORS <? size cc1) eqn:Hsz.
      * apply Z.ltb_lt in Hsz. exists [], p, todo.
        rewrite app_nil_r. cbn [app].
        destruct Hinv' as (Hk' & _). destruct Hinv as (Hk & _).
        rewrite <- Hk', <- Hk, <- !size_keys. repeat split; auto.
        intros post'. cbn [scanColors]. rewrite Ha. fold (pixelKey p). fold cc1.
        apply Z.ltb_lt in Hsz. rewrite Hsz. reflexivity.
      * apply Z.ltb_ge in Hsz.
        specialize (IH (done ++ [p]) cc1 tc Hinv').
        rewrite length_app, Nat.add_1_r in IH. cbn [List.length] in IH.
        destruct (scanColors todo (S (List.length done)) cc1 tc) as [cc' tc'|n j].
        -- rewrite <- app_assoc in IH. destruct IH as [H1 H2]. auto.
        -- destruct IH as (pre & px & post & -> & -> & -> & Hn & Hs & Hpost).
           exists (p :: pre), px, post. rewrite <- !app_assoc in *. cbn [app] in *.
           repeat split; auto.
           intros post'. cbn [scanColors]. rewrite Ha. fold (pixelKey p). fold cc1.
           apply Z.ltb_ge in Hsz. rewrite Hsz. apply Hpost.
Qed.

Lemma distinctColors_prefix l l' :
  (List.length (distinctColors l) <= List.length (distinctColors (l ++ l')))%nat.
Proof.
  apply NoDup_incl_length; [apply NoDup_firstSeen, string_eqb_iff|].
  intros k Hk. apply In_distinctColors in Hk. apply In_distinctColors.
  unfold opaqueKeys in *. rewrite filter_app, map_app. apply in_or_app. auto.
Qed.

Lemma distinctColors_snoc_le l p :
  (List.length (distinctColors (l ++ [p])) <= S (List.length (distinctColors l)))%nat.
Proof.
  rewrite distinctColors_snoc. destruct (_ && _); [|lia].
  rewrite length_app. cbn. lia.
Qed.

(** The loop on a whole buffer. *)
Lemma scanColors_outcome pixels :
  match scanColors pixels 0 [] 0 with
  | ScanDone cc tc =>
      counted pixels cc tc /\ (List.length (distinctColors pixels) <= 256)%nat
  | ScanTooManyColors n j =>
      exists pre px post,
        pixels = pre ++ px :: post
        /\ j = List.length pre /\ n = 257
        /\ List.length (distinctColors pre) = 256%nat
        /\ List.length (distinctColors (pre ++ [px])) = 257%nat
        /\ (forall post',
              scanColors (pre ++ px :: post') 0 [] 0 = ScanTooManyColors n j)
  end.
Proof.
  pose proof (scanColors_spec pixels [] [] 0 counted_nil) as H. cbn [List.length app] in H.
  destruct (scanColors pixels 0 [] 0) as [cc tc|n j].
  - destruct H as [Hc Hsz]. split; [exact Hc|].
    destruct Hc as (Hk & _). rewrite <- Hk.
    unfold MAX_COLORS in Hsz. rewrite !size_keys in Hsz. cbn in Hsz. lia.
  - destruct H as (pre & px & post & -> & -> & -> & Hn & Hsz & Hpost).
    exists pre, px, post. unfold MAX_COLORS, size in *. cbn [List.length] in Hsz.
    pose proof (distinctColors_snoc_le pre px).
    assert (Z.of_nat (List.length (distinctColors pre)) <= 256) by (apply Hsz; lia).
    assert (E : List.length (distinctColors (pre ++ [px])) = 257%nat) by lia.
    assert (E0 : List.length (distinctColors pre) = 256%nat) by lia.
    rewrite E in *. repeat split; auto.
Qed.

(** *** The sort *)

Lemma insert_perm {A : Type} (cmp : A -> A -> Z) a l :
  Permutation (JS.insert cmp a l) (a :: l).
Proof.
  induction l as [|b l IH]; cbn; [reflexivity|].
  destruct (0 <? cmp a b); [|reflexivity].
  rewrite IH. apply perm_swap.
Qed.

Lemma sort_perm {A : Type} (cmp : A -> A -> Z) l : Permutation (JS.sort cmp l) l.
Proof.
  unfold JS.sort. induction l as [|a l IH]; cbn; [reflexivity|].
  rewrite insert_perm, IH. reflexivity.
Qed.

Lemma insert_sorted a l :
  StronglySorted Z.ge (map snd l) ->
  StronglySorted Z.ge (map snd (JS.insert byCount a l)).
Proof.
  induction l as [|b l IH]; cbn; intros Hs.
  - repeat constructor.
  - inversion Hs as [|? ? Hs' Hall]; subst. unfold byCount at 1.
    destruct (0 <? snd b - snd a) eqn:E; cbn.
    + apply Z.ltb_lt in E. constructor; [apply IH, Hs'|].
      rewrite Forall_forall in *. intros v Hv.
      apply in_map_iff in Hv as (e & <- & He).
      apply (Permutation_in _ (insert_perm byCount a l)) in He.
      destruct He as [<-|He]; [lia|]. apply Hall, in_map, He.
    + apply Z.ltb_ge in E. constructor; [exact Hs|].
      constructor; [lia|]. rewrite Forall_forall in *. intros v Hv.
      specialize (Hall v Hv). lia.
Qed.

Lemma sort_sorted l : StronglySorted Z.ge (map snd (JS.sort byCount l)).
Proof.
  unfold JS.sort. induction l as [|a l IH]; cbn; [constructor|].
  apply insert_sorted, IH.
Qed.

Lemma insert_stable c a l :
  filter (fun e => snd e =? c) (JS.insert byCount a l)
  = filter (fun e => snd e =? c) (a :: l).
Proof.
  induction l as [|b l IH]; [reflexivity|]. cbn [JS.insert]. unfold byCount at 1.
  destruct (0 <? snd b - snd a) eqn:E; [|reflexivity].
  apply Z.ltb_lt in E. cbn [filter] in *. rewrite IH.
  destruct (Z.eqb_spec (snd a) c), (Z.eqb_spec (snd b) c); try reflexivity. lia.
Qed.

Lemma sort_stable c l :
  filter (fun e => snd e =? c) (JS.sort byCount l) = filter (fun e => snd e =? c) l.
Proof.
  unfold JS.sort. induction l as [|a l IH]; [reflexivity|]. cbn [fold_right].
  rewrite insert_stable. cbn [filter]. rewrite IH. reflexivity.
Qed.

(** *** Storing the palette *)

Lemma store_entries saved l : forall acc,
  NoDup (JS.keys acc ++ map fst l) ->
  fold_left (fun m e => JS.set (fst (entry saved e)) (snd (entry saved e)) m) l acc
  = acc ++ map (entry saved) l.
Proof.
  induction l as [|e l IH]; intros acc Hnd; cbn [fold_left map].
  - symmetry. apply app_nil_r.
  - assert (Hnew : ~ In (fst e) (JS.keys acc)).
    { intros Hin. apply NoDup_remove_2 in Hnd. apply Hnd, in_or_app. auto. }
    cbn [entry fst snd]. rewrite set_new by exact Hnew.
    rewrite IH.
    + rewrite <- app_assoc. reflexivity.
    + unfold JS.keys in *. rewrite map_app, <- app_assoc. exact Hnd.
Qed.

Lemma keys_entries saved l : JS.keys (map (entry saved) l) = map fst l.
Proof. unfold JS.keys. rewrite map_map. reflexivity. Qed.

Lemma counts_entries saved l :
  map count (JS.values (map (entry saved) l)) = map snd l.
Proof. unfold JS.values. rewrite !map_map. reflexivity. Qed.

Lemma total_perm l l' : Permutation l l' -> total l = total l'.
Proof. unfold total. induction 1; cbn; lia. Qed.

(** *** [_analyzeColors] *)

Lemma analyzeColors_done app img cc tc :
  image app = Some img ->
  scanColors (data img) 0 [] 0 = ScanDone cc tc ->
  NoDup (JS.keys cc) ->
  fst (App._analyzeColors app) = Some true
  /\ colorMappings (snd (App._analyzeColors app))
     = map (entry (_loadColorMappings app)) (JS.sort byCount cc)
  /\ transparentPixelCount (snd (App._analyzeColors app)) = tc
  /\ image (snd (App._analyzeColors app)) = Some img
  /\ storedColorMappings (snd (App._analyzeColors app)) = storedColorMappings app.
Proof.
  intros Himg Hscan Hnd. unfold App._analyzeColors. rewrite Himg, Hscan.
  match goal with
  | |- context [fold_left ?f ?l ?acc] =>
      change (fold_left f l acc)
        with (fold_left (fun m e => JS.set (fst (entry (_loadColorMappings app) e))
                                           (snd (entry (_loadColorMappings app) e)) m)
                        (JS.sort byCount cc) [])
  end.
  rewrite store_entries.
  - cbn [List.app]. destruct (_ || _); cbn; auto.
  - cbn [JS.keys map List.app].
    apply (Permutation_NoDup (l := JS.keys cc)); [|exact Hnd].
    unfold JS.keys. apply Permutation_map. symmetry. apply sort_perm.
Qed.

Lemma analyzeColors0_done app img cc tc :
  image app = Some img ->
  scanColors (data img) 0 [] 0 = ScanDone cc tc ->
  NoDup (JS.keys cc) ->
  fst (App0._analyzeColors app) = Some true
  /\ colorMappings (snd (App0._analyzeColors app))
     = map (entry []) (JS.sort byCount cc)
  /\ transparentPixelCount (snd (App0._analyzeColors app)) = tc
  /\ image (snd (App0._analyzeColors app)) = Some img.
Proof.
  intros Himg Hscan Hnd. unfold App0._analyzeColors. rewrite Himg, Hscan.
  match goal with
  | |- context [fold_left ?f ?l ?acc] =>
      change (fold_left f l acc)
        with (fold_left (fun m e => JS.set (fst (entry [] e)) (snd (entry [] e)) m)
                        (JS.sort byCount cc) [])
  end.
  rewrite store_entries.
  - cbn [List.app]. destruct (_ || _); cbn; auto.
  - cbn [JS.keys map List.app].
    apply (Permutation_NoDup (l := JS.keys cc)); [|exact Hnd].
    unfold JS.keys. apply Permutation_map. symmetry. apply sort_perm.
Qed.

Lemma analyzeColors_rejected app img n j :
  image app = Some img ->
  scanColors (data img) 0 [] 0 = ScanTooManyColors n j ->
  App._analyzeColors app
  = (Some false, App.rejectImage n (set_imageData (Some img) app))
  /\ App0._analyzeColors app
     = (Some false, App0.rejectImage n (set_imageData (Some img) app)).
Proof.
  intros Himg Hscan. unfold App._analyzeColors, App0._analyzeColors.
  rewrite Himg, Hscan. auto.
Qed.

Lemma counted_NoDup done cc tc : counted done cc tc -> NoDup (JS.keys cc).
Proof. intros (-> & _). apply NoDup_firstSeen, string_eqb_iff. Qed.

(** C5. When a buffer has more than 256 distinct opaque colours, the
    counting loop stops at the pixel that brings the 257th: the pixels before
    it hold 256 distinct colours, the outcome is the same whatever follows
    that pixel, and [_analyzeColors] (in both revisions) reports the failure
    with 257 colours and leaves the palette empty and no image loaded. *)
Theorem analyzeColors_too_many_colors (app : PNGToOTBMApp) (img : Image) :
  image app = Some img ->
  (256 < List.length (distinctColors (data img)))%nat ->
  exists pre px post,
    data img = pre ++ px :: post
    /\ List.length (distinctColors pre) = 256%nat
    /\ List.length (distinctColors (pre ++ [px])) = 257%nat
    /\ (forall post',
          scanColors (pre ++ px :: post') 0 [] 0
          = ScanTooManyColors 257 (List.length pre))
    /\ fst (App._analyzeColors app) = Some false
    /\ colorMappings (snd (App._analyzeColors app)) = []
    /\ image (snd (App._analyzeColors app)) = None
    /\ imageData (snd (App._analyzeColors app)) = None
    /\ status (snd (App._analyzeColors app)) = StatusTooManyColors 257
    /\ generateBtn_disabled (snd (App._analyzeColors app)) = true
    /\ fst (App0._analyzeColors app) = Some false
    /\ colorMappings (snd (App0._analyzeColors app)) = []
    /\ image (snd (App0._analyzeColors app)) = None.
Proof.
  intros Himg Hmany. pose proof (scanColors_outcome (data img)) as H.
  destruct (scanColors (data img) 0 [] 0) as [cc tc|n j] eqn:Hscan.
  - destruct H as [_ H]. lia.
  - destruct H as (pre & px & post & Hd & -> & -> & H256 & H257 & Hpost).
    destruct (analyzeColors_rejected app img _ _ Himg Hscan) as [E E0].
    exists pre, px, post. rewrite E, E0. cbn. repeat split; auto.
Qed.

(** C6. For a buffer of width x height pixels with at most 256 distinct
    opaque colours, the analysis succeeds, the transparent count is the
    number of pixels whose alpha is below 128, and the pixel counts of the
    palette entries and the transparent count add up to width x height.
    (The limits on the size of the image play no part.) *)
Theorem analyzeColors_counts_every_pixel (app : PNGToOTBMApp) (img : Image) :
  image app = Some img ->
  Z.of_nat (List.length (data img)) = width img * height img ->
  (List.length (distinctColors (data img)) <= 256)%nat ->
  fst (App._analyzeColors app) = Some true
  /\ transparentPixelCount (snd (App._analyzeColors app))
     = transparentPixels (data img)
  /\ total (map count (JS.values (colorMappings (snd (App._analyzeColors app)))))
     + transparentPixelCount (snd (App._analyzeColors app))
     = width img * height img.
Proof.
  intros Himg Hlen Hfew. pose proof (scanColors_outcome (data img)) as H.
  destruct (scanColors (data img) 0 [] 0) as [cc tc|n j] eqn:Hscan.
  - destruct H as [Hc _]. pose proof (counted_NoDup _ _ _ Hc) as Hnd.
    destruct (analyzeColors_done app img cc tc Himg Hscan Hnd)
      as (Hok & Hpal & Htc & _).
    destruct Hc as (_ & _ & Ht & Hsum).
    rewrite Hok, Hpal, Htc, counts_entries. repeat split; [exact Ht|].
    rewrite (total_perm _ (map snd cc)).
    + unfold JS.values in Hsum. lia.
    + apply Permutation_map, sort_perm.
  - destruct H as (pre & px & post & Hd & _ & _ & _ & H257 & _).
    pose proof (distinctColors_prefix (pre ++ [px]) post) as Hle.
    rewrite <- app_assoc in Hle. cbn [List.app] in Hle. rewrite <- Hd in Hle. lia.
Qed.

(** C7. After a successful analysis the palette holds every distinct opaque
    colour once, with its number of pixels; the entries are in descending
    order of that number, and the entries of equal number are in the order in
    which their colours first appear in the scan; analysing again gives the
    same palette. *)
Theorem analyzeColors_palette_order (app : PNGToOTBMApp) (img : Image) :
  image app = Some img ->
  fst (App._analyzeColors app) = Some true ->
  Permutation (JS.keys (colorMappings (snd (App._analyzeColors app))))
              (distinctColors (data img))
  /\ (forall k m, In (k, m) (colorMappings (snd (App._analyzeColors app))) ->
        hex m = k /\ count m = occurrences k (data img))
  /\ StronglySorted Z.ge
       (map count (JS.values (colorMappings (snd (App._analyzeColors app)))))
  /\ (forall c,
        filter (fun k => occurrences k (data img) =? c)
               (JS.keys (colorMappings (snd (App._analyzeColors app))))
        = filter (fun k => occurrences k (data img) =? c)
                 (distinctColors (data img)))
  /\ colorMappings (snd (App._analyzeColors (snd (App._analyzeColors app))))
     = colorMappings (snd (App._analyzeColors app)).
Proof.
  intros Himg Hok. pose proof (scanColors_outcome (data img)) as H.
  destruct (scanColors (data img) 0 [] 0) as [cc tc|n j] eqn:Hscan.
  - destruct H as [Hc _]. pose proof (counted_NoDup _ _ _ Hc) as Hnd.
    destruct (analyzeColors_done app img cc tc Himg Hscan Hnd)
      as (_ & Hpal & _ & Himg' & Hst').
    destruct (analyzeColors_done _ img cc tc Himg' Hscan Hnd) as (_ & Hpal' & _).
    destruct Hc as (Hk & Hcnt & _).
    assert (Hin : forall e, In e (JS.sort byCount cc) -> snd e = occurrences (fst e) (data img)).
    { intros e He. apply Hcnt. eapply Permutation_in; [apply sort_perm | exact He]. }
    rewrite Hpal', Hpal, keys_entries, counts_entries. repeat apply conj.
    + rewrite <- Hk. unfold JS.keys. apply Permutation_map, sort_perm.
    + intros k m Hm. apply in_map_iff in Hm as (e & [= <- <-] & He).
      cbn. split; [reflexivity | apply Hin, He].
    + apply sort_sorted.
    + intros c. rewrite <- Hk. unfold JS.keys. rewrite !filter_map_comm. f_equal.
      rewrite (filter_ext_in _ (fun e => snd e =? c) (JS.sort byCount cc)).
      * rewrite sort_stable. apply filter_ext_in. intros e He.
        rewrite (Hcnt e He). reflexivity.
      * intros e He. rewrite (Hin e He). reflexivity.
    + unfold _loadColorMappings. rewrite Hst'. reflexivity.
  - destruct (analyzeColors_rejected app img _ _ Himg Hscan) as [E _].
    rewrite E in Hok. discriminate.
Qed.

End ColourAnalysis.

(** ** Properties of the tile planner *)

Section TilePlanning.

Import App Palette Planner.

(** *** The lookup map of the planner *)

Lemma get_set {V : Type} (k k' : string) (v : V) m :
  JS.get k (JS.set k' v m) = if String.eqb k k' then Some v else JS.get k m.
Proof.
  induction m as [|[k0 v0] m IH]; cbn.
  - destruct (String.eqb k k'); reflexivity.
  - destruct (String.eqb_spec k' k0) as [->|Hne]; cbn.
    + destruct (String.eqb k k0); reflexivity.
    + rewrite IH. destruct (String.eqb_spec k k0) as [->|Hne'];
        [|reflexivity].
      apply String.eqb_neq in Hne. rewrite String.eqb_sym, Hne. reflexivity.
Qed.

Lemma get_colorToTile_from (l : list (string * Mapping)) : forall acc k,
  NoDup (JS.keys l) ->
  (forall k', In k' (JS.keys l) -> JS.get k' acc = None) ->
  JS.get k (fold_left (fun m e =>
              if 0 <? tileId (snd e) then JS.set (fst e) (tileId (snd e)) m else m)
            l acc)
  = match JS.get k acc with
    | Some v => Some v
    | None =>
        match JS.get k l with
        | Some m => if 0 <? tileId m then Some (tileId m) else None
        | None => None
        end
    end.
Proof.
  unfold JS.keys. induction l as [|[k0 m0] l IH]; intros acc k Hnd Hacc; cbn.
  - destruct (JS.get k acc); reflexivity.
  - inversion Hnd as [|? ? Hk0 Hnd']; subst.
    rewrite IH; [|exact Hnd'|].
    + destruct (0 <? tileId m0) eqn:Hpos.
      * rewrite get_set. destruct (String.eqb_spec k k0) as [->|Hne].
        -- rewrite (Hacc k0) by (cbn; auto). rewrite Hpos. reflexivity.
        -- reflexivity.
      * destruct (String.eqb_spec k k0) as [->|Hne]; [|reflexivity].
        rewrite (Hacc k0) by (cbn; auto). rewrite Hpos.
        destruct (JS.get k0 l) as [m|] eqn:Hg; [|reflexivity].
        exfalso. apply Hk0. apply get_In in Hg.
        change k0 with (fst (k0, m)). apply in_map, Hg.
    + intros k' Hk'. destruct (0 <? tileId m0).
      * rewrite get_set. destruct (String.eqb_spec k' k0) as [->|Hne];
          [contradiction|]. apply Hacc. cbn. auto.
      * apply Hacc. cbn. auto.
Qed.

Lemma get_colorToTile palette k :
  NoDup (JS.keys palette) ->
  JS.get k (colorToTile palette)
  = match JS.get k palette with
    | Some m => if 0 <? tileId m then Some (tileId m) else None
    | None => None
    end.
Proof.
  intros Hnd. unfold colorToTile. rewrite get_colorToTile_from; auto.
Qed.

(** *** The pixel loop *)

Lemma planPixel_tiles pixels w palette tid z offX offY y x p px :
  NoDup (JS.keys palette) ->
  nth_error pixels (Z.to_nat (y * w + x)) = Some px ->
  exists p',
    planPixel pixels w (colorToTile palette) tid z offX offY y x p = Some p'
    /\ Writer.tiles (writer p')
       = Writer.tiles (writer p) ++ placed palette tid z offX offY x y (Some px).
Proof.
  intros Hnd Hpx. unfold planPixel, placed, groundFor. rewrite Hpx.
  fold (pixelKey px). rewrite get_colorToTile by exact Hnd.
  destruct (a px <? 128).
  - destruct (0 <? tid); eexists; split; try reflexivity.
    cbn. rewrite app_nil_r. reflexivity.
  - destruct (JS.get (pixelKey px) palette) as [m|].
    + destruct (0 <? tileId m) eqn:Hpos.
      * apply Z.ltb_lt in Hpos.
        assert ((tileId m =? 0) = false) as -> by (apply Z.eqb_neq; lia).
        eexists; split; reflexivity.
      * eexists; split; [reflexivity|]. cbn. rewrite app_nil_r. reflexivity.
    + eexists; split; [reflexivity|]. cbn. rewrite app_nil_r. reflexivity.
Qed.

Lemma forRange_tiles {S : Type} (T : S -> list Writer.Tile) (f : Z -> list Writer.Tile)
    (n : Z) (body : Z -> S -> option S) :
  (forall i s, 0 <= i < n -> exists s', body i s = Some s' /\ T s' = T s ++ f i) ->
  forall s, exists s', forRange n body s = Some s' /\ T s' = T s ++ flat_map f (range n).
Proof.
  intros Hbody. unfold forRange, range.
  assert (Hin : forall i, In i (seq 0 (Z.to_nat n)) -> 0 <= Z.of_nat i < n).
  { intros i Hi. apply in_seq in Hi. lia. }
  revert Hin. generalize (seq 0 (Z.to_nat n)) as l.
  induction l as [|i l IH]; intros Hin s; cbn [fold_left map flat_map].
  - exists s. rewrite app_nil_r. auto.
  - destruct (Hbody (Z.of_nat i) s) as (s1 & E1 & T1); [apply Hin; cbn; auto|].
    rewrite E1. destruct (IH (fun j Hj => Hin j (or_intror Hj)) s1) as (s2 & E2 & T2).
    exists s2. split; [exact E2|]. rewrite T2, T1, <- app_assoc. reflexivity.
Qed.

Lemma placed_ground palette tid z offX offY x y px t :
  In t (placed palette tid z offX offY x y px) ->
  0 < Writer.groundId t
  /\ exists p, px = Some p /\ groundFor palette tid p = Some (Writer.groundId t).
Proof.
  unfold placed. destruct px as [p|]; [|intros []].
  destruct (groundFor palette tid p) as [g|] eqn:Hg; [|intros []].
  intros [<-|[]]. cbn. split; [|eauto].
  unfold groundFor in Hg. destruct (a p <? 128).
  - destruct (0 <? tid) eqn:E; [|discriminate]. injection Hg as <-.
    apply Z.ltb_lt, E.
  - destruct (JS.get _ palette) as [m|]; [|discriminate].
    destruct (0 <? tileId m) eqn:E; [|discriminate]. injection Hg as <-.
    apply Z.ltb_lt, E.
Qed.

(** C9. On a buffer of width x height pixels and a palette with one entry
    per colour, the pixel loop ends and adds to the writer exactly the tiles
    of the rule, row by row: for a transparent pixel (alpha below 128) a tile
    when the transparent tile id is positive, with that id as ground; for an
    opaque pixel a tile when its palette entry has a positive tile id, with
    that id as ground; for any other pixel nothing.  No tile has ground
    id 0. *)
Theorem planTiles_follows_the_rule
    (pixels : list Pixel) (w h : Z) (palette : list (string * Mapping))
    (transparentTileId z offX offY : Z) (p : Plan) :
  NoDup (JS.keys palette) ->
  0 <= w -> 0 <= h ->
  Z.of_nat (List.length pixels) = w * h ->
  exists p',
    planTiles pixels w h (colorToTile palette) transparentTileId z offX offY p
    = Some p'
    /\ Writer.tiles (writer p')
       = Writer.tiles (writer p)
         ++ plan pixels w h palette transparentTileId z offX offY
    /\ (forall t,
          In t (plan pixels w h palette transparentTileId z offX offY) ->
          Writer.groundId t <> 0
          /\ exists px, In px pixels
               /\ groundFor palette transparentTileId px = Some (Writer.groundId t)).
Proof.
  intros Hnd Hw Hh Hlen.
  assert (Hpx : forall x y, 0 <= x < w -> 0 <= y < h ->
            exists px, nth_error pixels (Z.to_nat (y * w + x)) = Some px).
  { intros x y Hx Hy.
    destruct (nth_error pixels (Z.to_nat (y * w + x))) as [px|] eqn:E; [eauto|].
    apply nth_error_None in E. nia. }
  destruct (forRange_tiles (fun s => Writer.tiles (writer s))
              (fun y => flat_map (fun x =>
                 placed palette transparentTileId z offX offY x y
                        (nth_error pixels (Z.to_nat (y * w + x)))) (range w))
              h
              (fun y => forRange w (fun x =>
                 planPixel pixels w (colorToTile palette) transparentTileId z offX offY y x)))
    with (s := p) as (p' & E & T).
  { intros y s Hy.
    apply (forRange_tiles (fun s => Writer.tiles (writer s))
             (fun x => placed palette transparentTileId z offX offY x y
                         (nth_error pixels (Z.to_nat (y * w + x))))).
    intros x s' Hx.
    destruct (Hpx x y Hx Hy) as (px & Epx). rewrite Epx.
    apply planPixel_tiles; assumption. }
  exists p'. split; [exact E|]. split; [exact T|].
  intros t Ht. unfold plan in Ht.
  apply in_flat_map in Ht as (y & _ & Ht). apply in_flat_map in Ht as (x & _ & Ht).
  apply placed_ground in Ht as (Hpos & px & Epx & Hg).
  split; [lia|]. exists px. split; [|exact Hg].
  eapply nth_error_In, Epx.
Qed.

End TilePlanning.

(** ** The offsets, and the theorems at sample inputs *)

Section Offsets.

Import App Palette Planner.

(** *** The offsets *)

(** The current revision refuses an image that does not fit the map: nothing
    is handed to the download, and unless the run was cancelled at the
    warning dialog the status is the overflow error. *)
Lemma generateOTBM_refuses_overflow (proceed : bool) (app : PNGToOTBMApp)
    (img imgData : Image) :
  image app = Some img ->
  imageData app = Some imgData ->
  65535 < Z.max 0 (orElse (offsetX app) 0) + width img
  \/ 65535 < Z.max 0 (orElse (offsetY app) 0) + height img ->
  fst (App._generateOTBM proceed app) = None
  /\ (snd (App._generateOTBM proceed app) = app
      \/ status (snd (App._generateOTBM proceed app)) = StatusOffsetOverflow).
Proof.
  intros Himg Hdata Hover. unfold App._generateOTBM. rewrite Himg, Hdata.
  destruct (_ && negb proceed); [cbn; auto|].
  cbn [offsetX offsetY set_status].
  assert ((65535 <? Z.max 0 (orElse (offsetX app) 0) + width img)
          || (65535 <? Z.max 0 (orElse (offsetY app) 0) + height img) = true) as ->.
  { apply orb_true_iff. rewrite !Z.ltb_lt. exact Hover. }
  cbn. auto.
Qed.

(** The first revision has no such report: none of its runs ends in the
    overflow status. *)
Lemma generateOTBM0_never_reports_overflow (proceed : bool) (app app' : PNGToOTBMApp)
    (download : option (list Z)) :
  App0._generateOTBM proceed app = Some (download, app') ->
  status app <> StatusOffsetOverflow ->
  status app' <> StatusOffsetOverflow.
Proof.
  intros E Hs.
  apply (f_equal (fun o => match o with
                           | Some (_, a) => status a
                           | None => StatusIdle
                           end)) in E.
  cbv beta iota in E. rewrite <- E. clear E. unfold App0._generateOTBM.
  destruct (image app) as [img|]; [destruct (imageData app) as [imgData|]|];
    try discriminate.
  destruct (_ && negb proceed); [exact Hs|].
  destruct (ClientData.getClientConfig (clientVersion _)) as [cc|]; [|discriminate].
  destruct (ClientData.getOTBVersion (ClientData.otb cc)) as [ov|]; [|discriminate].
  destruct (forRange _ _ _) as [p|]; discriminate.
Qed.

(** The pixel loop is the same in both revisions. *)
Lemma planPixel0_same : App0.planPixel = App.planPixel.
Proof. unfold App0.planPixel, App.planPixel. reflexivity. Qed.

(** C4 fails in the first revision (src/app.js), which has no such check:
    for the 1 x 1 image placed at [offsetX = 65535] it builds the document,
    with the map width 65536 written as 0, where the current revision
    reports the overflow and produces nothing. *)
Theorem generateOTBM_first_revision_ignores_overflow :
  option_map fst (App0._generateOTBM true Examples.atTheEdge)
  = Some (Some
      [79; 84; 66; 77; 254; 1; 2; 0; 0; 0; 0; 0; 1; 0; 2; 0; 0; 0; 7; 0; 0; 0;
       254; 2; 1; 32; 0; 80; 78; 71; 32; 116; 111; 32; 79; 84; 66; 77; 32; 67;
       111; 110; 118; 101; 114; 116; 101; 100; 32; 77; 97; 112; 32; 40; 56; 46;
       48; 48; 41; 254; 4; 0; 253; 255; 0; 0; 7; 254; 5; 253; 255; 0; 9; 100; 0;
       255; 255; 254; 12; 255; 254; 15; 255; 255; 255])
  /\ fst (App._generateOTBM true Examples.atTheEdge) = None
  /\ status (snd (App._generateOTBM true Examples.atTheEdge)) = StatusOffsetOverflow.
Proof. repeat apply conj; vm_compute; reflexivity. Qed.

(** *** The theorems at sample inputs *)

Lemma analyzeColors_too_many_colors_witness :
  image (set_image (Some Examples.manyColors) Examples.blank)
  = Some Examples.manyColors
  /\ (256 < List.length (distinctColors (data Examples.manyColors)))%nat
  /\ fst (App._analyzeColors (set_image (Some Examples.manyColors) Examples.blank))
     = Some false
  /\ colorMappings
       (snd (App._analyzeColors (set_image (Some Examples.manyColors) Examples.blank)))
     = [].
Proof.
  assert (H : (256 < List.length (distinctColors (data Examples.manyColors)))%nat).
  { apply Nat.ltb_lt. vm_compute. reflexivity. }
  split; [reflexivity|]. split; [exact H|].
  destruct (analyzeColors_too_many_colors
              (set_image (Some Examples.manyColors) Examples.blank)
              Examples.manyColors eq_refl H)
    as (pre & px & post & _ & _ & _ & _ & Hfail & Hempty & _).
  split; assumption.
Defined.

Lemma analyzeColors_counts_every_pixel_witness :
  image (set_image (Some Examples.small) Examples.blank) = Some Examples.small
  /\ Z.of_nat (List.length (data Examples.small))
     = width Examples.small * height Examples.small
  /\ (List.length (distinctColors (data Examples.small)) <= 256)%nat
  /\ total (map count (JS.values (colorMappings
        (snd (App._analyzeColors (set_image (Some Examples.small) Examples.blank))))))
     + transparentPixelCount
         (snd (App._analyzeColors (set_image (Some Examples.small) Examples.blank)))
     = 4.
Proof.
  assert (H : (List.length (distinctColors (data Examples.small)) <= 256)%nat).
  { apply Nat.leb_le. vm_compute. reflexivity. }
  split; [reflexivity|]. split; [reflexivity|]. split; [exact H|].
  exact (proj2 (proj2 (analyzeColors_counts_every_pixel
                         (set_image (Some Examples.small) Examples.blank)
                         Examples.small eq_refl eq_refl H))).
Defined.

Lemma analyzeColors_palette_order_witness :
  image (set_image (Some Examples.small) Examples.blank) = Some Examples.small
  /\ fst (App._analyzeColors (set_image (Some Examples.small) Examples.blank))
     = Some true
  /\ StronglySorted Z.ge
       (map count (JS.values (colorMappings
          (snd (App._analyzeColors (set_image (Some Examples.small) Examples.blank)))))).
Proof.
  split; [reflexivity|]. split; [vm_compute; reflexivity|].
  exact (proj1 (proj2 (proj2 (analyzeColors_palette_order
                                (set_image (Some Examples.small) Examples.blank)
                                Examples.small eq_refl eq_refl)))).
Defined.

Lemma groupTiles_partitions_by_cell_witness :
  Forall Spec.inRange Examples.threeTiles
  /\ map Spec.areaCell (JS.values (Writer.groupTiles Examples.threeTiles))
     = [(0, 0, 7); (256, 0, 7)].
Proof.
  assert (H : Forall Spec.inRange Examples.threeTiles).
  { repeat constructor; cbn; lia. }
  split; [exact H|].
  exact (proj1 (groupTiles_partitions_by_cell Examples.threeTiles H)).
Defined.

Lemma planTiles_follows_the_rule_witness :
  NoDup (JS.keys Examples.smallPalette)
  /\ 0 <= 2
  /\ Z.of_nat (List.length (data Examples.small)) = 2 * 2
  /\ exists p',
       planTiles (data Examples.small) 2 2 (colorToTile Examples.smallPalette)
                 0 7 0 0 (mkPlan (Writer.new 2 2 "" 2 2 7) 0 0) = Some p'
       /\ Writer.tiles (writer p')
          = [Writer.mkTile 1 0 7 200 []; Writer.mkTile 0 1 7 200 []].
Proof.
  assert (H : NoDup (JS.keys Examples.smallPalette)).
  { repeat constructor; cbn; intuition discriminate. }
  assert (H0 : 0 <= 2) by lia.
  split; [exact H|]. split; [exact H0|]. split; [reflexivity|].
  destruct (planTiles_follows_the_rule (data Examples.small) 2 2
              Examples.smallPalette 0 7 0 0
              (mkPlan (Writer.new 2 2 "" 2 2 7) 0 0) H H0 H0 eq_refl)
    as (p' & E & T & _).
  exists p'. split; [exact E | exact T].
Defined.

End Offsets.

(** ** Reading the stream back *)

Section ReadingBack.

Import Writer Format Decode.

(** *** Trees and their bytes *)

Lemma Node_induction (P : Node -> Prop) :
  (forall t d cs, Forall P cs -> P (mkNode t d cs)) -> forall n, P n.
Proof.
  intros H. fix IH 1. intros [t d cs]. apply H.
  induction cs as [|c cs IHcs]; constructor; [apply IH | exact IHcs].
Qed.

Lemma stops_readData r : stops r -> readData r = ([], r).
Proof.
  destruct r as [|b r]; [reflexivity|]. cbn [stops readData]. intros Hb.
  apply orb_true_iff in Hb. rewrite !Z.eqb_eq in Hb.
  destruct Hb as [-> | ->]; reflexivity.
Qed.

Lemma readData_escape d r : stops r -> readData (escape d ++ r) = (d, r).
Proof.
  intros Hr. unfold escape, escape1. induction d as [|b d IH]; cbn [flat_map List.app].
  - apply stops_readData, Hr.
  - destruct (special b) eqn:Hs; cbn [List.app readData].
    + change (0xFD =? 0xFD) with true. cbv iota. rewrite IH. reflexivity.
    + apply special_false in Hs as (H1 & H2 & H3).
      rewrite H3, H1, H2. cbn [orb]. rewrite IH. reflexivity.
Qed.

Lemma encode_head n : exists s, encode n = 0xFE :: s.
Proof. destruct n as [t d cs]. cbn. eauto. Qed.

Lemma stops_siblings cs rest : stops (flat_map encode cs ++ 0xFF :: rest).
Proof.
  destruct cs as [|c cs]; [reflexivity|]. cbn [flat_map].
  destruct (encode_head c) as (s & ->). reflexivity.
Qed.

Lemma parseNodes_start fuel s s' :
  s = 0xFE :: s' ->
  parseNodes (S fuel) s
  = match parseNode fuel s with
    | Some (n, r) =>
        match parseNodes fuel r with
        | Some (ns, r') => Some (n :: ns, r')
        | None => None
        end
    | None => None
    end.
Proof. intros ->. reflexivity. Qed.

Lemma parseNodes_children cs :
  Forall (fun c => forall fuel rest, (cost c <= fuel)%nat ->
            parseNode fuel (encode c ++ rest) = Some (c, rest)) cs ->
  forall fuel rest, (costs cs <= fuel)%nat ->
  parseNodes fuel (flat_map encode cs ++ 0xFF :: rest) = Some (cs, 0xFF :: rest).
Proof.
  induction 1 as [|c cs Hc _ IH]; intros fuel rest Hfuel; unfold costs in Hfuel;
    cbn [fold_right] in Hfuel.
  - destruct fuel as [|fuel]; [lia|]. reflexivity.
  - fold (costs cs) in Hfuel.
    destruct fuel as [|fuel]; [lia|]. cbn [flat_map]. rewrite <- app_assoc.
    destruct (encode_head c) as (s & Es).
    rewrite (parseNodes_start fuel _ (s ++ flat_map encode cs ++ 0xFF :: rest))
      by (rewrite Es; reflexivity).
    rewrite Hc by lia. rewrite IH by lia. reflexivity.
Qed.

(** A node is read back from its bytes, whatever follows them. *)
Lemma parseNode_encode n : forall fuel rest,
  (cost n <= fuel)%nat -> parseNode fuel (encode n ++ rest) = Some (n, rest).
Proof.
  induction n as [t d cs IH] using Node_induction. intros fuel rest Hfuel.
  cbn [cost] in Hfuel. fold (costs cs) in Hfuel.
  destruct fuel as [|fuel]; [lia|].
  cbn [encode]. unfold node. cbn [List.app parseNode].
  change (0xFE =? 0xFE) with true. cbv iota.
  rewrite <- !app_assoc. cbn [List.app].
  rewrite readData_escape by apply stops_siblings.
  rewrite (parseNodes_children cs IH) by lia.
  change (0xFF =? 0xFF) with true. reflexivity.
Qed.

Lemma cost_length n : (S (cost n) <= List.length (encode n))%nat.
Proof.
  induction n as [t d cs IH] using Node_induction.
  cbn [cost encode]. fold (costs cs). unfold node.
  cbn [List.app List.length]. rewrite !length_app. cbn [List.length].
  assert (costs cs <= S (List.length (flat_map encode cs)))%nat; [|lia].
  induction IH as [|c cs Hc _ IHcs]; unfold costs; cbn [fold_right flat_map].
  - cbn. lia.
  - fold (costs cs). rewrite length_app. lia.
Qed.

Lemma decode_encode n : decode (magic ++ encode n) = Some n.
Proof.
  unfold decode, magic. cbn [List.app].
  change ((0x4F =? 0x4F) && (0x54 =? 0x54) && (0x42 =? 0x42) && (0x4D =? 0x4D))
    with true. cbv iota.
  pose proof (parseNode_encode n (List.length (encode n)) []) as H.
  rewrite app_nil_r in H. rewrite H; [reflexivity|].
  pose proof (cost_length n). lia.
Qed.

(** *** The document as a tree *)

Lemma flat_map_map {A B C : Type} (f : A -> B) (g : B -> list C) l :
  flat_map g (map f l) = flat_map (fun a => g (f a)) l.
Proof. induction l as [|a l IH]; cbn; congruence. Qed.

Lemma flat_map_ext_all {A B : Type} (f g : A -> list B) l :
  (forall a, f a = g a) -> flat_map f l = flat_map g l.
Proof. intros H. induction l as [|a l IH]; cbn; congruence. Qed.

Lemma encode_itemNode i : encode (itemNode i) = item i.
Proof. cbn. unfold item. rewrite app_nil_r. reflexivity. Qed.

Lemma escape_attr a b : escape [a; b; 9] = escape [a; b] ++ [9].
Proof.
  rewrite escape_two. unfold escape. cbn [flat_map].
  rewrite app_nil_r, app_assoc. reflexivity.
Qed.

Lemma encode_tileNode bx by_ t : encode (tileNode bx by_ t) = tile bx by_ t.
Proof.
  unfold tileNode, tile. cbn [encode]. f_equal.
  rewrite flat_map_map, (flat_map_ext_all _ item) by apply encode_itemNode.
  rewrite escape_app, escape_attr, <- !app_assoc. reflexivity.
Qed.

Lemma encode_areaNode a : encode (areaNode a) = tileArea a.
Proof.
  unfold areaNode, tileArea. cbn [encode]. f_equal.
  rewrite flat_map_map, (flat_map_ext_all _ (tile (areaX a) (areaY a)))
    by apply encode_tileNode.
  rewrite !escape_app, <- !app_assoc. reflexivity.
Qed.

Lemma encode_mapDataNode w : encode (mapDataNode w) = mapData w.
Proof.
  unfold mapDataNode, mapData, lpstring. cbn [encode]. f_equal.
  rewrite !flat_map_app, flat_map_map, (flat_map_ext_all _ tileArea)
    by apply encode_areaNode.
  rewrite !escape_app, <- !app_assoc.
  destruct (2 <=? otbmVersion w); reflexivity.
Qed.

Lemma document_tree w : document w = magic ++ encode (rootNode w).
Proof.
  unfold document, rootNode, rootHeader. cbn [encode flat_map].
  rewrite encode_mapDataNode, !escape_app, app_nil_r, <- !app_assoc. reflexivity.
Qed.

Lemma generate_decodes w : decode (fst (generate w)) = Some (rootNode w).
Proof. rewrite generate_document, document_tree. apply decode_encode. Qed.

(** *** Reading the fields back *)

Lemma le2_value v : 0 <= v <= 65535 -> le_value (le 2 v) = v.
Proof. intros Hv. rewrite (le_value_le 2). apply Z.mod_small. cbn. lia. Qed.

Lemma readItem_itemNode i : 0 <= i <= 65535 -> readItem (itemNode i) = i.
Proof. intros Hi. unfold readItem, itemNode. cbn [data]. apply le2_value, Hi. Qed.

Lemma readTile_tileNode bx by_ tz t :
  0 <= x t - bx <= 255 -> 0 <= y t - by_ <= 255 -> tz = z t ->
  0 <= groundId t <= 65535 ->
  Forall (fun i => 0 <= i <= 65535) (items t) ->
  readTile bx by_ tz (tileNode bx by_ t) = Some t.
Proof.
  intros Hx Hy -> Hg Hi. unfold readTile, tileNode. cbn [data children le List.app].
  change (9 =? 9) with true. cbv iota.
  rewrite !byte_id by lia.
  change (le_value [groundId t mod 256; (groundId t / 256) mod 256])
    with (le_value (le 2 (groundId t))).
  rewrite le2_value by exact Hg. rewrite map_map.
  rewrite (map_ext_in _ (fun i => i)), map_id.
  - destruct t as [tx ty tz g its]. cbn. f_equal. f_equal; lia.
  - intros i Hin. apply readItem_itemNode. rewrite Forall_forall in Hi. auto.
Qed.

Lemma readArea_areaNode a :
  0 <= areaX a <= 65535 -> 0 <= areaY a <= 65535 ->
  (forall t, In t (area_tiles a) ->
     0 <= x t - areaX a <= 255 /\ 0 <= y t - areaY a <= 255
     /\ area_z a = z t /\ fits t) ->
  readArea (areaNode a) = map Some (area_tiles a).
Proof.
  intros Hx Hy Ht. unfold readArea, areaNode. cbn [data children le List.app].
  change (le_value [areaX a mod 256; (areaX a / 256) mod 256])
    with (le_value (le 2 (areaX a))).
  change (le_value [areaY a mod 256; (areaY a / 256) mod 256])
    with (le_value (le 2 (areaY a))).
  rewrite !le2_value by assumption. rewrite map_map.
  apply map_ext_in. intros t Hin.
  destruct (Ht t Hin) as (Ox & Oy & Ez & (_ & _ & Rz & Rg & Ri)).
  apply readTile_tileNode; auto. rewrite Ez. apply byte_id. lia.
Qed.

Lemma band_FF00_range v : 0 <= JS.band v 0xFF00 <= 65535.
Proof.
  unfold JS.band. change (JS.toInt32 0xFF00) with (Z.land 65280 (Z.ones 16)).
  rewrite Z.land_assoc, Z.land_ones by lia.
  pose proof (Z.mod_pos_bound (Z.land (JS.toInt32 v) 65280) (2 ^ 16)). lia.
Qed.

Lemma flat_map_ext_in {A B : Type} (f g : A -> list B) l :
  (forall a, In a l -> f a = g a) -> flat_map f l = flat_map g l.
Proof.
  induction l as [|a l IH]; cbn; intros H; [reflexivity|].
  rewrite H, IH; auto.
Qed.

Lemma map_flat_map {A B C : Type} (f : B -> C) (g : A -> list B) l :
  flat_map (fun a => map f (g a)) l = map f (flat_map g l).
Proof. induction l as [|a l IH]; cbn; [reflexivity|]. rewrite map_app. congruence. Qed.

Lemma filter_areaNodes areas :
  filter (fun n => type n =? 4) (map areaNode areas) = map areaNode areas.
Proof. induction areas as [|a l IH]; cbn; congruence. Qed.

Lemma grouped_area_fits l areas k a :
  Forall fits l -> Grouping.grouped l areas -> In (k, a) areas ->
  0 <= areaX a <= 65535 /\ 0 <= areaY a <= 65535
  /\ forall t, In t (area_tiles a) ->
       0 <= x t - areaX a <= 255 /\ 0 <= y t - areaY a <= 255
       /\ area_z a = z t /\ fits t.
Proof.
  intros Hfit [_ H] Hin. rewrite Forall_forall in Hfit.
  destruct (H k a Hin) as [Ht (t' & Ht' & Hk & Hx & Hy & Hz)].
  rewrite Hx, Hy. split; [apply band_FF00_range|]. split; [apply band_FF00_range|].
  intros t Hin'. rewrite Ht in Hin'. apply filter_In in Hin' as [Hl Ek].
  apply String.eqb_eq in Ek. rewrite <- Hk in Ek. unfold Grouping.tileKey in Ek.
  apply areaKey_inj in Ek as (Ex & Ey & Ez).
  pose proof (Hfit t Hl) as Ft. destruct Ft as (Rx & Ry & Rest).
  rewrite <- Ex, <- Ey, Hz, !band_FF00 by assumption.
  split; [apply offset_range|]. split; [apply offset_range|].
  split; [congruence|]. apply Hfit, Hl.
Qed.

(** X1. The file is read back as the tree of its nodes: the root node with the
    header, in it the map data node with the description, in it one node per
    area with one node per tile, then the towns node and, from version 2 on,
    the waypoints node. *)
Theorem generate_reads_back_as_tree (w : OTBMWriter) :
  decode (fst (generate w)) = Some (rootNode w).
Proof. apply generate_decodes. Qed.

Lemma readHeader_rootNode w :
  readHeader (rootNode w)
  = Some (otbmVersion w mod 2 ^ 32, width w mod 2 ^ 16,
          height w mod 2 ^ 16, otbMajorVersion w mod 2 ^ 32,
          otbMinorVersion w mod 2 ^ 32).
Proof.
  unfold readHeader, rootNode.
  cbn [data le List.app]. f_equal.
  pose proof (le_value_le 4) as H4. pose proof (le_value_le 2) as H2.
  cbn [le Z.of_nat Pos.of_succ_nat Pos.succ] in H4, H2.
  change (256 ^ 4) with (2 ^ 32) in H4. change (256 ^ 2) with (2 ^ 16) in H2.
  rewrite !H4, !H2. reflexivity.
Qed.

(** X2. The header read back from the file holds the five numbers of the writer,
    each reduced to the width of its field. *)
Theorem generate_header_reads_back (w : OTBMWriter) :
  option_map readHeader (decode (fst (generate w)))
  = Some (Some (otbmVersion w mod 2 ^ 32, width w mod 2 ^ 16,
                height w mod 2 ^ 16, otbMajorVersion w mod 2 ^ 32,
                otbMinorVersion w mod 2 ^ 32)).
Proof.
  rewrite generate_decodes. cbn [option_map]. f_equal. apply readHeader_rootNode.
Qed.

(** X3. The description is read back whole when its UTF-8 form is shorter than
    65536 bytes; a longer one is written in full behind a length reduced
    modulo 65536, and cannot be read back. *)
Theorem generate_description_reads_back (w : OTBMWriter) :
  option_map readDescription (decode (fst (generate w)))
  = Some (if Z.of_nat (List.length (JS.encode (description w))) <? 65536
          then Some (JS.encode (description w)) else None).
Proof.
  rewrite generate_decodes. cbn [option_map]. f_equal.
  unfold readDescription, rootNode, mapDataNode. cbn [children data le List.app].
  change (1 =? 1) with true. cbn [andb].
  set (n := Z.of_nat (List.length (JS.encode (description w)))).
  change (le_value [n mod 256; (n / 256) mod 256]) with (le_value (le 2 n)).
  rewrite (le_value_le 2). change (256 ^ Z.of_nat 2) with 65536.
  assert (0 <= n) by (unfold n; lia).
  destruct (Z.ltb_spec n 65536) as [Hlt|Hge].
  - rewrite Z.mod_small, Z.eqb_refl by lia. reflexivity.
  - destruct (Z.eqb_spec (n mod 65536) n) as [E|_]; [|reflexivity].
    pose proof (Z.mod_pos_bound n 65536). lia.
Qed.

Lemma readTiles_rootNode w :
  Forall fits (tiles w) ->
  readTiles (rootNode w) = map Some (Grouping.allTiles (groupTiles (tiles w))).
Proof.
  intros Hfit.
  unfold readTiles, rootNode. cbn [children]. unfold mapDataNode. cbn [children].
  rewrite filter_app, filter_areaNodes.
  assert (filter (fun n => type n =? 4)
            ([mkNode 12 [] []]
             ++ (if 2 <=? otbmVersion w then [mkNode 15 [] []] else [])) = []) as ->
    by (destruct (2 <=? otbmVersion w); reflexivity).
  rewrite app_nil_r, flat_map_map. unfold Grouping.allTiles.
  rewrite <- map_flat_map. apply flat_map_ext_in. intros a Ha.
  apply In_values in Ha as (k & Hin).
  destruct (grouped_area_fits _ _ k a Hfit (groupTiles_grouped (tiles w)) Hin)
    as (Hx & Hy & Ht).
  apply readArea_areaNode; assumption.
Qed.

(** X4. When every tile fits the fields of the format, the tiles read back from
    the file are the tiles of the writer, area by area: all of them, each
    once, with their coordinates, floor, ground id and items. *)
Theorem generate_tiles_read_back (w : OTBMWriter) :
  Forall fits (tiles w) ->
  option_map readTiles (decode (fst (generate w)))
  = Some (map Some (Grouping.allTiles (groupTiles (tiles w))))
  /\ Permutation (Grouping.allTiles (groupTiles (tiles w))) (tiles w).
Proof.
  intros Hfit. split; [|apply groupTiles_perm].
  rewrite generate_decodes. cbn [option_map]. f_equal.
  apply readTiles_rootNode, Hfit.
Qed.

(** *** Generating twice *)

Lemma generate_state w : snd (generate w) = set_buffer (document w) w.
Proof.
  assert (H : snd (generate w) = set_buffer (buffer (snd (generate w))) w).
  { unfold generate, andThen. cbn [snd].
    unfold _endNode. rewrite startNode_push, writeRootHeader_push, writeMapData_push.
    rewrite !push_push. unfold push, set_buffer. cbn. reflexivity. }
  rewrite H, generate_buffer. reflexivity.
Qed.

(** X5. [generate] starts from an empty buffer and leaves the writer with its
    tiles and header fields: a second call returns the same bytes and the
    same writer as the first, and a tile added in between appears in the
    second file as if it had been added before the first call. *)
Theorem generate_starts_afresh (w : OTBMWriter) (x y z groundId : Z) (items : list Z) :
  generate (snd (generate w)) = generate w
  /\ fst (generate (addTile x y z groundId items (snd (generate w))))
     = fst (generate (addTile x y z groundId items w)).
Proof.
  rewrite generate_state. split.
  - unfold generate. reflexivity.
  - rewrite !generate_document. reflexivity.
Qed.

End ReadingBack.

(** ** From the pixels to the file *)

Section FromPixelsToFile.

Import App Palette Planner Pipeline.

(** *** The loop, with its counters *)

Lemma emit_nil p : emit [] 0 p = p.
Proof.
  destruct p as [w tc ttc]. destruct w. unfold emit, Writer.set_tiles. cbn.
  rewrite app_nil_r, !Z.add_0_r. reflexivity.
Qed.

Lemma emit_emit ts1 n1 ts2 n2 p :
  emit ts2 n2 (emit ts1 n1 p) = emit (ts1 ++ ts2) (n1 + n2) p.
Proof.
  unfold emit, Writer.set_tiles. cbn. rewrite length_app, <- app_assoc.
  f_equal; lia.
Qed.

Lemma planPixel_emit pixels w palette tid z offX offY y x p px :
  NoDup (JS.keys palette) ->
  nth_error pixels (Z.to_nat (y * w + x)) = Some px ->
  planPixel pixels w (colorToTile palette) tid z offX offY y x p
  = Some (emit (placed palette tid z offX offY x y (Some px))
               (transparentPlaced tid (Some px)) p).
Proof.
  intros Hnd Hpx. unfold planPixel, placed, groundFor, transparentPlaced.
  rewrite Hpx. fold (pixelKey px). rewrite get_colorToTile by exact Hnd.
  destruct (a px <? 128); cbn [andb].
  - destruct (0 <? tid); [reflexivity|]. rewrite emit_nil. reflexivity.
  - destruct (JS.get (pixelKey px) palette) as [m|];
      [|rewrite emit_nil; reflexivity].
    destruct (0 <? tileId m) eqn:Hpos; [|rewrite emit_nil; reflexivity].
    apply Z.ltb_lt in Hpos.
    assert ((tileId m =? 0) = false) as -> by (apply Z.eqb_neq; lia).
    cbn [negb]. unfold emit, Writer.addTile. cbn [List.length].
    f_equal. f_equal. lia.
Qed.

Lemma forRange_emit (f : Z -> list Writer.Tile) (g : Z -> Z) (n : Z)
    (body : Z -> Plan -> option Plan) :
  (forall i s, 0 <= i < n -> body i s = Some (emit (f i) (g i) s)) ->
  forall s,
    forRange n body s
    = Some (emit (flat_map f (range n)) (total (map g (range n))) s).
Proof.
  intros Hbody. unfold forRange, range.
  assert (Hin : forall i, In i (seq 0 (Z.to_nat n)) -> 0 <= Z.of_nat i < n).
  { intros i Hi. apply in_seq in Hi. lia. }
  revert Hin. generalize (seq 0 (Z.to_nat n)) as l.
  induction l as [|i l IH]; intros Hin s; cbn [fold_left map flat_map total fold_right].
  - rewrite emit_nil. reflexivity.
  - rewrite Hbody by (apply Hin; cbn; auto).
    rewrite IH by (intros j Hj; apply Hin; cbn; auto).
    rewrite emit_emit. reflexivity.
Qed.

Lemma planTiles_emit pixels w h palette tid z offX offY p :
  NoDup (JS.keys palette) ->
  0 <= w -> 0 <= h ->
  Z.of_nat (List.length pixels) = w * h ->
  planTiles pixels w h (colorToTile palette) tid z offX offY p
  = Some (emit (plan pixels w h palette tid z offX offY)
               (total (map (fun y => total (map (fun x =>
                   transparentPlaced tid (nth_error pixels (Z.to_nat (y * w + x))))
                 (range w))) (range h)))
               p).
Proof.
  intros Hnd Hw Hh Hlen. unfold planTiles, plan.
  apply (forRange_emit
           (fun y => flat_map (fun x =>
              placed palette tid z offX offY x y
                     (nth_error pixels (Z.to_nat (y * w + x)))) (range w))
           (fun y => total (map (fun x =>
              transparentPlaced tid (nth_error pixels (Z.to_nat (y * w + x))))
              (range w)))).
  intros y s Hy.
  apply (forRange_emit
           (fun x => placed palette tid z offX offY x y
                       (nth_error pixels (Z.to_nat (y * w + x))))
           (fun x => transparentPlaced tid
                       (nth_error pixels (Z.to_nat (y * w + x))))).
  intros x s' Hx.
  destruct (nth_error pixels (Z.to_nat (y * w + x))) as [px|] eqn:E.
  - apply planPixel_emit; assumption.
  - apply nth_error_None in E. nia.
Qed.

(** *** Rows and indices *)

Lemma seq_from k n : seq k n = map (fun x => (k + x)%nat) (seq 0 n).
Proof.
  revert k. induction n as [|n IH]; intros k; [reflexivity|].
  cbn [seq map]. rewrite Nat.add_0_r. f_equal.
  rewrite (IH (S k)), <- seq_shift, map_map.
  apply map_ext. intros x. lia.
Qed.

Lemma rows_flat {B : Type} (R : nat -> list B) (w h : nat) :
  flat_map (fun y => flat_map (fun x => R (y * w + x)%nat) (seq 0 w)) (seq 0 h)
  = flat_map R (seq 0 (h * w)).
Proof.
  induction h as [|h IH]; [reflexivity|].
  rewrite seq_S, flat_map_app, IH. cbn [flat_map Nat.add]. rewrite app_nil_r.
  replace (S h * w)%nat with (h * w + w)%nat by lia.
  rewrite seq_app, flat_map_app. f_equal. cbn [Nat.add].
  rewrite (seq_from (h * w)), flat_map_map. reflexivity.
Qed.

Lemma range_flat {B : Type} (f : Z -> list B) n :
  flat_map f (range n) = flat_map (fun i => f (Z.of_nat i)) (seq 0 (Z.to_nat n)).
Proof. unfold range. apply flat_map_map. Qed.

Lemma In_range i n : In i (range n) <-> 0 <= i < n.
Proof.
  unfold range. rewrite in_map_iff. split.
  - intros (k & <- & Hk). apply in_seq in Hk. lia.
  - intros Hi. exists (Z.to_nat i). split; [lia | apply in_seq; lia].
Qed.

(** Row by row is index by index. *)
Lemma rows_by_index {B : Type} (R : Z -> list B) (w h : Z) :
  0 <= w -> 0 <= h ->
  flat_map (fun y => flat_map (fun x => R (y * w + x)) (range w)) (range h)
  = flat_map R (range (w * h)).
Proof.
  intros Hw Hh. rewrite !range_flat.
  replace (Z.to_nat (w * h)) with (Z.to_nat h * Z.to_nat w)%nat by nia.
  rewrite <- (rows_flat (fun i => R (Z.of_nat i))).
  apply flat_map_ext_all. intros y. rewrite range_flat.
  apply flat_map_ext_all. intros x. f_equal. nia.
Qed.

Lemma nth_error_all {A : Type} (l : list A) :
  map (nth_error l) (seq 0 (List.length l)) = map Some l.
Proof.
  induction l as [|a l IH]; [reflexivity|].
  cbn [List.length seq map nth_error]. f_equal.
  rewrite <- seq_shift, map_map. exact IH.
Qed.

(** A function of the pixels alone, taken index by index, runs over the
    list of pixels. *)
Lemma by_index_all {A B : Type} (h : option A -> list B) (l : list A) n :
  Z.of_nat (List.length l) = n ->
  flat_map (fun i => h (nth_error l (Z.to_nat i))) (range n)
  = flat_map (fun a => h (Some a)) l.
Proof.
  intros <-. rewrite range_flat, Nat2Z.id.
  rewrite (flat_map_ext_all _ (fun i => h (nth_error l i)))
    by (intros i; rewrite Nat2Z.id; reflexivity).
  rewrite <- (flat_map_map (nth_error l) h), nth_error_all, flat_map_map.
  reflexivity.
Qed.

Lemma plan_by_index pixels w h palette tid z offX offY :
  0 <= w -> 0 <= h ->
  plan pixels w h palette tid z offX offY
  = flat_map (fun i => placed palette tid z offX offY (i mod w) (i / w)
                         (nth_error pixels (Z.to_nat i)))
             (range (w * h)).
Proof.
  intros Hw Hh. unfold plan.
  rewrite <- (rows_by_index (fun i => placed palette tid z offX offY (i mod w) (i / w)
                                        (nth_error pixels (Z.to_nat i)))) by assumption.
  apply flat_map_ext_all. intros y. apply flat_map_ext_in. intros x Hx.
  apply In_range in Hx.
  replace ((y * w + x) mod w) with x; [replace ((y * w + x) / w) with y; [reflexivity|]|].
  - rewrite Z.add_comm, Z.div_add, Z.div_small by lia. lia.
  - rewrite Z.add_comm, Z.mod_add, Z.mod_small by lia. reflexivity.
Qed.

Lemma total_cons a l : total (a :: l) = a + total l.
Proof. reflexivity. Qed.

Lemma total_app l l' : total (l ++ l') = total l + total l'.
Proof. unfold total. induction l as [|a l IH]; cbn; lia. Qed.

Lemma total_flat {A : Type} (f : A -> list Z) l :
  total (flat_map f l) = total (map (fun a => total (f a)) l).
Proof.
  induction l as [|a l IH]; [reflexivity|].
  cbn [flat_map map]. rewrite total_app, IH. reflexivity.
Qed.

Lemma total_singletons {A : Type} (g : A -> Z) l :
  total (map g l) = total (flat_map (fun a => [g a]) l).
Proof.
  rewrite total_flat. f_equal. apply map_ext. intros a. cbn. lia.
Qed.

(** *** What the run places *)

Lemma transparent_total pixels w h tid :
  0 <= w -> 0 <= h ->
  Z.of_nat (List.length pixels) = w * h ->
  total (map (fun y => total (map (fun x =>
      transparentPlaced tid (nth_error pixels (Z.to_nat (y * w + x))))
    (range w))) (range h))
  = if 0 <? tid then transparentPixels pixels else 0.
Proof.
  intros Hw Hh Hlen.
  rewrite (map_ext _ (fun y => total (flat_map (fun x =>
             [transparentPlaced tid (nth_error pixels (Z.to_nat (y * w + x)))])
             (range w))))
    by (intros y; apply total_singletons).
  rewrite <- total_flat.
  rewrite (rows_by_index (fun i => [transparentPlaced tid (nth_error pixels (Z.to_nat i))]))
    by assumption.
  rewrite (by_index_all (fun px => [transparentPlaced tid px])) by exact Hlen.
  unfold transparentPixels, transparentPlaced, opaque. clear Hlen.
  induction pixels as [|px l IH]; cbn [flat_map filter List.app].
  - destruct (0 <? tid); reflexivity.
  - rewrite total_cons, IH, negb_involutive.
    destruct (a px <? 128), (0 <? tid); cbn [andb List.length]; lia.
Qed.

Lemma placed_grounds palette tid z offX offY x y px :
  map Writer.groundId (placed palette tid z offX offY x y (Some px))
  = groundOf palette tid px.
Proof.
  unfold placed, groundOf. destruct (groundFor palette tid px); reflexivity.
Qed.

(** The ground ids of the tiles, in order, are those of the pixels that get
    a tile. *)
Lemma plan_grounds pixels w h palette tid z offX offY :
  0 <= w -> 0 <= h ->
  Z.of_nat (List.length pixels) = w * h ->
  map Writer.groundId (plan pixels w h palette tid z offX offY)
  = flat_map (groundOf palette tid) pixels.
Proof.
  intros Hw Hh Hlen. rewrite plan_by_index by assumption.
  rewrite <- map_flat_map.
  rewrite (flat_map_ext_all _
             (fun i => match nth_error pixels (Z.to_nat i) with
                       | Some px => groundOf palette tid px
                       | None => []
                       end)).
  - rewrite (by_index_all (fun o => match o with
                                    | Some px => groundOf palette tid px
                                    | None => []
                                    end)) by exact Hlen.
    reflexivity.
  - intros i. destruct (nth_error pixels (Z.to_nat i)); [apply placed_grounds|reflexivity].
Qed.

(** *** [_generateOTBM], step by step *)

Lemma generateOTBM_steps (proceed : bool) (app : PNGToOTBMApp) (img imgData : Image) :
  image app = Some img ->
  imageData app = Some imgData ->
  App._generateOTBM proceed app
  = if warns app && negb proceed then (None, app)
    else if (65535 <? offX app + width img) || (65535 <? offY app + height img)
    then (None, set_status StatusOffsetOverflow app)
    else match ClientData.getClientConfig (clientVersion app) with
         | None => (None, set_status StatusInvalidClient app)
         | Some client =>
             match ClientData.getOTBVersion (ClientData.otb client) with
             | None => (None, set_status StatusOtbNotFound app)
             | Some otb =>
                 match planTiles (data imgData) (width img) (height img)
                         (colorToTile (colorMappings app)) (transparentId app)
                         (floor app) (offX app) (offY app)
                         (mkPlan (Writer.new (width img + offX app)
                                    (height img + offY app)
                                    (mapDescription (ClientData.name client))
                                    (ClientData.otbmVersion client)
                                    (ClientData.version otb) (ClientData.id otb)) 0 0) with
                 | None => (None, set_status StatusError app)
                 | Some p =>
                     (Some (fst (Writer.generate (writer p))),
                      set_status (StatusDownloaded
                                    (Z.of_nat (List.length (fst (Writer.generate (writer p)))))
                                    (tileCount p) (transparentTileCount p)) app)
                 end
             end
         end.
Proof.
  intros Himg Hdata. unfold App._generateOTBM. rewrite Himg, Hdata.
  reflexivity.
Qed.

Lemma Forall_exists_zero (l : list Mapping) :
  (0 <? Z.of_nat (List.length (filter (fun m => tileId m =? 0) l))) = true
  <-> Exists (fun m => tileId m = 0) l.
Proof.
  induction l as [|m l IH]; cbn [filter].
  - split; [discriminate | intros H; inversion H].
  - destruct (Z.eqb_spec (tileId m) 0) as [E|E].
    + split; [intros _; left; exact E|].
      intros _. cbn [List.length]. apply Z.ltb_lt. lia.
    + rewrite IH. split; [intros H; right; exact H|].
      intros H. inversion H; [contradiction | assumption].
Qed.

Lemma generateOTBM_run (proceed : bool) (app : PNGToOTBMApp)
    (img imgData : Image) (client : ClientData.Client) (otb : ClientData.OtbVersion) :
  image app = Some img ->
  imageData app = Some imgData ->
  Z.of_nat (List.length (data imgData)) = width img * height img ->
  0 <= width img -> 0 <= height img ->
  NoDup (JS.keys (colorMappings app)) ->
  warns app && negb proceed = false ->
  offX app + width img <= 65535 ->
  offY app + height img <= 65535 ->
  ClientData.getClientConfig (clientVersion app) = Some client ->
  ClientData.getOTBVersion (ClientData.otb client) = Some otb ->
  App._generateOTBM proceed app
  = (Some (Format.document (writerOf app img imgData client otb)),
     set_status
       (StatusDownloaded
          (Z.of_nat (List.length (Format.document (writerOf app img imgData client otb))))
          (Z.of_nat (List.length (tilesOf app img imgData)))
          (if 0 <? transparentId app then transparentPixels (data imgData) else 0))
       app).
Proof.
  intros Himg Hdata Hlen Hw Hh Hnd Hwarn Hx Hy Hclient Hotb.
  rewrite (generateOTBM_steps proceed app img imgData Himg Hdata).
  rewrite Hwarn.
  assert ((65535 <? offX app + width img) || (65535 <? offY app + height img) = false) as ->.
  { apply orb_false_iff. rewrite !Z.ltb_ge. auto. }
  rewrite Hclient, Hotb.
  rewrite planTiles_emit by assumption.
  rewrite transparent_total by assumption.
  unfold emit. cbn [writer tileCount transparentTileCount].
  rewrite generate_document.
  change (Writer.set_tiles _ _) with (writerOf app img imgData client otb).
  rewrite !Z.add_0_l. reflexivity.
Qed.

(** X6. A run that is not refused downloads the document of the planned tiles:
    the map is as wide and high as the image plus the offsets, the
    description names the client, the versions are those of the client, and
    the status reports the size of the file, the number of tiles and the
    number of tiles placed for transparent pixels. *)
Theorem generateOTBM_downloads_the_document (proceed : bool) (app : PNGToOTBMApp)
    (img imgData : Image) (client : ClientData.Client) (otb : ClientData.OtbVersion) :
  image app = Some img ->
  imageData app = Some imgData ->
  Z.of_nat (List.length (data imgData)) = width img * height img ->
  0 <= width img -> 0 <= height img ->
  NoDup (JS.keys (colorMappings app)) ->
  warns app && negb proceed = false ->
  offX app + width img <= 65535 ->
  offY app + height img <= 65535 ->
  ClientData.getClientConfig (clientVersion app) = Some client ->
  ClientData.getOTBVersion (ClientData.otb client) = Some otb ->
  App._generateOTBM proceed app
  = (Some (Format.document (writerOf app img imgData client otb)),
     set_status
       (StatusDownloaded
          (Z.of_nat (List.length (Format.document (writerOf app img imgData client otb))))
          (Z.of_nat (List.length (tilesOf app img imgData)))
          (if 0 <? transparentId app then transparentPixels (data imgData) else 0))
       app).
Proof. exact (generateOTBM_run proceed app img imgData client otb). Qed.

(** *** Where the tiles are, and what they hold *)

Lemma In_plan t pixels w h palette tid z offX offY :
  In t (plan pixels w h palette tid z offX offY) ->
  exists x y px g,
    0 <= x < w /\ 0 <= y < h
    /\ nth_error pixels (Z.to_nat (y * w + x)) = Some px
    /\ groundFor palette tid px = Some g
    /\ t = Writer.mkTile (x + offX) (y + offY) z g [].
Proof.
  unfold plan. intros Hin.
  apply in_flat_map in Hin as (y & Hy & Hin).
  apply in_flat_map in Hin as (x & Hx & Hin).
  apply In_range in Hy, Hx. unfold placed in Hin.
  destruct (nth_error pixels (Z.to_nat (y * w + x))) as [px|] eqn:Epx; [|contradiction].
  destruct (groundFor palette tid px) as [g|] eqn:Eg; [|contradiction].
  destruct Hin as [<-|[]]. exists x, y, px, g. auto.
Qed.

Lemma groundFor_range palette tid px g :
  tid <= 65535 ->
  Forall (fun m => tileId m <= 65535) (JS.values palette) ->
  groundFor palette tid px = Some g -> 1 <= g <= 65535.
Proof.
  intros Htid Hpal. unfold groundFor.
  destruct (a px <? 128).
  - destruct (Z.ltb_spec 0 tid); [|discriminate]. intros [= <-]. lia.
  - destruct (JS.get (pixelKey px) palette) as [m|] eqn:Eget; [|discriminate].
    destruct (Z.ltb_spec 0 (tileId m)); [|discriminate]. intros [= <-].
    apply get_In in Eget. rewrite Forall_forall in Hpal.
    specialize (Hpal m). split; [lia|]. apply Hpal.
    unfold JS.values. apply in_map_iff. exists (pixelKey px, m). auto.
Qed.

Lemma transparentId_range app : 0 <= transparentId app <= 65535.
Proof. unfold transparentId, JS.clamp. lia. Qed.

Lemma floor_range app : 0 <= floor app <= 15.
Proof. unfold floor, JS.clamp. lia. Qed.

Lemma offsets_nonneg app : 0 <= offX app /\ 0 <= offY app.
Proof. unfold offX, offY. lia. Qed.

Lemma tilesOf_shape (app : PNGToOTBMApp) (img imgData : Image) :
  offX app + width img <= 65535 ->
  offY app + height img <= 65535 ->
  Forall (fun m => tileId m <= 65535) (JS.values (colorMappings app)) ->
  Forall (fun t =>
            offX app <= Writer.x t < offX app + width img
            /\ offY app <= Writer.y t < offY app + height img
            /\ Writer.z t = floor app
            /\ 1 <= Writer.groundId t <= 65535
            /\ Writer.items t = [])
         (tilesOf app img imgData).
Proof.
  intros Hx Hy Hpal. apply Forall_forall. intros t Hin.
  apply In_plan in Hin as (x & y & px & g & Hxr & Hyr & _ & Hg & ->).
  apply groundFor_range in Hg; [|apply transparentId_range|exact Hpal].
  cbn. repeat apply conj; try lia; reflexivity.
Qed.

Lemma tilesOf_fits (app : PNGToOTBMApp) (img imgData : Image) :
  offX app + width img <= 65535 ->
  offY app + height img <= 65535 ->
  Forall (fun m => tileId m <= 65535) (JS.values (colorMappings app)) ->
  Forall Decode.fits (tilesOf app img imgData).
Proof.
  intros Hx Hy Hpal.
  eapply Forall_impl; [|apply (tilesOf_shape app img imgData Hx Hy Hpal)].
  intros t (Htx & Hty & Htz & Htg & Hti).
  pose proof (offsets_nonneg app) as [Hox Hoy].
  pose proof (floor_range app) as Hz.
  unfold Decode.fits. rewrite Hti, Htz. repeat apply conj; try lia. constructor.
Qed.

(** X7. The tiles of a run that passed the overflow check fit the fields of the
    file: every tile lies in the rectangle of the image moved by the
    offsets, below coordinate 65535, on the floor chosen (0 to 15), has a
    ground id from 1 to 65535 and no items, provided no palette entry has a
    tile id above 65535. *)
Theorem planned_tiles_fit_the_format (app : PNGToOTBMApp) (img imgData : Image) :
  offX app + width img <= 65535 ->
  offY app + height img <= 65535 ->
  Forall (fun m => tileId m <= 65535) (JS.values (colorMappings app)) ->
  Forall (fun t =>
            (0 <= offX app <= Writer.x t /\ Writer.x t < offX app + width img <= 65535)
            /\ (0 <= offY app <= Writer.y t /\ Writer.y t < offY app + height img <= 65535)
            /\ (Writer.z t = floor app /\ 0 <= Writer.z t <= 15)
            /\ 1 <= Writer.groundId t <= 65535
            /\ Writer.items t = []
            /\ Spec.inRange t)
         (tilesOf app img imgData).
Proof.
  intros Hx Hy Hpal.
  eapply Forall_impl; [|apply (tilesOf_shape app img imgData Hx Hy Hpal)].
  intros t (Htx & Hty & Htz & Htg & Hti).
  pose proof (offsets_nonneg app) as [Hox Hoy].
  pose proof (floor_range app) as Hz.
  unfold Spec.inRange. rewrite Htz. repeat apply conj; try lia; try assumption; reflexivity.
Qed.

(** The position of a tile tells its pixel. *)

Lemma filter_flat_map {A B : Type} (p : B -> bool) (f : A -> list B) l :
  filter p (flat_map f l) = flat_map (fun a => filter p (f a)) l.
Proof.
  induction l as [|a l IH]; [reflexivity|].
  cbn [flat_map]. rewrite filter_app, IH. reflexivity.
Qed.

Lemma flat_map_nil {A B : Type} (f : A -> list B) l :
  (forall a, In a l -> f a = []) -> flat_map f l = [].
Proof.
  induction l as [|a l IH]; intros H; [reflexivity|].
  cbn [flat_map]. rewrite (H a), IH; auto using in_eq, in_cons.
Qed.

Lemma flat_map_only {A B : Type} (f : A -> list B) (a0 : A) l :
  NoDup l -> In a0 l ->
  (forall a, In a l -> a <> a0 -> f a = []) ->
  flat_map f l = f a0.
Proof.
  induction l as [|a l IH]; intros Hnd Hin Hf; [contradiction|].
  inversion Hnd as [|? ? Hna Hnd']; subst. cbn [flat_map].
  destruct Hin as [->|Hin].
  - rewrite flat_map_nil; [apply app_nil_r|].
    intros a Ha. apply Hf; [right; exact Ha|]. intros ->. contradiction.
  - rewrite (Hf a); [|left; reflexivity|intros ->; contradiction].
    cbn [List.app]. apply IH; auto using in_cons.
Qed.

Lemma NoDup_range n : NoDup (range n).
Proof.
  unfold range. apply Finite.Injective_map_NoDup; [|apply seq_NoDup].
  intros i j. apply Nat2Z.inj.
Qed.

Lemma filter_placed_here palette tid z offX offY x y px :
  filter (fun t => (Writer.x t =? x + offX) && (Writer.y t =? y + offY))
         (placed palette tid z offX offY x y px)
  = placed palette tid z offX offY x y px.
Proof.
  unfold placed. destruct px as [px|]; [|reflexivity].
  destruct (groundFor palette tid px); [|reflexivity].
  cbn. rewrite !Z.eqb_refl. reflexivity.
Qed.

Lemma filter_placed_elsewhere palette tid z offX offY x y x' y' px :
  (x', y') <> (x, y) ->
  filter (fun t => (Writer.x t =? x + offX) && (Writer.y t =? y + offY))
         (placed palette tid z offX offY x' y' px)
  = [].
Proof.
  intros Hne. unfold placed. destruct px as [px|]; [|reflexivity].
  destruct (groundFor palette tid px); [|reflexivity].
  cbn. destruct (Z.eqb_spec (x' + offX) (x + offX)); [|reflexivity].
  destruct (Z.eqb_spec (y' + offY) (y + offY)); [|reflexivity].
  exfalso. apply Hne. f_equal; lia.
Qed.

Lemma plan_at pixels w h palette tid z offX offY x y :
  0 <= x < w -> 0 <= y < h ->
  filter (fun t => (Writer.x t =? x + offX) && (Writer.y t =? y + offY))
         (plan pixels w h palette tid z offX offY)
  = placed palette tid z offX offY x y (nth_error pixels (Z.to_nat (y * w + x))).
Proof.
  intros Hx Hy. unfold plan. rewrite filter_flat_map.
  rewrite (flat_map_only _ y); [|apply NoDup_range|apply In_range; exact Hy|].
  - rewrite filter_flat_map.
    rewrite (flat_map_only _ x); [|apply NoDup_range|apply In_range; exact Hx|].
    + apply filter_placed_here.
    + intros x' _ Hne. apply filter_placed_elsewhere. congruence.
  - intros y' _ Hne. rewrite filter_flat_map. apply flat_map_nil.
    intros x' _. apply filter_placed_elsewhere. congruence.
Qed.

(** X8. At the map position of the pixel in column [x] of row [y] a run places
    the tile of that pixel and no other: a tile with the transparent id for
    a transparent pixel, with the id of its colour for an opaque one,
    nothing when that id is not positive; so no position gets two tiles. *)
Theorem one_tile_per_pixel (app : PNGToOTBMApp) (img imgData : Image) (x y : Z) :
  0 <= x < width img -> 0 <= y < height img ->
  filter (fun t => (Writer.x t =? x + offX app) && (Writer.y t =? y + offY app))
         (tilesOf app img imgData)
  = match nth_error (data imgData) (Z.to_nat (y * width img + x)) with
    | Some px =>
        match groundFor (colorMappings app) (transparentId app) px with
        | Some g => [Writer.mkTile (x + offX app) (y + offY app) (floor app) g []]
        | None => []
        end
    | None => []
    end.
Proof.
  intros Hx Hy. unfold tilesOf. rewrite plan_at by assumption. reflexivity.
Qed.

(** *** The file of a run, read back *)

(** X9. The file that a run downloads reads back as the planned tiles: decoding
    it and reading its areas gives every planned tile once, with its
    position, floor and ground id, grouped by area. *)
Theorem downloaded_file_reads_back (proceed : bool) (app : PNGToOTBMApp)
    (img imgData : Image) (client : ClientData.Client) (otb : ClientData.OtbVersion) :
  image app = Some img ->
  imageData app = Some imgData ->
  Z.of_nat (List.length (data imgData)) = width img * height img ->
  0 <= width img -> 0 <= height img ->
  NoDup (JS.keys (colorMappings app)) ->
  Forall (fun m => tileId m <= 65535) (JS.values (colorMappings app)) ->
  warns app && negb proceed = false ->
  offX app + width img <= 65535 ->
  offY app + height img <= 65535 ->
  ClientData.getClientConfig (clientVersion app) = Some client ->
  ClientData.getOTBVersion (ClientData.otb client) = Some otb ->
  exists file read,
    fst (App._generateOTBM proceed app) = Some file
    /\ option_map Decode.readTiles (Decode.decode file) = Some (map Some read)
    /\ Permutation read (tilesOf app img imgData)
    /\ option_map Decode.readHeader (Decode.decode file)
       = Some (Some (ClientData.otbmVersion client mod 2 ^ 32,
                     width img + offX app, height img + offY app,
                     ClientData.version otb mod 2 ^ 32,
                     ClientData.id otb mod 2 ^ 32)).
Proof.
  intros Himg Hdata Hlen Hw Hh Hnd Hpal Hwarn Hx Hy Hclient Hotb.
  exists (Format.document (writerOf app img imgData client otb)).
  exists (Grouping.allTiles (Writer.groupTiles (tilesOf app img imgData))).
  rewrite (generateOTBM_run proceed app img imgData client otb) by assumption.
  cbn [fst].
  rewrite <- (generate_document (writerOf app img imgData client otb)).
  rewrite generate_decodes. cbn [option_map].
  pose proof (offsets_nonneg app) as [Hox Hoy].
  repeat apply conj.
  - reflexivity.
  - f_equal. apply (readTiles_rootNode (writerOf app img imgData client otb)).
    apply tilesOf_fits; assumption.
  - apply (groupTiles_perm (tilesOf app img imgData)).
  - rewrite (readHeader_rootNode (writerOf app img imgData client otb)).
    cbn [writerOf Writer.otbmVersion Writer.width Writer.height
         Writer.otbMajorVersion Writer.otbMinorVersion].
    rewrite !(Z.mod_small (_ + _) (2 ^ 16)) by lia. reflexivity.
Qed.

(** *** How many tiles *)

Lemma length_groundOf palette tid pixels :
  List.length (flat_map (groundOf palette tid) pixels)
  = List.length (filter (getsTile palette tid) pixels).
Proof.
  induction pixels as [|px l IH]; [reflexivity|].
  cbn [flat_map filter]. rewrite length_app, IH.
  unfold groundOf, getsTile. destruct (groundFor palette tid px); reflexivity.
Qed.

Lemma tilesOf_length (app : PNGToOTBMApp) (img imgData : Image) :
  0 <= width img -> 0 <= height img ->
  Z.of_nat (List.length (data imgData)) = width img * height img ->
  List.length (tilesOf app img imgData)
  = List.length (filter (getsTile (colorMappings app) (transparentId app)) (data imgData)).
Proof.
  intros Hw Hh Hlen. rewrite <- length_groundOf.
  rewrite <- (plan_grounds (data imgData) (width img) (height img) (colorMappings app)
                (transparentId app) (floor app) (offX app) (offY app)) by assumption.
  rewrite length_map. reflexivity.
Qed.

Lemma total_map_add {A : Type} (f g : A -> Z) l :
  total (map (fun a => f a + g a) l) = total (map f l) + total (map g l).
Proof.
  induction l as [|a l IH]; [reflexivity|].
  cbn [map]. rewrite !total_cons, IH. lia.
Qed.

Lemma total_map_zero {A : Type} (f : A -> Z) l :
  (forall a, f a = 0) -> total (map f l) = 0.
Proof.
  intros H. induction l as [|a l IH]; [reflexivity|].
  cbn [map]. rewrite total_cons, H, IH. reflexivity.
Qed.

(** Among entries with distinct keys at most one has the key [k]. *)
Lemma hits_one (sel : Mapping -> bool) (k : string) (palette : list (string * Mapping)) :
  NoDup (JS.keys palette) ->
  total (map (fun e => if String.eqb k (fst e) then 1 else 0)
             (filter (fun e => sel (snd e)) palette))
  = match JS.get k palette with
    | Some m => if sel m then 1 else 0
    | None => 0
    end.
Proof.
  induction palette as [|[k' m] rest IH]; intros Hnd; [reflexivity|].
  unfold JS.keys in Hnd. cbn [map fst] in Hnd.
  inversion Hnd as [|? ? Hk Hnd']; subst.
  specialize (IH Hnd'). cbn [filter snd JS.get].
  destruct (String.eqb_spec k k') as [->|Hne].
  - apply get_None_keys in Hk. rewrite Hk in IH.
    destruct (sel m).
    + cbn [map fst]. rewrite total_cons, String.eqb_refl, IH. reflexivity.
    + exact IH.
  - destruct (sel m); [|exact IH].
    cbn [map fst]. rewrite total_cons, IH.
    destruct (String.eqb_spec k k'); [contradiction|]. reflexivity.
Qed.

Lemma occurrences_cons k px l :
  occurrences k (px :: l)
  = (if opaque px && String.eqb (pixelKey px) k then 1 else 0) + occurrences k l.
Proof.
  unfold occurrences, opaqueKeys. cbn [filter].
  destruct (opaque px); cbn [andb map count_occ]; [|lia].
  destruct (string_dec (pixelKey px) k) as [->|Hne].
  - rewrite String.eqb_refl. lia.
  - destruct (String.eqb_spec (pixelKey px) k); [contradiction|]. lia.
Qed.

Lemma transparentPixels_cons px l :
  transparentPixels (px :: l)
  = (if opaque px then 0 else 1) + transparentPixels l.
Proof.
  unfold transparentPixels. cbn [filter].
  destruct (opaque px); cbn [negb List.length]; lia.
Qed.

(** The pixels that get a tile, counted colour by colour. *)
Lemma getsTile_count palette tid pixels :
  NoDup (JS.keys palette) ->
  Z.of_nat (List.length (filter (getsTile palette tid) pixels))
  = total (map (fun e => occurrences (fst e) pixels)
               (filter (fun e => 0 <? tileId (snd e)) palette))
    + (if 0 <? tid then transparentPixels pixels else 0).
Proof.
  intros Hnd. induction pixels as [|px l IH].
  - cbn [filter List.length].
    rewrite total_map_zero by reflexivity.
    destruct (0 <? tid); reflexivity.
  - rewrite (map_ext _ (fun e => (if opaque px && String.eqb (pixelKey px) (fst e)
                                   then 1 else 0) + occurrences (fst e) l))
      by (intros e; apply occurrences_cons).
    rewrite total_map_add, transparentPixels_cons.
    cbn [filter]. unfold getsTile at 1. unfold groundFor, opaque.
    destruct (a px <? 128) eqn:Ea; cbn [negb andb].
    + rewrite total_map_zero by reflexivity.
      destruct (0 <? tid); cbn [List.length]; lia.
    + rewrite (hits_one (fun m => 0 <? tileId m)) by exact Hnd.
      destruct (JS.get (pixelKey px) palette) as [m|]; [|destruct (0 <? tid); lia].
      destruct (0 <? tileId m), (0 <? tid); cbn [List.length]; lia.
Qed.

Lemma total_filter_values (f : Mapping -> Z) (g : string * Mapping -> Z)
    (sel : Mapping -> bool) (palette : list (string * Mapping)) :
  (forall k m, In (k, m) palette -> f m = g (k, m)) ->
  total (map f (filter sel (JS.values palette)))
  = total (map g (filter (fun e => sel (snd e)) palette)).
Proof.
  induction palette as [|[k m] rest IH]; intros H; [reflexivity|].
  unfold JS.values in *. cbn [map filter snd].
  destruct (sel m); cbn [map]; rewrite ?total_cons, IH;
    try (intros k' m' Hin; apply H; right; exact Hin).
  - rewrite (H k m) by (left; reflexivity). reflexivity.
  - reflexivity.
Qed.

(** X10. The number of tiles of a run is the sum of the pixel counts of the
    palette entries that have a tile id, plus the number of transparent
    pixels when the transparent tile id is set. *)
Theorem tile_count_matches_the_palette (app : PNGToOTBMApp) (img imgData : Image) :
  0 <= width img -> 0 <= height img ->
  Z.of_nat (List.length (data imgData)) = width img * height img ->
  analysed (colorMappings app) (transparentPixelCount app) (data imgData) ->
  Z.of_nat (List.length (tilesOf app img imgData))
  = total (map count (mapped (colorMappings app)))
    + (if 0 <? transparentId app then transparentPixelCount app else 0).
Proof.
  intros Hw Hh Hlen (Hkeys & Hcount & Htrans).
  assert (Hnd : NoDup (JS.keys (colorMappings app))).
  { eapply Permutation_NoDup; [symmetry; exact Hkeys|].
    apply NoDup_firstSeen, string_eqb_iff. }
  rewrite tilesOf_length by assumption.
  rewrite getsTile_count by exact Hnd. rewrite Htrans. f_equal.
  unfold mapped. symmetry.
  apply (total_filter_values count (fun e => occurrences (fst e) (data imgData))).
  exact Hcount.
Qed.

(** *** The confirmation *)

Lemma filter_all {A : Type} (p : A -> bool) l :
  List.length (filter p l) = List.length l <-> forall a, In a l -> p a = true.
Proof.
  induction l as [|a l IH]; cbn [filter List.length].
  - split; [intros _ a []|reflexivity].
  - pose proof (filter_length_le p l) as Hle.
    destruct (p a) eqn:Ea; cbn [List.length].
    + split.
      * intros E a' [<-|Hin]; [exact Ea|]. apply IH; [lia|exact Hin].
      * intros H. f_equal. apply IH. intros a' Hin. apply H. right. exact Hin.
    + split; [lia|]. intros H. specialize (H a (or_introl eq_refl)). congruence.
Qed.

Lemma In_distinctColors_pixel k pixels :
  In k (distinctColors pixels)
  <-> exists px, In px pixels /\ opaque px = true /\ pixelKey px = k.
Proof.
  unfold distinctColors. rewrite (In_firstSeen String.eqb string_eqb_iff).
  unfold opaqueKeys. rewrite in_map_iff. split.
  - intros (px & E & Hin). apply filter_In in Hin as [Hin Hop]. eauto.
  - intros (px & Hin & Hop & E). exists px. split; [exact E|].
    apply filter_In. auto.
Qed.

Lemma transparentPixels_pos pixels :
  0 < transparentPixels pixels <-> exists px, In px pixels /\ opaque px = false.
Proof.
  unfold transparentPixels. induction pixels as [|px l IH]; cbn [filter].
  - cbn. split; [lia|intros (px & [] & _)].
  - destruct (opaque px) eqn:Eo; cbn [negb List.length].
    + rewrite IH. split.
      * intros (p & Hin & Hp). exists p. auto using in_cons.
      * intros (p & [<-|Hin] & Hp); [congruence|eauto].
    + split; [intros _; exists px; auto using in_eq|lia].
Qed.

Lemma warns_false app :
  warns app = false
  <-> Forall (fun m => tileId m <> 0) (JS.values (colorMappings app))
      /\ (transparentPixelCount app <= 0 \/ transparentId app <> 0).
Proof.
  unfold warns. rewrite orb_false_iff, andb_false_iff, Z.eqb_neq.
  rewrite (Z.ltb_ge 0 (transparentPixelCount app)).
  rewrite <- not_true_iff_false, Forall_exists_zero.
  rewrite Forall_forall, Exists_exists. split.
  - intros [H Ht]. split; [|exact Ht]. intros m Hin E. apply H. eauto.
  - intros [H Ht]. split; [|exact Ht]. intros (m & Hin & E). exact (H m Hin E).
Qed.

Lemma every_pixel_placed (app : PNGToOTBMApp) (pixels : list Pixel) :
  analysed (colorMappings app) (transparentPixelCount app) pixels ->
  Forall (fun m => 0 <= tileId m) (JS.values (colorMappings app)) ->
  warns app = false
  <-> forall px, In px pixels -> getsTile (colorMappings app) (transparentId app) px = true.
Proof.
  intros (Hkeys & _ & Htrans) Hpos.
  assert (Hnd : NoDup (JS.keys (colorMappings app))).
  { eapply Permutation_NoDup; [symmetry; exact Hkeys|].
    apply NoDup_firstSeen, string_eqb_iff. }
  pose proof (transparentId_range app) as Htid.
  rewrite Forall_forall in Hpos.
  rewrite warns_false, Forall_forall. split.
  - intros [Hids Htr] px Hin. unfold getsTile, groundFor.
    destruct (a px <? 128) eqn:Ea.
    + assert (0 < transparentPixelCount app).
      { rewrite Htrans. apply transparentPixels_pos. exists px.
        unfold opaque. rewrite Ea. auto. }
      destruct (Z.ltb_spec 0 (transparentId app)); [reflexivity|lia].
    + assert (Hk : In (pixelKey px) (JS.keys (colorMappings app))).
      { eapply Permutation_in; [symmetry; exact Hkeys|].
        apply In_distinctColors_pixel. exists px. unfold opaque. rewrite Ea. auto. }
      destruct (JS.get (pixelKey px) (colorMappings app)) as [m|] eqn:Eg;
        [|apply get_None_keys in Eg; contradiction].
      apply get_In in Eg.
      assert (Hm : In m (JS.values (colorMappings app)))
        by (apply In_values; eauto).
      specialize (Hids m Hm). specialize (Hpos m Hm).
      destruct (Z.ltb_spec 0 (tileId m)); [reflexivity|lia].
  - intros Hall. split.
    + intros m Hm E. apply In_values in Hm as (k & Hin).
      assert (Hk : In k (distinctColors pixels)).
      { eapply Permutation_in; [exact Hkeys|].
        unfold JS.keys. apply in_map_iff. exists (k, m). auto. }
      apply In_distinctColors_pixel in Hk as (px & Hpx & Hop & <-).
      specialize (Hall px Hpx). unfold getsTile, groundFor in Hall.
      unfold opaque in Hop. apply negb_true_iff in Hop. rewrite Hop in Hall.
      rewrite (In_get _ _ _ Hnd Hin), E in Hall. discriminate.
    + destruct (Z.leb_spec (transparentPixelCount app) 0) as [Hle|Hgt]; [left; exact Hle|].
      right. intros E. rewrite Htrans in Hgt.
      apply transparentPixels_pos in Hgt as (px & Hpx & Hop).
      specialize (Hall px Hpx). unfold getsTile, groundFor in Hall.
      unfold opaque in Hop. apply negb_false_iff in Hop. rewrite Hop, E in Hall.
      discriminate.
Qed.

(** X11. For a palette that is the analysis of the buffer, with no negative tile
    id, the confirmation is asked for exactly when some pixel would get no
    tile: without it the run places one tile for every pixel. *)
Theorem confirmation_asked_iff_pixels_are_skipped (app : PNGToOTBMApp)
    (img imgData : Image) :
  0 <= width img -> 0 <= height img ->
  Z.of_nat (List.length (data imgData)) = width img * height img ->
  analysed (colorMappings app) (transparentPixelCount app) (data imgData) ->
  Forall (fun m => 0 <= tileId m) (JS.values (colorMappings app)) ->
  warns app = false
  <-> Z.of_nat (List.length (tilesOf app img imgData)) = width img * height img.
Proof.
  intros Hw Hh Hlen Han Hpos.
  rewrite (every_pixel_placed app (data imgData) Han Hpos).
  rewrite tilesOf_length, <- Hlen by assumption.
  rewrite <- filter_all. split; [intros ->; reflexivity|apply Nat2Z.inj].
Qed.

(** X12. When the confirmation is asked for and refused, nothing is generated and
    the application is left as it was, status included; when it is not asked
    for, the answer does not matter. *)
Theorem generateOTBM_cancelled_changes_nothing (app : PNGToOTBMApp)
    (img imgData : Image) :
  image app = Some img ->
  imageData app = Some imgData ->
  (warns app = true -> App._generateOTBM false app = (None, app))
  /\ (warns app = false -> App._generateOTBM false app = App._generateOTBM true app).
Proof.
  intros Himg Hdata.
  rewrite !(generateOTBM_steps _ app img imgData Himg Hdata).
  split; intros ->; reflexivity.
Qed.

(** *** Loading an image *)

Lemma analyzeColors_state app img cc tc :
  image app = Some img ->
  scanColors (data img) 0 [] 0 = ScanDone cc tc ->
  NoDup (JS.keys cc) ->
  App._analyzeColors app
  = (Some true,
     let app' :=
       set_transparentPixelCount tc
         (set_colorMappings (map (entry (_loadColorMappings app)) (JS.sort byCount cc))
            (set_filteredColors None
               (set_colorMappings [] (set_imageData (Some img) app)))) in
     if (0 <? size (colorMappings app')) || (0 <? tc)
     then set_generateBtn_disabled false app' else app').
Proof.
  intros Himg Hscan Hnd. unfold App._analyzeColors. rewrite Himg, Hscan.
  match goal with
  | |- context [fold_left ?f ?l ?acc] =>
      change (fold_left f l acc)
        with (fold_left (fun m e => JS.set (fst (entry (_loadColorMappings app) e))
                                           (snd (entry (_loadColorMappings app) e)) m)
                        (JS.sort byCount cc) [])
  end.
  rewrite store_entries.
  - reflexivity.
  - cbn [JS.keys map List.app].
    apply (Permutation_NoDup (l := JS.keys cc)); [|exact Hnd].
    unfold JS.keys. apply Permutation_map. symmetry. apply sort_perm.
Qed.

Lemma scan_few pixels :
  (List.length (distinctColors pixels) <= 256)%nat ->
  exists cc tc, scanColors pixels 0 [] 0 = ScanDone cc tc /\ counted pixels cc tc.
Proof.
  intros Hfew. pose proof (scanColors_outcome pixels) as H.
  destruct (scanColors pixels 0 [] 0) as [cc tc|n j].
  - exists cc, tc. split; [reflexivity|apply H].
  - destruct H as (pre & px & post & Hd & _ & _ & _ & H257 & _).
    pose proof (distinctColors_prefix (pre ++ [px]) post) as Hle.
    rewrite <- app_assoc in Hle. cbn [List.app] in Hle. rewrite <- Hd in Hle. lia.
Qed.

Lemma scan_many pixels :
  (256 < List.length (distinctColors pixels))%nat ->
  exists j, scanColors pixels 0 [] 0 = ScanTooManyColors 257 j.
Proof.
  intros Hmany. pose proof (scanColors_outcome pixels) as H.
  destruct (scanColors pixels 0 [] 0) as [cc tc|n j].
  - destruct H as [_ H]. lia.
  - destruct H as (pre & px & post & _ & _ & -> & _). exists j. reflexivity.
Qed.

Lemma checkImageComplexity_accepts w h :
  _checkImageComplexity w h = None
  <-> w <= 4500 /\ h <= 4500 /\ w * h <= 13500000.
Proof.
  unfold _checkImageComplexity.
  destruct (Z.ltb_spec 4500 w), (Z.ltb_spec 4500 h); cbn [orb];
    try (split; [discriminate|lia]).
  destruct (Z.ltb_spec 13500000 (w * h)); split; try discriminate; try lia; auto.
Qed.

(** X14. An image within the limits, with at most 256 opaque colours, is loaded:
    it becomes the image of the application, the palette and the count of
    transparent pixels are its analysis, every colour gets the tile id
    stored for it (0 when none is), the filter is cleared, the status says
    so, and the generate button is enabled as soon as the image has a
    pixel. *)
Theorem loadImage_accepts (img : Image) (app : PNGToOTBMApp) :
  width img <= 4500 -> height img <= 4500 ->
  width img * height img <= 13500000 ->
  (List.length (distinctColors (data img)) <= 256)%nat ->
  image (_loadImage img app) = Some img
  /\ imageData (_loadImage img app) = Some img
  /\ status (_loadImage img app) = StatusLoaded
  /\ filteredColors (_loadImage img app) = None
  /\ analysed (colorMappings (_loadImage img app))
              (transparentPixelCount (_loadImage img app)) (data img)
  /\ (forall k m, In (k, m) (colorMappings (_loadImage img app)) ->
        hex m = k
        /\ tileId m = match JS.get k (_loadColorMappings app) with
                      | Some t => t
                      | None => 0
                      end)
  /\ (data img <> [] -> generateBtn_disabled (_loadImage img app) = false).
Proof.
  intros Hw Hh Hwh Hfew. unfold _loadImage.
  assert (_checkImageComplexity (width img) (height img) = None) as ->
    by (apply checkImageComplexity_accepts; auto).
  destruct (scan_few (data img) Hfew) as (cc & tc & Hscan & Hc).
  pose proof (counted_NoDup _ _ _ Hc) as Hnd.
  rewrite (analyzeColors_state (set_image (Some img) app) img cc tc eq_refl Hscan Hnd).
  cbv zeta.
  change (_loadColorMappings (set_image (Some img) app)) with (_loadColorMappings app).
  set (palette := map (entry (_loadColorMappings app)) (JS.sort byCount cc)).
  assert (Hfields : forall b : bool,
    let app' := set_status StatusLoaded
                  (if b then set_generateBtn_disabled false
                              (set_transparentPixelCount tc
                                 (set_colorMappings palette
                                    (set_filteredColors None
                                       (set_colorMappings []
                                          (set_imageData (Some img)
                                             (set_image (Some img) app))))))
                   else set_transparentPixelCount tc
                          (set_colorMappings palette
                             (set_filteredColors None
                                (set_colorMappings []
                                   (set_imageData (Some img)
                                      (set_image (Some img) app)))))) in
    image app' = Some img /\ imageData app' = Some img /\ status app' = StatusLoaded
    /\ filteredColors app' = None /\ colorMappings app' = palette
    /\ transparentPixelCount app' = tc
    /\ generateBtn_disabled app' = if b then false else generateBtn_disabled app).
  { intros [|]; cbn; auto 10. }
  match goal with
  | |- context [if ?c then _ else _] => set (b := c) in *
  end.
  destruct (Hfields b) as (E1 & E2 & E3 & E4 & E5 & E6 & E7).
  rewrite E1, E2, E3, E4, E5, E6, E7.
  destruct Hc as (Hk & Hcnt & Ht & Hsum).
  repeat apply conj; try reflexivity.
  - unfold palette. rewrite keys_entries, <- Hk. unfold JS.keys.
    apply Permutation_map, sort_perm.
  - intros k m Hm. unfold palette in Hm.
    apply in_map_iff in Hm as (e & [= <- <-] & He). cbn.
    apply Hcnt. eapply Permutation_in; [apply sort_perm|exact He].
  - exact Ht.
  - intros k m Hm. unfold palette in Hm.
    apply in_map_iff in Hm as (e & [= <- <-] & He). cbn. auto.
  - intros Hne. assert (Hb : b = true); [|rewrite Hb; reflexivity].
    unfold b. cbn [colorMappings set_transparentPixelCount set_colorMappings].
    apply orb_true_iff.
    assert (0 < size palette + tc); [|rewrite !Z.ltb_lt; unfold size in *; lia].
    unfold size, palette. rewrite length_map.
    rewrite (Permutation_length (sort_perm byCount cc)).
    assert (Hlen : 0 < Z.of_nat (List.length (data img)))
      by (destruct (data img); [contradiction|cbn [List.length]; lia]).
    assert (Hcc : forall e, In e cc -> 0 <= snd e).
    { intros e He. rewrite (Hcnt e He). unfold occurrences. lia. }
    destruct cc as [|e cc']; [cbn in Hsum; cbn; lia|]. cbn [List.length].
    assert (0 <= tc) by (rewrite Ht; unfold transparentPixels; lia). lia.
Qed.

(** X15. An image beyond the limits, or with more than 256 opaque colours, is
    not loaded, and neither is the image that was loaded before it: the
    palette is empty, the generate button is disabled, the status names the
    reason, and a call of [_generateOTBM] produces nothing. *)
Theorem loadImage_refuses (img : Image) (app : PNGToOTBMApp) (proceed : bool) :
  4500 < width img \/ 4500 < height img \/ 13500000 < width img * height img
  \/ (256 < List.length (distinctColors (data img)))%nat ->
  image (_loadImage img app) = None
  /\ imageData (_loadImage img app) = None
  /\ colorMappings (_loadImage img app) = []
  /\ generateBtn_disabled (_loadImage img app) = true
  /\ status (_loadImage img app)
     = (if (4500 <? width img) || (4500 <? height img) then StatusImageTooLarge
        else if 13500000 <? width img * height img then StatusImageTooComplex
        else StatusTooManyColors 257)
  /\ App._generateOTBM proceed (_loadImage img app)
     = (None, set_status StatusNoImage (_loadImage img app)).
Proof.
  intros Hbad.
  assert (Hgen : forall a, image a = None ->
            App._generateOTBM proceed a = (None, set_status StatusNoImage a)).
  { intros a Ha. unfold App._generateOTBM. rewrite Ha. reflexivity. }
  unfold _loadImage, _checkImageComplexity. cbv zeta.
  destruct ((4500 <? width img) || (4500 <? height img)) eqn:Elarge.
  - repeat apply conj; try reflexivity; apply Hgen; reflexivity.
  - destruct (13500000 <? width img * height img) eqn:Ecomplex.
    + repeat apply conj; try reflexivity; apply Hgen; reflexivity.
    + apply orb_false_iff in Elarge as [E1 E2].
      apply Z.ltb_ge in E1, E2, Ecomplex.
      destruct Hbad as [H|[H|[H|H]]]; try lia.
      destruct (scan_many (data img) H) as (j & Hscan).
      destruct (analyzeColors_rejected (set_image (Some img) app) img 257 j eq_refl Hscan)
        as [E _].
      rewrite E. repeat apply conj; try reflexivity; apply Hgen; reflexivity.
Qed.

(** *** The floor *)

(** X13. The floor field reads 0 as no entry: with 0 (or no number) in it the
    tiles go to floor 7, and the only entries that give floor 0 are the
    negative ones; an entry from 1 to 15 is the floor of every tile. *)
Theorem floor_zero_is_read_as_seven (app : PNGToOTBMApp) (img imgData : Image)
    (t : Writer.Tile) :
  In t (tilesOf app img imgData) ->
  (zLevel app = Some 0 \/ zLevel app = None -> Writer.z t = 7)
  /\ (Writer.z t = 0 <-> exists v, zLevel app = Some v /\ v < 0)
  /\ (forall v, zLevel app = Some v -> 1 <= v <= 15 -> Writer.z t = v).
Proof.
  intros Hin. apply In_plan in Hin as (x & y & px & g & _ & _ & _ & _ & ->).
  cbn [Writer.z]. unfold floor, orElse, JS.clamp. split; [|split].
  - intros [->| ->]; reflexivity.
  - split.
    + destruct (zLevel app) as [v|]; [|discriminate].
      destruct (Z.eqb_spec v 0); [discriminate|]. intros H. exists v. split; [reflexivity|lia].
    + intros (v & -> & Hv). destruct (Z.eqb_spec v 0); lia.
  - intros v -> Hv. destruct (Z.eqb_spec v 0); lia.
Qed.

End FromPixelsToFile.

(** ** Editing and keeping the tile ids *)

Section KeepingTileIds.

Import App Palette Planner Pipeline Editing.

(** *** Values of a map *)

Lemma Forall_values_set {V : Type} (P : V -> Prop) k v (m : list (string * V)) :
  P v -> Forall P (JS.values m) -> Forall P (JS.values (JS.set k v m)).
Proof.
  intros Hv. unfold JS.values. induction m as [|[k' v'] m IH]; cbn; intros H.
  - constructor; [exact Hv|constructor].
  - inversion H as [|? ? Hv' Hm]; subst.
    destruct (String.eqb k k'); cbn; constructor; auto.
Qed.

Lemma Forall_values_update {V : Type} (P : V -> Prop) k f (m : list (string * V)) :
  (forall v, P v -> P (f v)) ->
  Forall P (JS.values m) -> Forall P (JS.values (JS.update k f m)).
Proof.
  intros Hf. unfold JS.values. induction m as [|[k' v'] m IH]; cbn; intros H.
  - constructor.
  - inversion H as [|? ? Hv' Hm]; subst.
    destruct (String.eqb k k'); cbn; constructor; auto.
Qed.

Lemma Forall_values_get {V : Type} (P : V -> Prop) k v (m : list (string * V)) :
  Forall P (JS.values m) -> JS.get k m = Some v -> P v.
Proof.
  intros H Hget. apply get_In in Hget. rewrite Forall_forall in H.
  apply H, In_values. eauto.
Qed.

Lemma Forall_values_rebuilt (P : Z -> Prop) (l : list (string * Z)) : forall acc,
  Forall P (JS.values acc) -> Forall P (JS.values l) ->
  Forall P (JS.values (fold_left (fun m e => JS.set (fst e) (snd e) m) l acc)).
Proof.
  induction l as [|[k v] l IH]; intros acc Hacc Hl; [exact Hacc|].
  unfold JS.values in Hl. cbn [map snd] in Hl.
  inversion Hl as [|? ? Hv Hl']; subst.
  cbn [fold_left fst snd]. apply IH; [|exact Hl'].
  apply Forall_values_set; assumption.
Qed.

Lemma Forall_values_saved (P : Z -> Prop) (palette : list (string * Mapping)) : forall acc,
  Forall P (JS.values acc) ->
  Forall (fun m => P (App.tileId m)) (JS.values palette) ->
  Forall P (JS.values
              (fold_left (fun mappings e =>
                            if 0 <? App.tileId (snd e)
                            then JS.set (fst e) (App.tileId (snd e)) mappings
                            else mappings) palette acc)).
Proof.
  induction palette as [|[k m] l IH]; intros acc Hacc Hl; [exact Hacc|].
  unfold JS.values in Hl. cbn [map snd] in Hl.
  inversion Hl as [|? ? Hv Hl']; subst.
  cbn [fold_left fst snd]. apply IH; [|exact Hl'].
  destruct (0 <? App.tileId m); [|exact Hacc].
  apply Forall_values_set; assumption.
Qed.

(** *** What loading and generating leave alone *)

Lemma loadImage_ids (img : Image) (app : PNGToOTBMApp) :
  storedColorMappings (_loadImage img app) = storedColorMappings app
  /\ filteredColors (_loadImage img app) = None
  /\ forall k m, In (k, m) (colorMappings (_loadImage img app)) ->
       App.tileId m = match JS.get k (_loadColorMappings app) with
                      | Some t => t
                      | None => 0
                      end.
Proof.
  unfold _loadImage.
  destruct (_checkImageComplexity (width img) (height img)) as [error|].
  - cbn. repeat apply conj; try reflexivity. intros k m [].
  - pose proof (scanColors_outcome (data img)) as H.
    destruct (scanColors (data img) 0 [] 0) as [cc tc|n j] eqn:Hscan.
    + destruct H as [Hc _]. pose proof (counted_NoDup _ _ _ Hc) as Hnd.
      rewrite (analyzeColors_state (set_image (Some img) app) img cc tc eq_refl Hscan Hnd).
      cbv zeta.
      change (_loadColorMappings (set_image (Some img) app)) with (_loadColorMappings app).
      match goal with
      | |- context [if ?c then _ else _] => destruct c
      end; cbn; repeat apply conj; try reflexivity;
        intros k m Hm; apply in_map_iff in Hm as (e & [= <- <-] & He); reflexivity.
    + destruct (analyzeColors_rejected (set_image (Some img) app) img n j eq_refl Hscan)
        as [E _].
      rewrite E. cbn. repeat apply conj; try reflexivity. intros k m [].
Qed.

Lemma generateOTBM_status (proceed : bool) (app : PNGToOTBMApp) :
  snd (App._generateOTBM proceed app) = app
  \/ exists st, snd (App._generateOTBM proceed app) = set_status st app.
Proof.
  destruct (image app) as [img|] eqn:Himg; [destruct (imageData app) as [imgData|] eqn:Hdata|].
  - rewrite (generateOTBM_steps proceed app img imgData Himg Hdata).
    destruct (warns app && negb proceed); [left; reflexivity|].
    right.
    destruct ((65535 <? offX app + width img) || (65535 <? offY app + height img));
      [eexists; reflexivity|].
    destruct (ClientData.getClientConfig (clientVersion app)) as [client|];
      [|eexists; reflexivity].
    destruct (ClientData.getOTBVersion (ClientData.otb client)) as [otb|];
      [|eexists; reflexivity].
    match goal with
    | |- context [match ?p with Some _ => _ | None => _ end] => destruct p
    end; eexists; reflexivity.
  - right. exists StatusNoImage. unfold App._generateOTBM. rewrite Himg, Hdata. reflexivity.
  - right. exists StatusNoImage. unfold App._generateOTBM. rewrite Himg. reflexivity.
Qed.

(** *** The tile ids stay in range *)

Lemma idOk_clamp v : idOk (JS.clamp 0 65535 v).
Proof. unfold idOk, JS.clamp. lia. Qed.

Lemma appIdsOk_assign hex v app :
  idOk v -> appIdsOk app -> appIdsOk (assign hex v app).
Proof.
  intros Hv (Hp & Hf & Hs). unfold appIdsOk, assign. cbn.
  repeat apply conj; try assumption.
  - apply Forall_values_update; [intros m _; exact Hv|exact Hp].
  - destruct (filteredColors app); cbn; [|constructor].
    apply Forall_values_update; [intros m _; exact Hv|exact Hf].
Qed.

Lemma appIdsOk_save ok app : appIdsOk app -> appIdsOk (_saveColorMappings ok app).
Proof.
  intros (Hp & Hf & Hs). unfold appIdsOk, _saveColorMappings.
  destruct ok; cbn; repeat apply conj; try assumption.
  apply Forall_values_saved; [constructor|exact Hp].
Qed.

(** The handlers of the settings touch no tile id of the palette. *)
Lemma appIdsOk_same app app' :
  colorMappings app' = colorMappings app ->
  filteredColors app' = filteredColors app ->
  storedColorMappings app' = storedColorMappings app ->
  appIdsOk app -> appIdsOk app'.
Proof. unfold appIdsOk. intros -> -> ->. auto. Qed.

Lemma idsOk_application s app :
  idsOk s -> appIdsOk app -> idsOk (set_application app s).
Proof. intros (_ & Hfav & Hsf) Happ. split; [exact Happ|split; assumption]. Qed.

(** An id that has passed the clamp is within the range when it is an
    integer. *)
Lemma clampNumber_integer n v : clampNumber n = Integer v -> idOk v.
Proof.
  destruct n as [z|below]; cbn [clampNumber].
  - intros [= <-]. apply idOk_clamp.
  - destruct (below <? 0); [intros [= <-]; unfold idOk; lia|].
    destruct (65535 <=? below); [intros [= <-]; unfold idOk; lia|discriminate].
Qed.

Lemma appIdsOk_importColor st colorData st' :
  importColor st colorData = Some st' -> appIdsOk (fst st) -> appIdsOk (fst st').
Proof.
  destruct st as [app imported]. unfold importColor. cbn [fst].
  destruct (JS.has (c_hex colorData) (colorMappings app)).
  - destruct (clampNumber _) as [v|below] eqn:Ev; [|discriminate].
    intros [= <-] Happ. cbn [fst].
    apply appIdsOk_assign; [exact (clampNumber_integer _ _ Ev)|exact Happ].
  - intros [= <-] Happ. exact Happ.
Qed.

Lemma importColors_none cs :
  fold_left (fun acc colorData =>
               match acc with
               | Some st => importColor st colorData
               | None => None
               end) cs None = None.
Proof. induction cs as [|c cs IH]; [reflexivity|exact IH]. Qed.

Lemma importColors_cons c cs st :
  importColors (c :: cs) st
  = match importColor st c with
    | Some st1 => importColors cs st1
    | None => None
    end.
Proof.
  unfold importColors. cbn [fold_left].
  destruct (importColor st c); [reflexivity|apply importColors_none].
Qed.

Lemma appIdsOk_importColors cs : forall st st',
  importColors cs st = Some st' -> appIdsOk (fst st) -> appIdsOk (fst st').
Proof.
  induction cs as [|c cs IH]; intros st st'.
  - intros [= <-] Hst. exact Hst.
  - rewrite importColors_cons.
    destruct (importColor st c) as [st1|] eqn:E1; [|discriminate].
    intros E Hst. apply (IH st1 st' E). exact (appIdsOk_importColor _ _ _ E1 Hst).
Qed.

(** With integers as tile ids the loop goes through. *)
Lemma importColors_whole cs : forall st,
  Forall (fun colorData => match c_tileId colorData with
                           | Some (Fraction _) => False
                           | _ => True
                           end) cs ->
  exists st', importColors cs st = Some st'.
Proof.
  induction cs as [|c cs IH]; intros st Hcs.
  - exists st. reflexivity.
  - inversion Hcs as [|? ? Hc Hcs']; subst. rewrite importColors_cons.
    assert (exists st1, importColor st c = Some st1) as (st1 & ->).
    { destruct st as [app imported]. unfold importColor.
      destruct (JS.has (c_hex c) (colorMappings app)); [|eauto].
      destruct (c_tileId c) as [[z|below]|]; [| contradiction |];
        cbn [clampNumber]; eauto. }
    apply IH, Hcs'.
Qed.

Lemma settings_keep_palette (st : Settings) (okc : string -> bool) (sel : string -> string)
    (f : Number -> Z) app :
  let app1 :=
    match s_clientVersion st with
    | Some v => if String.eqb v EmptyString then app
                else if okc v then set_clientVersion (sel v) app else app
    | None => app
    end in
  let app2 :=
    match s_transparentTileId st with
    | Some v => set_transparentTileId (Some (JS.clamp 0 65535 (orElse (Some (f v)) 0))) app1
    | None => app1
    end in
  let app3 := match s_zLevel st with Some v => set_zLevel (Some (f v)) app2 | None => app2 end in
  let app4 := match s_offsetX st with Some v => set_offsetX (Some (f v)) app3 | None => app3 end in
  let app5 := match s_offsetY st with Some v => set_offsetY (Some (f v)) app4 | None => app4 end in
  colorMappings app5 = colorMappings app
  /\ filteredColors app5 = filteredColors app
  /\ storedColorMappings app5 = storedColorMappings app.
Proof.
  cbv zeta.
  destruct (s_clientVersion st) as [v|]; [destruct (String.eqb v EmptyString), (okc v)|];
    destruct (s_transparentTileId st), (s_zLevel st), (s_offsetX st), (s_offsetY st);
    repeat split; reflexivity.
Qed.

Lemma idsOk_loadSettings p s : idsOk s -> idsOk (_loadSettings p s).
Proof.
  intros Hs. unfold _loadSettings. destruct (storedSettings s) as [parsed|]; [|exact Hs].
  cbv zeta. apply idsOk_application; [exact Hs|].
  destruct (settings_keep_palette parsed (fun _ => true)
              (selectValue (map ClientData.name ClientData.clients))
              (parseIntOfNumber p) (application s))
    as (E1 & E2 & E3).
  eapply appIdsOk_same; [exact E1|exact E2|exact E3|apply Hs].
Qed.

Lemma idsOk_saveSettings ok s : idsOk s -> idsOk (_saveSettings ok s).
Proof. intros Hs. unfold _saveSettings. destruct ok; exact Hs. Qed.

Lemma idsOk_importSettings p ok st s : idsOk s -> idsOk (importSettings p ok st s).
Proof.
  intros Hs. unfold importSettings. cbv zeta.
  apply idsOk_saveSettings, idsOk_application; [exact Hs|].
  pose proof (settings_keep_palette st
                (fun v => match find (fun c => String.eqb (ClientData.name c) v)
                                     ClientData.clients with
                          | Some _ => true
                          | None => false
                          end)
                (fun v => v) (parseIntOfNumber p) (application s)) as H.
  cbv zeta in H.
  assert (Hc : forall v,
            (if match find (fun c => String.eqb (ClientData.name c) v) ClientData.clients with
                | Some _ => true
                | None => false
                end
             then set_clientVersion v (application s) else application s)
            = match find (fun c => String.eqb (ClientData.name c) v) ClientData.clients with
              | Some _ => set_clientVersion v (application s)
              | None => application s
              end).
  { intros v. destruct (find _ ClientData.clients); reflexivity. }
  destruct (s_clientVersion st) as [v|].
  - rewrite Hc in H. destruct H as (E1 & E2 & E3).
    eapply appIdsOk_same; [exact E1|exact E2|exact E3|apply Hs].
  - destruct H as (E1 & E2 & E3).
    eapply appIdsOk_same; [exact E1|exact E2|exact E3|apply Hs].
Qed.

Lemma idsOk_import p okSettings okMappings importData s r :
  _importMappings p okSettings okMappings importData s = Some r ->
  idsOk s -> idsOk (fst r).
Proof.
  unfold _importMappings. intros E Hs.
  destruct importData as [importData|]; [|injection E as <-; exact Hs].
  destruct (colors importData) as [cs|]; [|injection E as <-; exact Hs].
  destruct (importColors cs (application s, 0)) as [[app imported]|] eqn:Ecs;
    [|discriminate].
  pose proof (appIdsOk_importColors cs _ _ Ecs (proj1 Hs)) as Hcs.
  cbn [fst] in Hcs. cbv zeta in E. injection E as <-. cbn [fst].
  assert (H1 : idsOk (set_application app s)) by (apply idsOk_application; assumption).
  assert (H2 : idsOk (match settings importData with
                      | Some st => importSettings p okSettings st (set_application app s)
                      | None => set_application app s
                      end)).
  { destruct (settings importData); [apply idsOk_importSettings|]; exact H1. }
  apply idsOk_application; [exact H2|]. apply appIdsOk_save, H2.
Qed.

Lemma import_whole p okSettings okMappings importData s :
  wholeIds importData ->
  exists r, _importMappings p okSettings okMappings (Some importData) s = Some r.
Proof.
  unfold wholeIds, _importMappings. intros Hw.
  destruct (colors importData) as [cs|]; [|eauto].
  destruct (importColors_whole cs (application s, 0) Hw) as ([app imported] & ->).
  eauto.
Qed.

Lemma appIdsOk_loadImage img app : appIdsOk app -> appIdsOk (_loadImage img app).
Proof.
  intros (Hp & Hf & Hst).
  destruct (loadImage_ids img app) as (Est & Efil & Hids).
  unfold appIdsOk. rewrite Est, Efil. repeat apply conj; try assumption; [|constructor].
  apply Forall_forall. intros m Hm. apply In_values in Hm as (k & Hin).
  rewrite (Hids k m Hin).
  destruct (JS.get k (_loadColorMappings app)) as [t|] eqn:Eget; [|unfold idOk; lia].
  revert Eget. apply Forall_values_get. unfold _loadColorMappings.
  destruct (storedColorMappings app) as [parsed|]; [|constructor].
  apply Forall_values_rebuilt; [constructor|exact Hst].
Qed.

Lemma idsOk_handle trim p e s s' :
  handle trim p e s = Some s' -> idsOk s -> idsOk s'.
Proof.
  intros E Hs. destruct e as [ok hex value|hex value|ok|ok hex favoriteId
                            |name idStr newId ok|ok favorite confirmed| |ok|
                            |okSettings okMappings importData|img|proceed];
    cbn [handle] in E;
    try (injection E as <-).
  - destruct (shown hex s); [|exact Hs]. cbn [onChange fst].
    apply idsOk_application; [exact Hs|].
    apply appIdsOk_save, appIdsOk_assign; [apply idOk_clamp|apply Hs].
  - destruct (shown hex s); [|exact Hs]. unfold onInput.
    destruct value as [value|]; [|exact Hs]. cbn [fst].
    apply idsOk_application; [exact Hs|].
    apply appIdsOk_assign; [apply idOk_clamp|apply Hs].
  - cbn [onInputTimer fst]. apply idsOk_application; [exact Hs|].
    apply appIdsOk_save, Hs.
  - destruct (shown hex s); [|exact Hs]. unfold onDrop.
    destruct (String.eqb favoriteId EmptyString); [exact Hs|].
    destruct (find _ (favorites s)) as [favorite|] eqn:Hfind; [|exact Hs].
    cbn [fst]. apply idsOk_application; [exact Hs|].
    apply appIdsOk_save, appIdsOk_assign; [|apply Hs].
    apply find_some in Hfind as [Hin _].
    destruct Hs as (_ & Hfav & _). rewrite Forall_forall in Hfav.
    apply (Hfav favorite Hin).
  - unfold _showAddFavoriteDialog.
    destruct name as [name|]; [|exact Hs].
    destruct (String.eqb name EmptyString || String.eqb (trim name) EmptyString);
      [exact Hs|].
    destruct idStr as [[[|] [tid|]]|]; try exact Hs.
    destruct ((tid <? 0) || (65535 <? tid)) eqn:Erange; [exact Hs|].
    apply orb_false_iff in Erange as [Elo Ehi]. apply Z.ltb_ge in Elo, Ehi.
    destruct Hs as (Happ & Hfav & Hsf).
    assert (Hnew : Forall (fun f => idOk (tileId f))
                     (favorites s ++ [mkFavorite newId (trim name) tid])).
    { apply Forall_app. split; [exact Hfav|]. constructor; [|constructor].
      unfold idOk. cbn. lia. }
    unfold _saveFavorites. destruct ok; (split; [exact Happ|split; assumption]).
  - destruct (existsb _ (favorites s)); [|exact Hs]. unfold onDeleteFavorite.
    destruct confirmed; [|exact Hs].
    destruct Hs as (Happ & Hfav & Hsf).
    assert (Hnew : Forall (fun f => idOk (tileId f))
                     (filter (fun f => negb (String.eqb (id f) (id favorite)))
                             (favorites s))).
    { rewrite Forall_forall in *. intros f Hin. apply filter_In in Hin as [Hin _]. auto. }
    unfold _saveFavorites. destruct ok; (split; [exact Happ|split; assumption]).
  - unfold _loadFavorites. destruct (storedFavorites s) as [f|] eqn:Ef; [|exact Hs].
    destruct Hs as (Happ & Hfav & Hsf). rewrite Ef in Hsf.
    unfold idsOk. cbn [application favorites storedFavorites set_favorites]. rewrite Ef.
    split; [exact Happ|split; assumption].
  - apply idsOk_saveSettings, Hs.
  - apply idsOk_loadSettings, Hs.
  - destruct (_importMappings p okSettings okMappings importData s) as [r|] eqn:Er;
      [|discriminate].
    cbn [option_map] in E. injection E as <-.
    exact (idsOk_import _ _ _ _ _ _ Er Hs).
  - apply idsOk_application; [exact Hs|]. apply appIdsOk_loadImage, Hs.
  - destruct (generateBtn_disabled (application s)); [exact Hs|].
    apply idsOk_application; [exact Hs|].
    destruct (generateOTBM_status proceed (application s)) as [->|(st & ->)];
      apply Hs.
Qed.

Lemma handle_whole trim p e s :
  importsWholeIds e -> exists s', handle trim p e s = Some s'.
Proof.
  destruct e as [ok hex value|hex value|ok|ok hex favoriteId
                 |name idStr newId ok|ok favorite confirmed| |ok|
                 |okSettings okMappings [importData|]|img|proceed];
    cbn [handle importsWholeIds]; intros Hw; eauto.
  - destruct (import_whole p okSettings okMappings importData s Hw) as (r & ->).
    cbn [option_map]. eauto.
  - cbn. eauto.
Qed.

Lemma run_cons trim p e events s :
  run trim p (e :: events) s
  = match handle trim p e s with
    | Some s1 => run trim p events s1
    | None => None
    end.
Proof.
  unfold run. cbn [fold_left].
  destruct (handle trim p e s); [reflexivity|].
  induction events as [|e' events IH]; [reflexivity|exact IH].
Qed.

Lemma idsOk_run trim p events : forall s,
  Forall importsWholeIds events -> idsOk s ->
  exists s', run trim p events s = Some s' /\ idsOk s'.
Proof.
  induction events as [|e events IH]; intros s Hw Hs.
  - exists s. split; [reflexivity|exact Hs].
  - inversion Hw as [|? ? He Hw']; subst. rewrite run_cons.
    destruct (handle_whole trim p e s He) as (s1 & E1). rewrite E1.
    apply IH; [exact Hw'|]. exact (idsOk_handle _ _ _ _ _ E1 Hs).
Qed.

(** X16. Whatever is typed into the rows, dropped on them, imported from
    files of mappings whose tile ids are integers, added to or deleted from
    the favourites, saved, loaded or generated, the tile ids of the session
    stay integers from 0 to 65535 when they were so at the start (as they are
    with an empty storage); the tiles of a run that passes the overflow check
    then fit the fields of the file, and no id is reduced modulo 65536.  (An
    imported id that is a fraction between 0 and 65535 is stored as it is:
    such files are left out.) *)
Theorem tile_ids_stay_in_range (trim : string -> string)
    (parseIntElsewhere : Number -> Z) (events : list Event)
    (s : Session) (img imgData : Image) :
  idsOk s ->
  Forall importsWholeIds events ->
  exists s',
    run trim parseIntElsewhere events s = Some s'
    /\ idsOk s'
    /\ (offX (application s') + width img <= 65535 ->
        offY (application s') + height img <= 65535 ->
        Forall Decode.fits (tilesOf (application s') img imgData)
        /\ Forall (fun t => Writer.groundId t mod 65536 = Writer.groundId t)
                  (tilesOf (application s') img imgData)).
Proof.
  intros Hs Hw.
  destruct (idsOk_run trim parseIntElsewhere events s Hw Hs) as (s' & Erun & Hrun).
  exists s'. split; [exact Erun|]. split; [exact Hrun|]. intros Hx Hy.
  assert (Hpal : Forall (fun m => App.tileId m <= 65535)
                   (JS.values (colorMappings (application s')))).
  { destruct Hrun as ((Hp & _) & _). eapply Forall_impl; [|exact Hp].
    intros m Hm. unfold idOk in Hm. lia. }
  pose proof (tilesOf_fits _ img imgData Hx Hy Hpal) as Hfit.
  split; [exact Hfit|].
  eapply Forall_impl; [|exact Hfit].
  intros t (_ & _ & _ & Hg & _). apply Z.mod_small. lia.
Qed.

(** *** Saved ids come back *)

Lemma NoDup_keys_set {V : Type} k (v : V) m :
  NoDup (JS.keys m) -> NoDup (JS.keys (JS.set k v m)).
Proof.
  intros Hnd. destruct (in_dec string_dec k (JS.keys m)) as [Hin|Hout].
  - rewrite keys_set_old by exact Hin. exact Hnd.
  - rewrite set_new by exact Hout. unfold JS.keys in *. rewrite map_app. cbn.
    apply NoDup_app_remove_l with (l := []). cbn.
    apply Permutation_NoDup with (l := k :: map fst m).
    + apply Permutation_cons_append.
    + constructor; assumption.
Qed.

Lemma NoDup_keys_colorToTile (palette : list (string * Mapping)) :
  NoDup (JS.keys (colorToTile palette)).
Proof.
  unfold colorToTile.
  assert (H : forall acc, NoDup (JS.keys acc) ->
            NoDup (JS.keys (fold_left (fun m e =>
                      if 0 <? App.tileId (snd e)
                      then JS.set (fst e) (App.tileId (snd e)) m else m) palette acc))).
  { induction palette as [|e l IH]; intros acc Hacc; [exact Hacc|].
    cbn [fold_left]. apply IH. destruct (0 <? App.tileId (snd e)); [|exact Hacc].
    apply NoDup_keys_set, Hacc. }
  apply H. constructor.
Qed.

Lemma get_rebuilt {V : Type} k (l : list (string * V)) : forall acc,
  NoDup (JS.keys l) ->
  JS.get k (fold_left (fun m e => JS.set (fst e) (snd e) m) l acc)
  = match JS.get k l with
    | Some v => Some v
    | None => JS.get k acc
    end.
Proof.
  induction l as [|[k0 v0] l IH]; intros acc Hnd; [reflexivity|].
  unfold JS.keys in Hnd. cbn [map fst] in Hnd.
  inversion Hnd as [|? ? Hk Hnd']; subst.
  cbn [fold_left fst snd JS.get]. rewrite IH by exact Hnd'. rewrite get_set.
  destruct (String.eqb_spec k k0) as [->|Hne]; [|reflexivity].
  apply get_None_keys in Hk. rewrite Hk. reflexivity.
Qed.

Lemma loadColorMappings_saved app k :
  NoDup (JS.keys (colorMappings app)) ->
  JS.get k (_loadColorMappings (_saveColorMappings true app))
  = match JS.get k (colorMappings app) with
    | Some m => if 0 <? App.tileId m then Some (App.tileId m) else None
    | None => None
    end.
Proof.
  intros Hnd. unfold _loadColorMappings, _saveColorMappings.
  cbn [set_storedColorMappings storedColorMappings].
  change (fold_left _ (colorMappings app) [])
    with (colorToTile (colorMappings app)).
  rewrite get_rebuilt by apply NoDup_keys_colorToTile.
  rewrite get_colorToTile by exact Hnd.
  destruct (JS.get k (colorMappings app)) as [m|]; [|reflexivity].
  destruct (0 <? App.tileId m); reflexivity.
Qed.

(** X17. The tile ids that [_saveColorMappings] has stored come back with the
    next image, colour by colour: every colour of the new palette that was in
    the palette saved gets the tile id it had there, every other colour the
    id 0. *)
Theorem saved_ids_are_restored (app : PNGToOTBMApp) (img : Image) (k : string)
    (m' : Mapping) :
  NoDup (JS.keys (colorMappings app)) ->
  Forall (fun m => 0 <= App.tileId m) (JS.values (colorMappings app)) ->
  In (k, m') (colorMappings (_loadImage img (_saveColorMappings true app))) ->
  App.tileId m' = match JS.get k (colorMappings app) with
                  | Some m => App.tileId m
                  | None => 0
                  end.
Proof.
  intros Hnd Hpos Hin.
  destruct (loadImage_ids img (_saveColorMappings true app)) as (_ & _ & Hids).
  rewrite (Hids k m' Hin), loadColorMappings_saved by exact Hnd.
  destruct (JS.get k (colorMappings app)) as [m|] eqn:Eget; [|reflexivity].
  pose proof (Forall_values_get _ _ _ _ Hpos Eget) as Hm. cbn beta in Hm.
  destruct (Z.ltb_spec 0 (App.tileId m)); [reflexivity|lia].
Qed.

(** X18. An id entered in a row is kept: after the [change] event the row holds
    the value entered, cut to the range from 0 to 65535 (0 when the text is
    not a number), the other rows are as before, and the storage holds the
    ids above 0 of the whole palette. *)
Theorem change_sets_and_saves_the_id (hex : string) (value : option Z) (s : Session)
    (m : Mapping) :
  NoDup (JS.keys (colorMappings (application s))) ->
  JS.get hex (colorMappings (application s)) = Some m ->
  JS.get hex (colorMappings (application (fst (onChange true hex value s))))
  = Some (withTileId (JS.clamp 0 65535 (orElse value 0)) m)
  /\ (forall k, k <> hex ->
        JS.get k (colorMappings (application (fst (onChange true hex value s))))
        = JS.get k (colorMappings (application s)))
  /\ JS.keys (colorMappings (application (fst (onChange true hex value s))))
     = JS.keys (colorMappings (application s))
  /\ (forall k,
        JS.get k (_loadColorMappings (application (fst (onChange true hex value s))))
        = match JS.get k (colorMappings (application (fst (onChange true hex value s)))) with
          | Some m => if 0 <? App.tileId m then Some (App.tileId m) else None
          | None => None
          end).
Proof.
  intros Hnd Hget.
  set (v := JS.clamp 0 65535 (orElse value 0)).
  assert (Hpal : colorMappings (application (fst (onChange true hex value s)))
                 = JS.update hex (withTileId v) (colorMappings (application s)))
    by reflexivity.
  assert (Hupd : forall k (pal : list (string * Mapping)),
            JS.get k (JS.update hex (withTileId v) pal)
            = if String.eqb k hex then option_map (withTileId v) (JS.get k pal)
              else JS.get k pal).
  { intros k pal. induction pal as [|[k0 m0] pal IH]; cbn [JS.update JS.get].
    - destruct (String.eqb k hex); reflexivity.
    - destruct (String.eqb_spec hex k0) as [->|Hne]; cbn [JS.get].
      + destruct (String.eqb_spec k k0); reflexivity.
      + rewrite IH. destruct (String.eqb_spec k k0) as [->|Hne'].
        * destruct (String.eqb_spec k0 hex); [congruence|reflexivity].
        * reflexivity. }
  rewrite Hpal. repeat apply conj.
  - rewrite Hupd, String.eqb_refl, Hget. reflexivity.
  - intros k Hne. rewrite Hupd. destruct (String.eqb_spec k hex); [contradiction|reflexivity].
  - apply keys_update.
  - intros k. rewrite <- Hpal.
    change (application (fst (onChange true hex value s)))
      with (_saveColorMappings true (assign hex v (application s))).
    rewrite loadColorMappings_saved.
    + reflexivity.
    + change (colorMappings (assign hex v (application s)))
        with (JS.update hex (withTileId v) (colorMappings (application s))).
      rewrite keys_update. exact Hnd.
Qed.

(** *** Settings and files of mappings *)

Lemma orElse_again v d : orElse (Some (orElse v d)) d = orElse v d.
Proof.
  unfold orElse. destruct v as [n|].
  - destruct (Z.eqb_spec n 0) as [->|Hn].
    + destruct (d =? 0); reflexivity.
    + destruct (Z.eqb_spec n 0); [contradiction|reflexivity].
  - destruct (d =? 0); reflexivity.
Qed.

Lemma transparentId_again v :
  JS.clamp 0 65535 (orElse (Some (JS.clamp 0 65535 (orElse (Some (orElse v 0)) 0))) 0)
  = JS.clamp 0 65535 (orElse v 0).
Proof.
  rewrite orElse_again. set (t := orElse v 0). unfold orElse, JS.clamp.
  destruct (Z.eqb_spec (Z.max 0 (Z.min 65535 t)) 0); lia.
Qed.

(** A number written with all its digits is read as it is. *)
Lemma parseInt_plain p v : plain v -> parseIntOfNumber p (Integer v) = v.
Proof.
  unfold plain, parseIntOfNumber. intros Hv.
  destruct (Z.ltb_spec (Z.abs v) (10 ^ 21)); [reflexivity|lia].
Qed.

Lemma listed_client_found v :
  In v Clients.options ->
  exists c, find (fun c => String.eqb (ClientData.name c) v) ClientData.clients = Some c.
Proof.
  unfold Clients.options. intros Hin. apply in_map_iff in Hin as (c & <- & Hc).
  destruct (find (fun c0 => String.eqb (ClientData.name c0) (ClientData.name c))
                 ClientData.clients) as [c'|] eqn:Ef; [eauto|].
  apply (find_none _ _ Ef) in Hc. rewrite String.eqb_refl in Hc. discriminate.
Qed.

Lemma listed_client_selected v :
  In v Clients.options ->
  selectValue (map ClientData.name ClientData.clients) v = v.
Proof.
  intros Hin. unfold selectValue.
  destruct (existsb (String.eqb v) (map ClientData.name ClientData.clients)) eqn:E;
    [reflexivity|].
  assert (existsb (String.eqb v) (map ClientData.name ClientData.clients) = true).
  { apply existsb_exists. exists v. split; [exact Hin|apply String.eqb_refl]. }
  congruence.
Qed.

Lemma listed_client_not_empty v : In v Clients.options -> String.eqb v EmptyString = false.
Proof.
  intros Hin.
  assert (H : forallb (fun v => negb (String.eqb v EmptyString)) Clients.options = true)
    by (vm_compute; reflexivity).
  rewrite forallb_forall in H. apply negb_true_iff, H, Hin.
Qed.

(** X23. The settings that [_saveSettings] stores come back with
    [_loadSettings], when the numbers saved are below 10^21 in absolute value
    (so that they are written with all their digits): a page that loads them
    works with the same client, the same transparent tile id, the same floor
    and the same offsets as the page that saved them, whatever it held in its
    fields before. *)
Theorem saved_settings_come_back (parseIntElsewhere : Number -> Z) (s s2 : Session) :
  In (clientVersion (application s)) Clients.options ->
  plainSettings (application s) ->
  storedSettings s2 = storedSettings (_saveSettings true s) ->
  clientVersion (application (_loadSettings parseIntElsewhere s2))
  = clientVersion (application s)
  /\ transparentId (application (_loadSettings parseIntElsewhere s2))
     = transparentId (application s)
  /\ floor (application (_loadSettings parseIntElsewhere s2)) = floor (application s)
  /\ offX (application (_loadSettings parseIntElsewhere s2)) = offX (application s)
  /\ offY (application (_loadSettings parseIntElsewhere s2)) = offY (application s)
  /\ colorMappings (application (_loadSettings parseIntElsewhere s2))
     = colorMappings (application s2).
Proof.
  intros Hlisted (Pt & Pz & Px & Py) Hst. unfold _loadSettings. rewrite Hst.
  cbn [_saveSettings set_storedSettings storedSettings currentSettings
       s_clientVersion s_transparentTileId s_zLevel s_offsetX s_offsetY].
  rewrite (listed_client_not_empty _ Hlisted), (listed_client_selected _ Hlisted).
  rewrite !parseInt_plain by assumption.
  cbv zeta. unfold transparentId, floor, offX, offY.
  cbn [application set_application transparentTileId zLevel offsetX offsetY clientVersion
       colorMappings set_clientVersion set_transparentTileId set_zLevel set_offsetX
       set_offsetY].
  rewrite transparentId_again, !orElse_again. repeat split; reflexivity.
Qed.

Lemma importSettings_fields p ok app s :
  In (clientVersion app) Clients.options ->
  plainSettings app ->
  clientVersion (application (importSettings p ok (currentSettings app) s))
  = clientVersion app
  /\ transparentTileId (application (importSettings p ok (currentSettings app) s))
     = Some (JS.clamp 0 65535 (orElse (Some (orElse (transparentTileId app) 0)) 0))
  /\ zLevel (application (importSettings p ok (currentSettings app) s))
     = Some (orElse (zLevel app) 7)
  /\ offsetX (application (importSettings p ok (currentSettings app) s))
     = Some (orElse (offsetX app) 0)
  /\ offsetY (application (importSettings p ok (currentSettings app) s))
     = Some (orElse (offsetY app) 0)
  /\ colorMappings (application (importSettings p ok (currentSettings app) s))
     = colorMappings (application s)
  /\ filteredColors (application (importSettings p ok (currentSettings app) s))
     = filteredColors (application s).
Proof.
  intros Hlisted (Pt & Pz & Px & Py). unfold importSettings.
  cbn [currentSettings s_clientVersion s_transparentTileId s_zLevel s_offsetX s_offsetY].
  rewrite (listed_client_not_empty _ Hlisted).
  destruct (listed_client_found _ Hlisted) as (c & ->).
  rewrite !parseInt_plain by assumption.
  cbv zeta. unfold _saveSettings. destruct ok; cbn; repeat split; reflexivity.
Qed.

Lemma get_update {V : Type} k k' (f : V -> V) m :
  JS.get k (JS.update k' f m)
  = if String.eqb k k' then option_map f (JS.get k m) else JS.get k m.
Proof.
  induction m as [|[k0 v0] m IH]; cbn [JS.update JS.get].
  - destruct (String.eqb k k'); reflexivity.
  - destruct (String.eqb_spec k' k0) as [->|Hne]; cbn [JS.get].
    + destruct (String.eqb_spec k k0); reflexivity.
    + rewrite IH. destruct (String.eqb_spec k k0) as [->|Hne'].
      * destruct (String.eqb_spec k0 k'); [congruence|reflexivity].
      * reflexivity.
Qed.

(** The palette after the loop over the colours of a file whose tile ids are
    integers within the range. *)
Lemma importColors_get k (ids : list (string * App.Rgb * Z * Z)) : forall st,
  NoDup (map (fun e => fst (fst (fst e))) ids) ->
  Forall (fun e => idOk (snd (fst e))) ids ->
  exists st',
    importColors (map (fun e => mkColorData (fst (fst (fst e))) (snd (fst (fst e)))
                                  (Some (Integer (snd (fst e)))) (snd e)) ids) st
    = Some st'
    /\ JS.keys (colorMappings (fst st')) = JS.keys (colorMappings (fst st))
    /\ JS.get k (colorMappings (fst st'))
       = match JS.get k (colorMappings (fst st)) with
         | Some m =>
             Some (match find (fun e => String.eqb (fst (fst (fst e))) k) ids with
                   | Some e => withTileId (snd (fst e)) m
                   | None => m
                   end)
         | None => None
         end.
Proof.
  induction ids as [|[[[h r] t] c] ids IH]; intros [app imported] Hnd Hids.
  - exists (app, imported). cbn. repeat split.
    destruct (JS.get k (colorMappings app)); reflexivity.
  - cbn [map fst snd] in Hnd. inversion Hnd as [|? ? Hc Hnd']; subst.
    inversion Hids as [|? ? Ht Hids']; subst. cbn [fst snd] in Ht.
    cbn [map fst snd]. rewrite importColors_cons.
    unfold importColor at 1. cbn [c_hex c_tileId clampNumber].
    assert (JS.clamp 0 65535 t = t) as -> by (unfold idOk in Ht; unfold JS.clamp; lia).
    cbn [find fst snd]. unfold JS.has.
    destruct (JS.get h (colorMappings app)) as [mc|] eqn:Ec.
    + destruct (IH (assign h t app, imported + 1) Hnd' Hids') as (st' & E & Hk & Hg).
      exists st'. split; [exact E|]. rewrite Hk, Hg. cbn [fst].
      change (colorMappings (assign h t app))
        with (JS.update h (withTileId t) (colorMappings app)).
      split; [apply keys_update|].
      rewrite get_update.
      destruct (String.eqb_spec k h) as [->|Hne].
      * rewrite Ec, String.eqb_refl. cbn [option_map].
        assert (find (fun e => String.eqb (fst (fst (fst e))) h) ids = None) as ->.
        { destruct (find _ ids) as [e'|] eqn:Ef; [|reflexivity].
          apply find_some in Ef as [Hin E']. apply String.eqb_eq in E'.
          exfalso. apply Hc. rewrite <- E'.
          apply (in_map (fun e => fst (fst (fst e)))), Hin. }
        reflexivity.
      * destruct (String.eqb_spec h k); [congruence|]. reflexivity.
    + destruct (IH (app, imported) Hnd' Hids') as (st' & E & Hk & Hg).
      exists st'. split; [exact E|]. rewrite Hk, Hg. cbn [fst].
      split; [reflexivity|].
      destruct (JS.get k (colorMappings app)) as [m|] eqn:Ek; [|reflexivity].
      destruct (String.eqb_spec h k) as [E'|Hne]; [congruence|reflexivity].
Qed.

Lemma find_exported k (palette : list (string * Mapping)) :
  find (fun e : string * App.Rgb * Z * Z => String.eqb (fst (fst (fst e))) k)
       (map (fun e => (fst e, rgb (snd e), App.tileId (snd e), count (snd e))) palette)
  = option_map (fun m => (k, rgb m, App.tileId m, count m)) (JS.get k palette).
Proof.
  induction palette as [|[k0 m0] palette IH]; [reflexivity|].
  cbn [map find fst snd JS.get]. rewrite String.eqb_sym.
  destruct (String.eqb_spec k k0) as [->|Hne]; [reflexivity|exact IH].
Qed.

(** X24. A file written by [_exportMappings], imported into a session,
    brings its tile ids and its settings: every colour of the session's
    palette that the exporting palette had gets the tile id it had there, the
    other colours and the order of the palette stay as they are, and the
    session then works with the client, transparent tile id, floor and offsets
    of the exporting one, when the numbers of its settings are below 10^21 in
    absolute value. *)
Theorem exported_mappings_import_back (parseIntElsewhere : Number -> Z)
    (okSettings okMappings : bool) (app : PNGToOTBMApp) (s : Session) (k : string) :
  colorMappings app <> [] ->
  NoDup (JS.keys (colorMappings app)) ->
  Forall (fun m => idOk (App.tileId m)) (JS.values (colorMappings app)) ->
  In (clientVersion app) Clients.options ->
  plainSettings app ->
  exists file s',
    fst (_exportMappings app) = Some file
    /\ option_map fst (_importMappings parseIntElsewhere okSettings okMappings
                         (Some file) s) = Some s'
    /\ JS.keys (colorMappings (application s')) = JS.keys (colorMappings (application s))
    /\ JS.get k (colorMappings (application s'))
       = match JS.get k (colorMappings (application s)) with
         | Some m =>
             Some (match JS.get k (colorMappings app) with
                   | Some exported => withTileId (App.tileId exported) m
                   | None => m
                   end)
         | None => None
         end
    /\ clientVersion (application s') = clientVersion app
    /\ transparentId (application s') = transparentId app
    /\ floor (application s') = floor app
    /\ offX (application s') = offX app
    /\ offY (application s') = offY app.
Proof.
  intros Hne Hnd Hids Hlisted Hplain. unfold _exportMappings.
  assert ((App.size (colorMappings app) =? 0) = false) as ->.
  { apply Z.eqb_neq. unfold App.size. destruct (colorMappings app); [contradiction|].
    cbn [List.length]. lia. }
  exists (mkExportData 1
            (Some (map (fun e => mkColorData (fst e) (rgb (snd e))
                                   (Some (Integer (App.tileId (snd e)))) (count (snd e)))
                       (colorMappings app)))
            (Some (currentSettings app))).
  cbn [fst].
  unfold _importMappings. cbn [colors settings].
  set (ids := map (fun e => (fst e, rgb (snd e), App.tileId (snd e), count (snd e)))
                  (colorMappings app)).
  assert (Hcs : map (fun e => mkColorData (fst e) (rgb (snd e))
                                (Some (Integer (App.tileId (snd e)))) (count (snd e)))
                    (colorMappings app)
                = map (fun e : string * App.Rgb * Z * Z =>
                         mkColorData (fst (fst (fst e))) (snd (fst (fst e)))
                           (Some (Integer (snd (fst e)))) (snd e)) ids).
  { unfold ids. rewrite map_map. reflexivity. }
  rewrite Hcs.
  assert (Hnd' : NoDup (map (fun e : string * App.Rgb * Z * Z => fst (fst (fst e))) ids)).
  { unfold ids. rewrite map_map. exact Hnd. }
  assert (Hids' : Forall (fun e : string * App.Rgb * Z * Z => idOk (snd (fst e))) ids).
  { unfold ids. apply Forall_map. unfold JS.values in Hids.
    rewrite Forall_map in Hids. exact Hids. }
  destruct (importColors_get k ids (application s, 0) Hnd' Hids')
    as ([app1 imported] & -> & Hkeys & Hget).
  cbn [fst] in Hkeys, Hget. cbv zeta. cbn [option_map fst].
  eexists. split; [reflexivity|]. split; [reflexivity|].
  destruct (importSettings_fields parseIntElsewhere okSettings app
              (set_application app1 s) Hlisted Hplain)
    as (Ec & Et & Ez & Ex & Ey & Ep & _).
  set (s1 := importSettings parseIntElsewhere okSettings (currentSettings app)
               (set_application app1 s)) in *.
  assert (Hsave : forall a,
            colorMappings (_saveColorMappings okMappings a) = colorMappings a
            /\ clientVersion (_saveColorMappings okMappings a) = clientVersion a
            /\ transparentTileId (_saveColorMappings okMappings a) = transparentTileId a
            /\ zLevel (_saveColorMappings okMappings a) = zLevel a
            /\ offsetX (_saveColorMappings okMappings a) = offsetX a
            /\ offsetY (_saveColorMappings okMappings a) = offsetY a).
  { intros a. unfold _saveColorMappings. destruct okMappings; repeat split; reflexivity. }
  destruct (Hsave (application s1)) as (Sp & Sc & St & Sz & Sx & Sy).
  cbn [application set_application].
  unfold transparentId, floor, offX, offY.
  rewrite Sp, Sc, St, Sz, Sx, Sy, Ep, Ec, Et, Ez, Ex, Ey.
  cbn [application set_application].
  rewrite Hkeys, Hget, transparentId_again, !orElse_again.
  repeat apply conj; try reflexivity.
  destruct (JS.get k (colorMappings (application s))) as [m|]; [|reflexivity].
  unfold ids. rewrite find_exported.
  destruct (JS.get k (colorMappings app)) as [exported|]; reflexivity.
Qed.

End KeepingTileIds.

(** ** The two revisions, the colour keys and the client table *)

Section RevisionsAndTables.

Import App Palette Planner Pipeline.

(** *** The two revisions *)

Lemma clamp_id lo hi v : lo <= v <= hi -> JS.clamp lo hi v = v.
Proof. unfold JS.clamp. lia. Qed.

(** X19. Where the offsets are not negative, the transparent tile id is within 0
    and 65535 and the map stays below coordinate 65535, the first revision
    (src/app.js) does what the current one does: the same file, the same
    status. *)
Theorem revisions_agree_within_the_limits (proceed : bool) (app : PNGToOTBMApp)
    (img imgData : Image) :
  image app = Some img ->
  imageData app = Some imgData ->
  Z.of_nat (List.length (data imgData)) = width img * height img ->
  0 <= width img -> 0 <= height img ->
  NoDup (JS.keys (colorMappings app)) ->
  0 <= orElse (offsetX app) 0 ->
  0 <= orElse (offsetY app) 0 ->
  0 <= orElse (transparentTileId app) 0 <= 65535 ->
  orElse (offsetX app) 0 + width img <= 65535 ->
  orElse (offsetY app) 0 + height img <= 65535 ->
  App0._generateOTBM proceed app = Some (App._generateOTBM proceed app).
Proof.
  intros Himg Hdata Hlen Hw Hh Hnd Hox Hoy Htid Hx Hy.
  rewrite (generateOTBM_steps proceed app img imgData Himg Hdata).
  unfold App0._generateOTBM. rewrite Himg, Hdata. cbv zeta.
  unfold warns, transparentId, floor, offX, offY.
  rewrite (clamp_id 0 65535) by exact Htid.
  rewrite !Z.max_r by assumption.
  destruct (_ && negb proceed); [reflexivity|].
  assert ((65535 <? orElse (offsetX app) 0 + width img)
          || (65535 <? orElse (offsetY app) 0 + height img) = false) as ->.
  { apply orb_false_iff. rewrite !Z.ltb_ge. auto. }
  change (clientVersion (set_status StatusGenerating app)) with (clientVersion app).
  destruct (ClientData.getClientConfig (clientVersion app)) as [client|]; [|reflexivity].
  destruct (ClientData.getOTBVersion (ClientData.otb client)) as [otb|]; [|reflexivity].
  rewrite planPixel0_same.
  change (colorMappings (set_status StatusGenerating app)) with (colorMappings app).
  change (zLevel (set_status StatusGenerating app)) with (zLevel app).
  change (offsetX (set_status StatusGenerating app)) with (offsetX app).
  change (offsetY (set_status StatusGenerating app)) with (offsetY app).
  match goal with
  | |- context [forRange (height img) ?body ?p0] =>
      change (forRange (height img) body p0)
        with (planTiles (data imgData) (width img) (height img)
                (colorToTile (colorMappings app)) (orElse (transparentTileId app) 0)
                (JS.clamp 0 15 (orElse (zLevel app) 7))
                (orElse (offsetX app) 0) (orElse (offsetY app) 0) p0)
  end.
  rewrite !planTiles_emit by assumption. reflexivity.
Qed.

(** *** The limits of the first revision *)

(** X20. In the first revision the limit on the number of pixels is the square of
    the limit on the sides, so the second test never fails: an image is
    refused for a side above 2048 and for nothing else. *)
Theorem first_revision_has_one_limit (w h : Z) :
  0 <= w -> 0 <= h ->
  App0._checkImageComplexity w h
  = if (2048 <? w) || (2048 <? h) then Some StatusImageTooLarge else None.
Proof.
  intros Hw Hh. unfold App0._checkImageComplexity. cbv zeta.
  destruct (Z.ltb_spec 2048 w), (Z.ltb_spec 2048 h); cbn [orb]; try reflexivity.
  destruct (Z.ltb_spec 4194304 (w * h)); [nia|reflexivity].
Qed.

(** *** Colour keys *)

Lemma hex2_digits v :
  0 <= v <= 255 ->
  exists c1 c2, hex2 v = String c1 (String c2 EmptyString) /\ hexPair c1 c2 = Some v.
Proof.
  intros Hv.
  assert (H : forallb (fun v =>
                match hex2 v with
                | String c1 (String c2 EmptyString) =>
                    match hexPair c1 c2 with
                    | Some v' => v' =? v
                    | None => false
                    end
                | _ => false
                end) byteValues = true)
    by (vm_compute; reflexivity).
  rewrite forallb_forall in H. specialize (H v (In_byteValues v Hv)).
  destruct (hex2 v) as [|c1 [|c2 [|]]]; try discriminate.
  exists c1, c2. split; [reflexivity|].
  destruct (hexPair c1 c2) as [v'|]; [|discriminate].
  apply Z.eqb_eq in H. congruence.
Qed.

(** X21. The key of a colour holds the colour: [_hexToRgb] reads back the three
    bytes that [_rgbToHex] wrote, so two colours have the same key only when
    they are the same colour. *)
Theorem hexToRgb_inverts_rgbToHex (r g b : Z) :
  0 <= r <= 255 -> 0 <= g <= 255 -> 0 <= b <= 255 ->
  _hexToRgb (_rgbToHex r g b) = mkRgb r g b.
Proof.
  intros Hr Hg Hb.
  destruct (hex2_digits r Hr) as (r1 & r2 & Er & Pr).
  destruct (hex2_digits g Hg) as (g1 & g2 & Eg & Pg).
  destruct (hex2_digits b Hb) as (b1 & b2 & Eb & Pb).
  unfold _rgbToHex, _hexToRgb. rewrite Er, Eg, Eb. cbn.
  rewrite Pr, Pg, Pb. reflexivity.
Qed.

(** *** The client table *)

Lemma client_eqb_eq (c d : ClientData.Client) :
  String.eqb (ClientData.name c) (ClientData.name d)
  && String.eqb (ClientData.otb c) (ClientData.otb d)
  && (ClientData.otbmVersion c =? ClientData.otbmVersion d)
  && Bool.eqb (ClientData.default c) (ClientData.default d) = true ->
  c = d.
Proof.
  destruct c, d. cbn. rewrite !andb_true_iff, !String.eqb_eq, Z.eqb_eq.
  intros [[[-> ->] ->] E]. apply Bool.eqb_prop in E. subst. reflexivity.
Qed.

(** X22. Every client of the list that the page offers is found under its name,
    and so is the OTB version it names; its OTBM version is 1, 2 or 3.  A
    confirmed run for a listed client therefore never ends for want of a
    client or of an OTB version. *)
Theorem every_listed_client_resolves (c : ClientData.Client) (app : PNGToOTBMApp) :
  In c ClientData.clients ->
  ClientData.getClientConfig (ClientData.name c) = Some c
  /\ (exists otb, ClientData.getOTBVersion (ClientData.otb c) = Some otb)
  /\ 1 <= ClientData.otbmVersion c <= 3
  /\ (clientVersion app = ClientData.name c ->
      status (snd (App._generateOTBM true app)) <> StatusInvalidClient
      /\ status (snd (App._generateOTBM true app)) <> StatusOtbNotFound).
Proof.
  intros Hin.
  assert (H : forallb (fun c =>
                match ClientData.getClientConfig (ClientData.name c) with
                | Some d =>
                    String.eqb (ClientData.name d) (ClientData.name c)
                    && String.eqb (ClientData.otb d) (ClientData.otb c)
                    && (ClientData.otbmVersion d =? ClientData.otbmVersion c)
                    && Bool.eqb (ClientData.default d) (ClientData.default c)
                    && match ClientData.getOTBVersion (ClientData.otb c) with
                       | Some _ => true
                       | None => false
                       end
                    && (1 <=? ClientData.otbmVersion c)
                    && (ClientData.otbmVersion c <=? 3)
                | None => false
                end) ClientData.clients = true)
    by (vm_compute; reflexivity).
  rewrite forallb_forall in H. specialize (H c Hin).
  destruct (ClientData.getClientConfig (ClientData.name c)) as [d|] eqn:Ed;
    [|discriminate].
  apply andb_true_iff in H as [H H3]. apply andb_true_iff in H as [H H1].
  apply andb_true_iff in H as [Heq Hotb].
  apply client_eqb_eq in Heq. subst d.
  apply Z.leb_le in H1, H3.
  destruct (ClientData.getOTBVersion (ClientData.otb c)) as [otb|] eqn:Eotb;
    [|discriminate].
  repeat apply conj; try assumption; [reflexivity|exists otb; reflexivity|].
  intros Hname.
  destruct (image app) as [img|] eqn:Himg;
    [destruct (imageData app) as [imgData|] eqn:Hdata|].
  - rewrite (generateOTBM_steps true app img imgData Himg Hdata).
    rewrite Hname, Ed, Eotb, andb_false_r.
    destruct (_ || _); [split; discriminate|].
    match goal with
    | |- context [match ?p with Some _ => _ | None => _ end] => destruct p
    end; split; discriminate.
  - unfold App._generateOTBM. rewrite Himg, Hdata. split; discriminate.
  - unfold App._generateOTBM. rewrite Himg. split; discriminate.
Qed.

(** The client selected when the page opens is one of the list. *)
Lemma default_client_listed : In Clients.getDefaultClient Clients.options.
Proof. vm_compute. auto 10. Qed.

End RevisionsAndTables.

(** ** The theorems of the run at sample inputs *)

Section SampleRuns.

Import App Palette Planner Pipeline.

(** *** The theorems of the run at sample inputs *)

Lemma small_analysed :
  analysed (colorMappings Samples.mapped) (transparentPixelCount Samples.mapped)
           (data Examples.small).
Proof.
  repeat apply conj.
  - apply perm_swap.
  - intros k m [E|[E|[]]]; injection E as <- <-; reflexivity.
  - reflexivity.
Qed.

Lemma mapped_NoDup : NoDup (JS.keys (colorMappings Samples.mapped)).
Proof. repeat constructor; cbn; intuition discriminate. Qed.

Lemma mapped_ids :
  Forall (fun m => tileId m <= 65535) (JS.values (colorMappings Samples.mapped)).
Proof. repeat constructor; discriminate. Qed.

Lemma mapped_ids_nonneg :
  Forall (fun m => 0 <= tileId m) (JS.values (colorMappings Samples.mapped)).
Proof. repeat constructor; discriminate. Qed.

Lemma generate_tiles_read_back_witness :
  Forall Decode.fits (Writer.tiles Samples.threeTilesWriter)
  /\ option_map Decode.readTiles (Decode.decode (fst (Writer.generate Samples.threeTilesWriter)))
     = Some (map Some (Grouping.allTiles
                         (Writer.groupTiles (Writer.tiles Samples.threeTilesWriter)))).
Proof.
  assert (H : Forall Decode.fits (Writer.tiles Samples.threeTilesWriter)).
  { repeat constructor; discriminate. }
  split; [exact H|].
  exact (proj1 (generate_tiles_read_back Samples.threeTilesWriter H)).
Defined.

Lemma generateOTBM_downloads_the_document_witness :
  warns Samples.mapped && negb false = false
  /\ fst (App._generateOTBM false Samples.mapped)
     = Some (Format.document
               (writerOf Samples.mapped Examples.small Examples.small
                         Samples.client800 Samples.otb800)).
Proof.
  split; [reflexivity|].
  rewrite (generateOTBM_downloads_the_document false Samples.mapped
             Examples.small Examples.small Samples.client800 Samples.otb800
             eq_refl eq_refl eq_refl
             ltac:(discriminate) ltac:(discriminate) mapped_NoDup eq_refl
             ltac:(discriminate) ltac:(discriminate) eq_refl eq_refl).
  reflexivity.
Defined.

Lemma planned_tiles_fit_the_format_witness :
  offX Samples.mapped + width Examples.small <= 65535
  /\ Forall Spec.inRange (tilesOf Samples.mapped Examples.small Examples.small).
Proof.
  split; [discriminate|].
  eapply Forall_impl;
    [|exact (planned_tiles_fit_the_format Samples.mapped Examples.small Examples.small
               ltac:(discriminate) ltac:(discriminate) mapped_ids)].
  intros t H. apply H.
Defined.

Lemma one_tile_per_pixel_witness :
  filter (fun t => (Writer.x t =? 1 + 10) && (Writer.y t =? 0 + 20))
         (tilesOf Samples.mapped Examples.small Examples.small)
  = [Writer.mkTile 11 20 7 200 []].
Proof.
  exact (one_tile_per_pixel Samples.mapped Examples.small Examples.small 1 0
           ltac:(split; [discriminate|reflexivity])
           ltac:(split; [discriminate|reflexivity])).
Defined.

Lemma downloaded_file_reads_back_witness :
  warns Samples.mapped && negb false = false
  /\ exists file read,
       fst (App._generateOTBM false Samples.mapped) = Some file
       /\ option_map Decode.readTiles (Decode.decode file) = Some (map Some read)
       /\ Permutation read (tilesOf Samples.mapped Examples.small Examples.small).
Proof.
  split; [reflexivity|].
  destruct (downloaded_file_reads_back false Samples.mapped
              Examples.small Examples.small Samples.client800 Samples.otb800
              eq_refl eq_refl eq_refl
              ltac:(discriminate) ltac:(discriminate) mapped_NoDup mapped_ids eq_refl
              ltac:(discriminate) ltac:(discriminate) eq_refl eq_refl)
    as (file & read & E & R & P & _).
  exists file, read. auto.
Defined.

Lemma tile_count_matches_the_palette_witness :
  analysed (colorMappings Samples.mapped) (transparentPixelCount Samples.mapped)
           (data Examples.small)
  /\ Z.of_nat (List.length (tilesOf Samples.mapped Examples.small Examples.small)) = 4.
Proof.
  split; [exact small_analysed|].
  exact (tile_count_matches_the_palette Samples.mapped Examples.small Examples.small
           ltac:(discriminate) ltac:(discriminate) eq_refl small_analysed).
Defined.

Lemma confirmation_asked_iff_pixels_are_skipped_witness :
  analysed (colorMappings Samples.mapped) (transparentPixelCount Samples.mapped)
           (data Examples.small)
  /\ (warns Samples.mapped = false
      <-> Z.of_nat (List.length (tilesOf Samples.mapped Examples.small Examples.small))
          = width Examples.small * height Examples.small).
Proof.
  split; [exact small_analysed|].
  exact (confirmation_asked_iff_pixels_are_skipped Samples.mapped
           Examples.small Examples.small
           ltac:(discriminate) ltac:(discriminate) eq_refl small_analysed
           mapped_ids_nonneg).
Defined.

Lemma generateOTBM_cancelled_changes_nothing_witness :
  (warns Samples.loaded = true
   /\ App._generateOTBM false Samples.loaded = (None, Samples.loaded))
  /\ (warns Examples.atTheEdge = false
      /\ App._generateOTBM false Examples.atTheEdge
         = App._generateOTBM true Examples.atTheEdge).
Proof.
  assert (Hwarns : warns Samples.loaded = true) by (vm_compute; reflexivity).
  assert (Hquiet : warns Examples.atTheEdge = false) by (vm_compute; reflexivity).
  split; split; [exact Hwarns| |exact Hquiet|].
  - exact (proj1 (generateOTBM_cancelled_changes_nothing Samples.loaded
                    Examples.small Examples.small
                    ltac:(vm_compute; reflexivity) ltac:(vm_compute; reflexivity))
                 Hwarns).
  - exact (proj2 (generateOTBM_cancelled_changes_nothing Examples.atTheEdge
                    Examples.onePixel Examples.onePixel eq_refl eq_refl)
                 Hquiet).
Defined.

Lemma loadImage_accepts_witness :
  (List.length (distinctColors (data Examples.small)) <= 256)%nat
  /\ image (_loadImage Examples.small Examples.blank) = Some Examples.small
  /\ status (_loadImage Examples.small Examples.blank) = StatusLoaded.
Proof.
  assert (H : (List.length (distinctColors (data Examples.small)) <= 256)%nat).
  { apply Nat.leb_le. vm_compute. reflexivity. }
  split; [exact H|].
  destruct (loadImage_accepts Examples.small Examples.blank
              ltac:(discriminate) ltac:(discriminate) ltac:(discriminate) H)
    as (E1 & _ & E3 & _).
  split; assumption.
Defined.

Lemma loadImage_refuses_witness :
  (256 < List.length (distinctColors (data Examples.manyColors)))%nat
  /\ image (_loadImage Examples.manyColors Samples.mapped) = None
  /\ colorMappings (_loadImage Examples.manyColors Samples.mapped) = [].
Proof.
  assert (H : (256 < List.length (distinctColors (data Examples.manyColors)))%nat).
  { apply Nat.ltb_lt. vm_compute. reflexivity. }
  split; [exact H|].
  destruct (loadImage_refuses Examples.manyColors Samples.mapped true
              (or_intror (or_intror (or_intror H))))
    as (E1 & _ & E3 & _).
  split; assumption.
Defined.

Lemma tile_ids_stay_in_range_witness :
  Editing.idsOk Samples.fresh
  /\ Forall Editing.importsWholeIds Samples.events
  /\ exists s',
       Editing.run (fun name => name) Samples.noExponent Samples.events Samples.fresh
       = Some s'
       /\ Editing.idsOk s'.
Proof.
  assert (H : Editing.idsOk Samples.fresh).
  { repeat split; constructor. }
  assert (Hw : Forall Editing.importsWholeIds Samples.events).
  { vm_compute. repeat constructor. }
  split; [exact H|]. split; [exact Hw|].
  destruct (tile_ids_stay_in_range (fun name => name) Samples.noExponent Samples.events
              Samples.fresh Examples.small Examples.small H Hw)
    as (s' & E & Hs' & _).
  exists s'. split; assumption.
Defined.

Lemma saved_ids_are_restored_witness :
  In ("#ff0000"%string, mkMapping "#ff0000" (mkRgb 255 0 0) 100 1)
     (colorMappings (_loadImage Examples.small
                       (Editing._saveColorMappings true Samples.mapped)))
  /\ tileId (mkMapping "#ff0000" (mkRgb 255 0 0) 100 1)
     = match JS.get "#ff0000" (colorMappings Samples.mapped) with
       | Some m => tileId m
       | None => 0
       end.
Proof.
  assert (H : In ("#ff0000"%string, mkMapping "#ff0000" (mkRgb 255 0 0) 100 1)
                (colorMappings (_loadImage Examples.small
                                  (Editing._saveColorMappings true Samples.mapped)))).
  { vm_compute. right. left. reflexivity. }
  split; [exact H|].
  exact (saved_ids_are_restored Samples.mapped Examples.small "#ff0000"
           (mkMapping "#ff0000" (mkRgb 255 0 0) 100 1)
           mapped_NoDup mapped_ids_nonneg H).
Defined.

Lemma change_sets_and_saves_the_id_witness :
  JS.get "#ff0000" (colorMappings Samples.mapped)
  = Some (mkMapping "#ff0000" (mkRgb 255 0 0) 100 1)
  /\ JS.get "#ff0000"
       (colorMappings (Editing.application
          (fst (Editing.onChange true "#ff0000" (Some 70000)
                  (Editing.mkSession Samples.mapped [] None None)))))
     = Some (mkMapping "#ff0000" (mkRgb 255 0 0) 65535 1).
Proof.
  split; [reflexivity|].
  exact (proj1 (change_sets_and_saves_the_id "#ff0000" (Some 70000)
                  (Editing.mkSession Samples.mapped [] None None)
                  (mkMapping "#ff0000" (mkRgb 255 0 0) 100 1)
                  mapped_NoDup eq_refl)).
Defined.

Lemma revisions_agree_within_the_limits_witness :
  orElse (offsetX Samples.mapped) 0 + width Examples.small <= 65535
  /\ App0._generateOTBM false Samples.mapped
     = Some (App._generateOTBM false Samples.mapped).
Proof.
  split; [discriminate|].
  exact (revisions_agree_within_the_limits false Samples.mapped
           Examples.small Examples.small eq_refl eq_refl eq_refl
           ltac:(discriminate) ltac:(discriminate) mapped_NoDup
           ltac:(discriminate) ltac:(discriminate)
           ltac:(split; discriminate)
           ltac:(discriminate) ltac:(discriminate)).
Defined.

Lemma first_revision_has_one_limit_witness :
  0 <= 2048 /\ App0._checkImageComplexity 2048 2048 = None.
Proof.
  split; [discriminate|].
  exact (first_revision_has_one_limit 2048 2048 ltac:(discriminate) ltac:(discriminate)).
Defined.

Lemma hexToRgb_inverts_rgbToHex_witness :
  0 <= 255 <= 255 /\ _hexToRgb (_rgbToHex 255 128 0) = mkRgb 255 128 0.
Proof.
  split; [split; discriminate|].
  exact (hexToRgb_inverts_rgbToHex 255 128 0
           ltac:(split; discriminate) ltac:(split; discriminate)
           ltac:(split; discriminate)).
Defined.

Lemma every_listed_client_resolves_witness :
  In Samples.client800 ClientData.clients
  /\ ClientData.getClientConfig "8.00" = Some Samples.client800.
Proof.
  assert (H : In Samples.client800 ClientData.clients).
  { vm_compute. do 2 right. left. reflexivity. }
  split; [exact H|].
  exact (proj1 (every_listed_client_resolves Samples.client800 Examples.blank H)).
Defined.

Lemma floor_zero_is_read_as_seven_witness :
  (In (Writer.mkTile 11 20 7 200 [])
      (tilesOf Samples.mappedAtZero Examples.small Examples.small)
   /\ zLevel Samples.mappedAtZero = Some 0
   /\ Writer.z (Writer.mkTile 11 20 7 200 []) = 7)
  /\ (In (Writer.mkTile 11 20 0 200 [])
         (tilesOf Samples.mappedBelow Examples.small Examples.small)
      /\ (Writer.z (Writer.mkTile 11 20 0 200 []) = 0
          <-> exists v, zLevel Samples.mappedBelow = Some v /\ v < 0))
  /\ (In (Writer.mkTile 11 20 7 200 [])
         (tilesOf Samples.mapped Examples.small Examples.small)
      /\ (forall v, zLevel Samples.mapped = Some v -> 1 <= v <= 15 ->
            Writer.z (Writer.mkTile 11 20 7 200 []) = v)).
Proof.
  assert (H0 : In (Writer.mkTile 11 20 7 200 [])
                 (tilesOf Samples.mappedAtZero Examples.small Examples.small)).
  { vm_compute. right. left. reflexivity. }
  assert (Hn : In (Writer.mkTile 11 20 0 200 [])
                 (tilesOf Samples.mappedBelow Examples.small Examples.small)).
  { vm_compute. right. left. reflexivity. }
  assert (H7 : In (Writer.mkTile 11 20 7 200 [])
                 (tilesOf Samples.mapped Examples.small Examples.small)).
  { vm_compute. right. left. reflexivity. }
  split; [|split].
  - split; [exact H0|]. split; [reflexivity|].
    exact (proj1 (floor_zero_is_read_as_seven Samples.mappedAtZero Examples.small
                    Examples.small (Writer.mkTile 11 20 7 200 []) H0)
                 (or_introl eq_refl)).
  - split; [exact Hn|].
    exact (proj1 (proj2 (floor_zero_is_read_as_seven Samples.mappedBelow Examples.small
                           Examples.small (Writer.mkTile 11 20 0 200 []) Hn))).
  - split; [exact H7|].
    exact (proj2 (proj2 (floor_zero_is_read_as_seven Samples.mapped Examples.small
                           Examples.small (Writer.mkTile 11 20 7 200 []) H7))).
Defined.

Lemma saved_settings_come_back_witness :
  In (clientVersion Samples.mapped) Clients.options
  /\ Editing.plainSettings Samples.mapped
  /\ floor (Editing.application
              (Editing._loadSettings Samples.noExponent
                 (Editing.set_storedSettings
                    (Some (Editing.currentSettings Samples.mapped)) Samples.fresh)))
     = floor Samples.mapped.
Proof.
  assert (H : In (clientVersion Samples.mapped) Clients.options).
  { vm_compute. do 2 right. left. reflexivity. }
  assert (Hp : Editing.plainSettings Samples.mapped).
  { repeat split; vm_compute; reflexivity. }
  split; [exact H|]. split; [exact Hp|].
  exact (proj1 (proj2 (proj2 (saved_settings_come_back Samples.noExponent
           (Editing.mkSession Samples.mapped [] None None)
           (Editing.set_storedSettings
              (Some (Editing.currentSettings Samples.mapped)) Samples.fresh)
           H Hp eq_refl)))).
Defined.

Lemma exported_mappings_import_back_witness :
  colorMappings Samples.mapped <> []
  /\ Editing.plainSettings Samples.mapped
  /\ exists file s',
       fst (Editing._exportMappings Samples.mapped) = Some file
       /\ option_map fst (Editing._importMappings Samples.noExponent true true
                            (Some file) Samples.unmapped) = Some s'
       /\ JS.get "#ff0000" (colorMappings (Editing.application s'))
          = Some (mkMapping "#ff0000" (mkRgb 255 0 0) 100 1).
Proof.
  assert (H : colorMappings Samples.mapped <> []) by discriminate.
  assert (Hp : Editing.plainSettings Samples.mapped).
  { repeat split; vm_compute; reflexivity. }
  split; [exact H|]. split; [exact Hp|].
  destruct (exported_mappings_import_back Samples.noExponent true true Samples.mapped
              Samples.unmapped "#ff0000" H mapped_NoDup
              ltac:(repeat constructor; discriminate)
              ltac:(vm_compute; do 2 right; left; reflexivity) Hp)
    as (file & s' & E & I & _ & G & _).
  exists file, s'. split; [exact E|]. split; [exact I|]. rewrite G. reflexivity.
Defined.

End SampleRuns.
